(** * PartyOn audio streamer: capture, registry and configuration

    A shallow embedding of the three Python modules that carry the
    behaviour of the streamer,

    - [src/config.py]              ([ServerConfig], [validate_config], [load_config]),
    - [src/connection_manager.py]  ([ClientInfo], [ConnectionManager]),
    - [src/audio_capture.py]       ([AudioCapture]),

    followed by the properties proved about them.

    Python methods mutate [self] and may raise; they are written here in a
    state-and-exception monad [Py.M].  A raised exception keeps the state
    changes made before it, as in Python.  Calls into libraries
    (sounddevice, websockets, the file system, the wall clock) are
    answered by explicit oracles, so every statement is quantified over
    the behaviour of the outside world. *)

From Stdlib Require Import ZArith List String Ascii Bool Lia QArith.
From Stdlib Require Import Strings.Byte.
From Stdlib Require Import DecimalString.
Import ListNotations.

Local Open Scope string_scope.
Local Open Scope Z_scope.

(* ================================================================== *)
(** ** Python control flow: state, exceptions, loops *)
(* ================================================================== *)

Module Py.

(** The exception classes that occur in the three modules.  Every one
    of them derives from [Exception]; signals that derive from
    [BaseException] only (a cancelled coroutine, a keyboard interrupt) are
    outside this model. *)
Inductive exn_class :=
| AttributeError | TypeError | ValueError | JSONDecodeError
| OSError | PortAudioError | ConnectionClosed | RuntimeError.

Definition exn_class_eqb (a b : exn_class) : bool :=
  match a, b with
  | AttributeError, AttributeError | TypeError, TypeError
  | ValueError, ValueError | JSONDecodeError, JSONDecodeError
  | OSError, OSError | PortAudioError, PortAudioError
  | ConnectionClosed, ConnectionClosed | RuntimeError, RuntimeError => true
  | _, _ => false
  end.

Record exn := mk_exn { exn_cls : exn_class; exn_msg : string }.

Inductive result (A : Type) :=
| Ret (a : A)
| Raise (e : exn).
Arguments Ret {A} a.
Arguments Raise {A} e.

(** A computation over a state [S]: it ends normally or by raising,
    and in both cases leaves a state behind. *)
Definition M (S A : Type) : Type := S -> result A * S.

Section Ops.
Context {S : Type}.

Definition ret {A} (a : A) : M S A := fun s => (Ret a, s).

Definition bind {A B} (m : M S A) (k : A -> M S B) : M S B :=
    fun s => match m s with
             | (Ret a, s') => k a s'
             | (Raise e, s') => (Raise e, s')
             end.

Definition raise {A} (e : exn) : M S A := fun s => (Raise e, s).

Definition get : M S S := fun s => (Ret s, s).
Definition gets {A} (f : S -> A) : M S A := fun s => (Ret (f s), s).
Definition modify (f : S -> S) : M S unit := fun s => (Ret tt, f s).

  (** [try: body  except Exception as e: handler e] *)
Definition try_except {A} (body : M S A) (handler : exn -> M S A) : M S A :=
    fun s => match body s with
             | (Ret a, s') => (Ret a, s')
             | (Raise e, s') => handler e s'
             end.

  (** [try: body  except cls: handler]; other classes propagate. *)
Definition try_except_cls {A} (cls : exn_class)
             (body : M S A) (handler : exn -> M S A) : M S A :=
    fun s => match body s with
             | (Ret a, s') => (Ret a, s')
             | (Raise e, s') =>
                 if exn_class_eqb (exn_cls e) cls then handler e s'
                 else (Raise e, s')
             end.

  (** [try: body  finally: fin]: [fin] runs on both exits; an exception
      of [body] is re-raised after it unless [fin] itself raises. *)
Definition try_finally {A} (body : M S A) (fin : M S unit) : M S A :=
    fun s => match body s with
             | (r, s') =>
                 match fin s' with
                 | (Ret _, s'') => (r, s'')
                 | (Raise e, s'') => (Raise e, s'')
                 end
             end.

  (** [for x in xs: body x] *)
Fixpoint for_each {A} (xs : list A) (body : A -> M S unit) : M S unit :=
    match xs with
    | [] => ret tt
    | x :: xs' => bind (body x) (fun _ => for_each xs' body)
    end.

  (** A [for] loop that carries local variables [acc] from one
      iteration to the next. *)
Fixpoint for_fold {A L} (xs : list A) (acc : L)
           (body : L -> A -> M S L) : M S L :=
    match xs with
    | [] => ret acc
    | x :: xs' => bind (body acc x) (fun acc' => for_fold xs' acc' body)
    end.

  (** A [for] loop whose body may [return r]: [Some r] leaves the loop
      (and the function) at once, [None] goes on with the next item. *)
Fixpoint for_return {A R} (xs : list A)
           (body : A -> M S (option R)) : M S (option R) :=
    match xs with
    | [] => ret None
    | x :: xs' =>
        bind (body x) (fun r =>
          match r with
          | Some v => ret (Some v)
          | None => for_return xs' body
          end)
    end.
End Ops.

(** [on_return m P]: whenever [m] ends normally, its result satisfies
    [P].  (What happens when it raises is said separately.) *)
Definition on_return {S A} (m : M S A) (P : A -> Prop) : Prop :=
  forall s, match fst (m s) with
            | Ret a => P a
            | Raise _ => True
            end.

(** A library call whose outcome the environment decides. *)
Definition outcome {S} (o : option exn) : M S unit :=
  match o with
  | None => ret tt
  | Some e => raise e
  end.

Module Notations.
Notation "x <- m ;; k" := (bind m (fun x => k))
    (at level 61, m at next level, right associativity).
Notation "m ;; k" := (bind m (fun _ => k))
    (at level 61, right associativity).
End Notations.

(** [f"{n}"] for a Python int. *)
Definition str_of_int (z : Z) : string := NilZero.string_of_int (Z.to_int z).

End Py.

Import Py.Notations.

(* ================================================================== *)
(** ** src/config.py *)
(* ================================================================== *)

Module Config.
Import Py.

(** [@dataclass class ServerConfig], with the field types it declares. *)
Record ServerConfig := mkServerConfig {
  http_port : Z;
  ws_port : Z;
  sample_rate : Z;
  channels : Z;
  block_size : Z;
  log_level : string;
  max_reconnect_attempts : Z;
  client_timeout_seconds : Z
}.

(** [ServerConfig()]: every field at its default. *)
Definition defaults : ServerConfig :=
  {| http_port := 5000; ws_port := 8765; sample_rate := 44100;
     channels := 2; block_size := 1024; log_level := "INFO";
     max_reconnect_attempts := 10; client_timeout_seconds := 30 |}.

Definition set_http_port (c : ServerConfig) (v : Z) : ServerConfig :=
  mkServerConfig v (ws_port c) (sample_rate c) (channels c) (block_size c)
                 (log_level c) (max_reconnect_attempts c) (client_timeout_seconds c).
Definition set_ws_port (c : ServerConfig) (v : Z) : ServerConfig :=
  mkServerConfig (http_port c) v (sample_rate c) (channels c) (block_size c)
                 (log_level c) (max_reconnect_attempts c) (client_timeout_seconds c).
Definition set_sample_rate (c : ServerConfig) (v : Z) : ServerConfig :=
  mkServerConfig (http_port c) (ws_port c) v (channels c) (block_size c)
                 (log_level c) (max_reconnect_attempts c) (client_timeout_seconds c).
Definition set_block_size (c : ServerConfig) (v : Z) : ServerConfig :=
  mkServerConfig (http_port c) (ws_port c) (sample_rate c) (channels c) v
                 (log_level c) (max_reconnect_attempts c) (client_timeout_seconds c).
Definition set_log_level (c : ServerConfig) (v : string) : ServerConfig :=
  mkServerConfig (http_port c) (ws_port c) (sample_rate c) (channels c) (block_size c)
                 v (max_reconnect_attempts c) (client_timeout_seconds c).

(** *** Values as [json.load] delivers them

    The dataclass does not check its annotations, so a configuration
    built from a JSON file holds whatever the file held.  Finite floats
    are represented by their exact rational value: Python compares an
    int with a float exactly, so the comparisons below are the ones the
    interpreter makes.  The contents of lists and dicts play no part in
    any comparison of [validate_config]. *)
Inductive pyfloat :=
| FNan
| FInf (negative : bool)
| FFin (q : Q).

Inductive pyval :=
| PNone
| PBool (b : bool)
| PInt (z : Z)
| PFloat (f : pyfloat)
| PStr (s : string)
| PList
| PDict.

(** The same dataclass, holding unchecked values. *)
Record RawConfig := mkRawConfig {
  raw_http_port : pyval;
  raw_ws_port : pyval;
  raw_sample_rate : pyval;
  raw_channels : pyval;
  raw_block_size : pyval;
  raw_log_level : pyval;
  raw_max_reconnect_attempts : pyval;
  raw_client_timeout_seconds : pyval
}.

Definition to_raw (c : ServerConfig) : RawConfig :=
  {| raw_http_port := PInt (http_port c);
     raw_ws_port := PInt (ws_port c);
     raw_sample_rate := PInt (sample_rate c);
     raw_channels := PInt (channels c);
     raw_block_size := PInt (block_size c);
     raw_log_level := PStr (log_level c);
     raw_max_reconnect_attempts := PInt (max_reconnect_attempts c);
     raw_client_timeout_seconds := PInt (client_timeout_seconds c) |}.

Definition raw_set_http_port (c : RawConfig) (v : pyval) : RawConfig :=
  mkRawConfig v (raw_ws_port c) (raw_sample_rate c) (raw_channels c) (raw_block_size c)
              (raw_log_level c) (raw_max_reconnect_attempts c) (raw_client_timeout_seconds c).
Definition raw_set_ws_port (c : RawConfig) (v : pyval) : RawConfig :=
  mkRawConfig (raw_http_port c) v (raw_sample_rate c) (raw_channels c) (raw_block_size c)
              (raw_log_level c) (raw_max_reconnect_attempts c) (raw_client_timeout_seconds c).
Definition raw_set_sample_rate (c : RawConfig) (v : pyval) : RawConfig :=
  mkRawConfig (raw_http_port c) (raw_ws_port c) v (raw_channels c) (raw_block_size c)
              (raw_log_level c) (raw_max_reconnect_attempts c) (raw_client_timeout_seconds c).
Definition raw_set_channels (c : RawConfig) (v : pyval) : RawConfig :=
  mkRawConfig (raw_http_port c) (raw_ws_port c) (raw_sample_rate c) v (raw_block_size c)
              (raw_log_level c) (raw_max_reconnect_attempts c) (raw_client_timeout_seconds c).
Definition raw_set_block_size (c : RawConfig) (v : pyval) : RawConfig :=
  mkRawConfig (raw_http_port c) (raw_ws_port c) (raw_sample_rate c) (raw_channels c) v
              (raw_log_level c) (raw_max_reconnect_attempts c) (raw_client_timeout_seconds c).
Definition raw_set_log_level (c : RawConfig) (v : pyval) : RawConfig :=
  mkRawConfig (raw_http_port c) (raw_ws_port c) (raw_sample_rate c) (raw_channels c)
              (raw_block_size c) v (raw_max_reconnect_attempts c) (raw_client_timeout_seconds c).
Definition raw_set_max_reconnect_attempts (c : RawConfig) (v : pyval) : RawConfig :=
  mkRawConfig (raw_http_port c) (raw_ws_port c) (raw_sample_rate c) (raw_channels c)
              (raw_block_size c) (raw_log_level c) v (raw_client_timeout_seconds c).
Definition raw_set_client_timeout_seconds (c : RawConfig) (v : pyval) : RawConfig :=
  mkRawConfig (raw_http_port c) (raw_ws_port c) (raw_sample_rate c) (raw_channels c)
              (raw_block_size c) (raw_log_level c) (raw_max_reconnect_attempts c) v.

(** Records of the root logger ([logging.warning]); each constructor is
    one message template of the module, with its interpolated values. *)
Inductive LogRecord :=
| InvalidSampleRate (got dflt : pyval)  (* "Invalid sample_rate {}. Using default {}." *)
| InvalidBlockSize (got dflt : pyval)   (* "Invalid block_size {}. Using default {}." *)
| InvalidLogLevel (got dflt : pyval)    (* "Invalid log_level {}. Using default {}." *)
| InvalidJson (e : exn)                 (* "Invalid JSON in config file: {}. Using defaults." *)
| LoadError (e : exn).                  (* "Error loading config: {}. Using defaults." *)

(** What the module touches outside itself: the root logger and the
    files it writes (path and the configuration dumped there). *)
Record World := mkWorld {
  root_logger : list LogRecord;
  written : list (string * ServerConfig)
}.

Definition warning (r : LogRecord) : M World unit :=
  modify (fun w => mkWorld (root_logger w ++ [r]) (written w)).

Definition valid_sample_rates : list Z := [22050; 44100; 48000].
Definition valid_levels : list string := ["DEBUG"; "INFO"; "WARNING"; "ERROR"].

Definition str_in (s : string) (l : list string) : bool := existsb (String.eqb s) l.
Definition int_in (z : Z) (l : list Z) : bool := existsb (Z.eqb z) l.

Section Validate.
(** [str.upper], left to the interpreter. *)
Variable str_upper : string -> string.

(** [validate_config] on a configuration whose fields have the declared
    types. *)
Definition validate_config (config : ServerConfig) : M World ServerConfig :=
  (* Validate sample_rate *)
  config <-
    (if negb (int_in (sample_rate config) valid_sample_rates) then
       warning (InvalidSampleRate (PInt (sample_rate config))
                                  (PInt (sample_rate defaults))) ;;
       ret (set_sample_rate config (sample_rate defaults))
     else ret config) ;;
  (* Validate buffer_size (block_size) *)
  config <-
    (if negb ((512 <=? block_size config) && (block_size config <=? 4096)) then
       warning (InvalidBlockSize (PInt (block_size config))
                                 (PInt (block_size defaults))) ;;
       ret (set_block_size config (block_size defaults))
     else ret config) ;;
  (* Validate log_level *)
  config <-
    (if negb (str_in (str_upper (log_level config)) valid_levels) then
       warning (InvalidLogLevel (PStr (log_level config))
                                (PStr (log_level defaults))) ;;
       ret (set_log_level config (log_level defaults))
     else ret (set_log_level config (str_upper (log_level config)))) ;;
  (* Validate ports *)
  config <-
    (if negb ((1 <=? http_port config) && (http_port config <=? 65535)) then
       ret (set_http_port config (http_port defaults))
     else ret config) ;;
  config <-
    (if negb ((1 <=? ws_port config) && (ws_port config <=? 65535)) then
       ret (set_ws_port config (ws_port defaults))
     else ret config) ;;
  ret config.

(** *** The same function on unchecked values *)

(** [x == n] for an int literal [n]. *)
Definition py_eq_int (x : pyval) (n : Z) : bool :=
  match x with
  | PBool b => Z.b2z b =? n
  | PInt z => z =? n
  | PFloat (FFin q) => Qeq_bool q (inject_Z n)
  | _ => false
  end.

(** [x in [n1, n2, ...]] *)
Definition py_in_ints (x : pyval) (l : list Z) : bool := existsb (py_eq_int x) l.

(** [type(x).__name__] *)
Definition type_name (x : pyval) : string :=
  match x with
  | PNone => "NoneType"
  | PBool _ => "bool"
  | PInt _ => "int"
  | PFloat _ => "float"
  | PStr _ => "str"
  | PList => "list"
  | PDict => "dict"
  end.

(** The exception of a comparison [l <= r] between operands of the
    types named, neither of which knows how to compare with the other. *)
Definition type_error (l r : string) : exn :=
  mk_exn TypeError
         ("'<=' not supported between instances of '" ++ l ++ "' and '" ++ r ++ "'").
(** The exception of [x.a] on an object of the type named. *)
Definition no_attribute (ty a : string) : exn :=
  mk_exn AttributeError ("'" ++ ty ++ "' object has no attribute '" ++ a ++ "'").

(** [n <= x] for an int literal [n]. *)
Definition py_int_le (n : Z) (x : pyval) : M World bool :=
  match x with
  | PBool b => ret (n <=? Z.b2z b)
  | PInt z => ret (n <=? z)
  | PFloat (FFin q) => ret (Qle_bool (inject_Z n) q)
  | PFloat FNan => ret false
  | PFloat (FInf negative) => ret (negb negative)
  | PNone | PStr _ | PList | PDict => raise (type_error "int" (type_name x))
  end.

(** [x <= n] for an int literal [n]. *)
Definition py_le_int (x : pyval) (n : Z) : M World bool :=
  match x with
  | PBool b => ret (Z.b2z b <=? n)
  | PInt z => ret (z <=? n)
  | PFloat (FFin q) => ret (Qle_bool q (inject_Z n))
  | PFloat FNan => ret false
  | PFloat (FInf negative) => ret negative
  | PNone | PStr _ | PList | PDict => raise (type_error (type_name x) "int")
  end.

(** The chained comparison [lo <= x <= hi]: the second test is made only
    when the first holds. *)
Definition py_between (lo : Z) (x : pyval) (hi : Z) : M World bool :=
  l <- py_int_le lo x ;;
  if l then py_le_int x hi else ret false.

(** [x.upper()] *)
Definition py_upper (x : pyval) : M World string :=
  match x with
  | PStr s => ret (str_upper s)
  | _ => raise (no_attribute (type_name x) "upper")
  end.

Definition validate_config_raw (config : RawConfig) : M World RawConfig :=
  (* Validate sample_rate *)
  config <-
    (if negb (py_in_ints (raw_sample_rate config) valid_sample_rates) then
       warning (InvalidSampleRate (raw_sample_rate config)
                                  (PInt (sample_rate defaults))) ;;
       ret (raw_set_sample_rate config (PInt (sample_rate defaults)))
     else ret config) ;;
  (* Validate buffer_size (block_size) *)
  ok <- py_between 512 (raw_block_size config) 4096 ;;
  config <-
    (if negb ok then
       warning (InvalidBlockSize (raw_block_size config)
                                 (PInt (block_size defaults))) ;;
       ret (raw_set_block_size config (PInt (block_size defaults)))
     else ret config) ;;
  (* Validate log_level *)
  up <- py_upper (raw_log_level config) ;;
  config <-
    (if negb (str_in up valid_levels) then
       warning (InvalidLogLevel (raw_log_level config)
                                (PStr (log_level defaults))) ;;
       ret (raw_set_log_level config (PStr (log_level defaults)))
     else
       up' <- py_upper (raw_log_level config) ;;
       ret (raw_set_log_level config (PStr up'))) ;;
  (* Validate ports *)
  ok <- py_between 1 (raw_http_port config) 65535 ;;
  config <-
    (if negb ok then ret (raw_set_http_port config (PInt (http_port defaults)))
     else ret config) ;;
  ok <- py_between 1 (raw_ws_port config) 65535 ;;
  config <-
    (if negb ok then ret (raw_set_ws_port config (PInt (ws_port defaults)))
     else ret config) ;;
  ret config.

(** *** [load_config] *)

(** What [json.load] returns for the whole file: an object with its
    members in file order, or some other JSON value. *)
Inductive json_document :=
| JObject (members : list (string * pyval))
| JOther (v : pyval).

(** The file system as [load_config] meets it. *)
Record FileSystem := mkFileSystem {
  path_exists : string -> bool;                (* Path(path).exists() *)
  write_text : string -> option exn;           (* config_path.write_text(...) *)
  read_json : string -> exn + json_document    (* open(...) and json.load(f) *)
}.

(** The [ServerConfig] built from the keyword arguments
    [{k: v for k, v in data.items() if k in ServerConfig.__dataclass_fields__}]:
    fields named in the file take
    the file's value, a repeated member keeps its last value (as in the
    dict [json.load] builds), other fields keep their defaults and
    unknown keys are dropped. *)
Definition set_field (c : RawConfig) (kv : string * pyval) : RawConfig :=
  let (k, v) := kv in
  if (k =? "http_port")%string then raw_set_http_port c v
  else if (k =? "ws_port")%string then raw_set_ws_port c v
  else if (k =? "sample_rate")%string then raw_set_sample_rate c v
  else if (k =? "channels")%string then raw_set_channels c v
  else if (k =? "block_size")%string then raw_set_block_size c v
  else if (k =? "log_level")%string then raw_set_log_level c v
  else if (k =? "max_reconnect_attempts")%string then raw_set_max_reconnect_attempts c v
  else if (k =? "client_timeout_seconds")%string then raw_set_client_timeout_seconds c v
  else c.

Definition from_members (members : list (string * pyval)) : RawConfig :=
  fold_left set_field members (to_raw defaults).

Variable fs : FileSystem.

Definition load_config (path : string) : M World RawConfig :=
  if negb (path_exists fs path) then
    (* Create template config file with defaults *)
    outcome (write_text fs path) ;;
    modify (fun w => mkWorld (root_logger w) (written w ++ [(path, defaults)])) ;;
    ret (to_raw defaults)
  else
    try_except
      (data <- match read_json fs path with
               | inl e => raise e
               | inr d => ret d
               end ;;
       members <- match data with
                  | JObject members => ret members
                  | JOther v => raise (no_attribute (type_name v) "items")
                  end ;;
       validate_config_raw (from_members members))
      (fun e =>
         if exn_class_eqb (exn_cls e) JSONDecodeError then
           warning (InvalidJson e) ;; ret (to_raw defaults)
         else
           warning (LoadError e) ;; ret (to_raw defaults)).

End Validate.

(** The CaptureConfig invariant of a typed configuration. *)
Definition capture_invariant (c : ServerConfig) : Prop :=
  In (sample_rate c) valid_sample_rates /\ 512 <= block_size c <= 4096.

(** The numeric value of a Python number. *)
Definition num_value (x : pyval) : option Q :=
  match x with
  | PBool b => Some (inject_Z (Z.b2z b))
  | PInt z => Some (inject_Z z)
  | PFloat (FFin q) => Some q
  | _ => None
  end.

(** The same invariant on unchecked values: the field is a number whose
    value is one of the rates, respectively lies in the range. *)
Definition rate_ok (c : RawConfig) : Prop :=
  exists q r, num_value (raw_sample_rate c) = Some q /\
              In r valid_sample_rates /\ (q == inject_Z r)%Q.
Definition block_ok (c : RawConfig) : Prop :=
  exists q, num_value (raw_block_size c) = Some q /\
            (inject_Z 512 <= q)%Q /\ (q <= inject_Z 4096)%Q.
Definition raw_capture_invariant (c : RawConfig) : Prop :=
  rate_ok c /\ block_ok c.

End Config.

(* ================================================================== *)
(** ** Python dicts keyed by strings *)
(* ================================================================== *)

(** A dict is kept as the list of its items in insertion order, which is
    the order Python iterates it in.  Assigning to a key that is present
    replaces the value in place; a new key goes to the end. *)
Module Dict.
Section Dict.
Context {V : Type}.

Definition t : Type := list (string * V).

Definition empty : t := [].

(** [d.get(k)] *)
Fixpoint get (d : t) (k : string) : option V :=
  match d with
  | [] => None
  | (k', v) :: d' => if (k' =? k)%string then Some v else get d' k
  end.

(** [k in d] *)
Definition contains (d : t) (k : string) : bool :=
  match get d k with Some _ => true | None => false end.

(** [d[k] = v] *)
Fixpoint set (d : t) (k : string) (v : V) : t :=
  match d with
  | [] => [(k, v)]
  | (k', v') :: d' =>
      if (k' =? k)%string then (k, v) :: d' else (k', v') :: set d' k v
  end.

(** [del d[k]], used only under the test [k in d]. *)
Fixpoint del (d : t) (k : string) : t :=
  match d with
  | [] => []
  | (k', v') :: d' =>
      if (k' =? k)%string then d' else (k', v') :: del d' k
  end.

(** A mutation of the object stored under [k], through a reference to
    it: the dict keeps its keys and their order. *)
Fixpoint update (d : t) (k : string) (f : V -> V) : t :=
  match d with
  | [] => []
  | (k', v') :: d' =>
      if (k' =? k)%string then (k', f v') :: d' else (k', v') :: update d' k f
  end.

Definition items (d : t) : list (string * V) := d.
Definition keys (d : t) : list string := map fst d.
Definition values (d : t) : list V := map snd d.

(** [len(d)] *)
Definition len (d : t) : Z := Z.of_nat (List.length d).

(** Keys of a dict are unique. *)
Definition wf (d : t) : Prop := NoDup (keys d).

End Dict.
Arguments t V : clear implicits.
End Dict.

(* ================================================================== *)
(** ** src/connection_manager.py *)
(* ================================================================== *)

Module ConnectionManager.
Import Py.

(** A [websockets.WebSocketServerProtocol]: the connection object (told
    apart by [ws_id]) and the [remote_address] it reports. *)
Record WebSocket := mkWebSocket {
  ws_id : nat;
  remote_host : string;    (* remote_address[0] *)
  remote_port : Z          (* remote_address[1] *)
}.

(** [@dataclass class ClientInfo]; timestamps are clock readings. *)
Record ClientInfo := mkClientInfo {
  websocket : WebSocket;
  connected_at : Z;
  last_activity : Z;
  address : string;
  packets_sent : Z
}.

Definition set_packets_sent (c : ClientInfo) (v : Z) : ClientInfo :=
  mkClientInfo (websocket c) (connected_at c) (last_activity c) (address c) v.
Definition set_last_activity (c : ClientInfo) (v : Z) : ClientInfo :=
  mkClientInfo (websocket c) (connected_at c) v (address c) (packets_sent c).

(** Records of [self.logger], one constructor per message template. *)
Inductive LogRecord :=
| ClientConnected (client_id : string)             (* info  "Client connected: {}" *)
| ClientDisconnected (client_id : string)          (* info  "Client disconnected: {}" *)
| FailedToSend (client_id : string) (e : exn)      (* debug "Failed to send to {}: {}" *)
| ClosingAll (reason : string)                     (* info  "Closing all connections: {}" *)
| ErrorClosing (client_id : string) (e : exn).     (* debug "Error closing {}: {}" *)

(** Calls made on transports, in the order they are made. *)
Inductive WireCall :=
| CallSend (ws : WebSocket) (data : list byte)              (* await ws.send(data) *)
| CallClose (ws : WebSocket) (code : Z) (reason : string).  (* await ws.close(code, reason) *)

(** The fields of a [ConnectionManager] ([clients], [logger],
    [total_served]) and, next to them, what it acts on outside itself:
    the number of clock readings taken so far and the transport calls. *)
Record State := mkState {
  clients : Dict.t ClientInfo;
  logger : list LogRecord;
  total_served : Z;
  clock_reads : nat;
  wire : list WireCall
}.

(** [ConnectionManager(logger)] with nothing yet logged or sent. *)
Definition __init__ : State :=
  mkState Dict.empty [] 0 0%nat [].

Definition set_clients (f : Dict.t ClientInfo -> Dict.t ClientInfo) : M State unit :=
  modify (fun s => mkState (f (clients s)) (logger s) (total_served s)
                           (clock_reads s) (wire s)).
Definition log (r : LogRecord) : M State unit :=
  modify (fun s => mkState (clients s) (logger s ++ [r]) (total_served s)
                           (clock_reads s) (wire s)).
Definition incr_total_served : M State unit :=
  modify (fun s => mkState (clients s) (logger s) (total_served s + 1)
                           (clock_reads s) (wire s)).
Definition record_call (c : WireCall) : M State unit :=
  modify (fun s => mkState (clients s) (logger s) (total_served s)
                           (clock_reads s) (wire s ++ [c])).

(** [get_stats()] returns this dictionary. *)
Record ClientStats := mkClientStats {
  stat_address : string;
  stat_connected_at : Z;
  stat_packets_sent : Z
}.
Record Stats := mkStats {
  connected : Z;
  stats_total_served : Z;
  stats_clients : list ClientStats
}.

Section Methods.
(** The outside world during the calls: the instant the n-th reading of
    the clock returns, and whether a send or a close on a transport
    raises. *)
Variable wall_clock : nat -> Z.
Variable send_result : WebSocket -> list byte -> option exn.
Variable close_result : WebSocket -> Z -> string -> option exn.

(** [datetime.now()] *)
Definition now : M State Z :=
  fun s => (Ret (wall_clock (clock_reads s)),
            mkState (clients s) (logger s) (total_served s)
                    (Datatypes.S (clock_reads s)) (wire s)).

(** [await websocket.send(data)] *)
Definition ws_send (ws : WebSocket) (data : list byte) : M State unit :=
  record_call (CallSend ws data) ;;
  outcome (send_result ws data).

(** [await websocket.close(code, reason)] *)
Definition ws_close (ws : WebSocket) (code : Z) (reason : string) : M State unit :=
  record_call (CallClose ws code reason) ;;
  outcome (close_result ws code reason).

(** [f"{websocket.remote_address[0]}:{websocket.remote_address[1]}"] *)
Definition client_id_of (ws : WebSocket) : string :=
  remote_host ws ++ ":" ++ str_of_int (remote_port ws).

Definition add_client (websocket : WebSocket) : M State string :=
  let client_id := client_id_of websocket in
  now_ <- now ;;
  set_clients (fun d =>
    Dict.set d client_id
      {| websocket := websocket;
         connected_at := now_;
         last_activity := now_;
         address := client_id;
         packets_sent := 0 |}) ;;
  incr_total_served ;;
  log (ClientConnected client_id) ;;
  ret client_id.

Definition remove_client (client_id : string) : M State unit :=
  present <- gets (fun s => Dict.contains (clients s) client_id) ;;
  if present then
    set_clients (fun d => Dict.del d client_id) ;;
    log (ClientDisconnected client_id)
  else ret tt.

Definition get_active_clients : M State (list ClientInfo) :=
  gets (fun s => Dict.values (clients s)).

Definition get_stats : M State Stats :=
  gets (fun s =>
    {| connected := Dict.len (clients s);
       stats_total_served := total_served s;
       stats_clients :=
         map (fun c => mkClientStats (address c) (connected_at c) (packets_sent c))
             (Dict.values (clients s)) |}).

(** The body of the first loop of [broadcast], for the item the loop
    variables [client_id, client_info] are bound to.  The [ClientInfo] is
    the object stored in the dict, so its counters are updated there.
    [failed_clients] is the list collected so far. *)
Definition sweep_body (data : list byte) (failed_clients : list string)
           (item : string * ClientInfo) : M State (list string) :=
  let '(client_id, client_info) := item in
  try_except
    (ws_send (websocket client_info) data ;;
     set_clients (fun d =>
       Dict.update d client_id
         (fun c => set_packets_sent c (packets_sent c + 1))) ;;
     t <- now ;;
     set_clients (fun d =>
       Dict.update d client_id (fun c => set_last_activity c t)) ;;
     ret failed_clients)
    (fun e =>
       log (FailedToSend client_id e) ;;
       ret (failed_clients ++ [client_id])%list).

(** The first loop of [broadcast]: one send per registered client.
    Returns [failed_clients]. *)
Definition broadcast_sweep (data : list byte) : M State (list string) :=
  items <- gets (fun s => Dict.items (clients s)) ;;
  for_fold items ([] : list string) (sweep_body data).

Definition broadcast (data : list byte) : M State unit :=
  failed_clients <- broadcast_sweep data ;;
  (* Remove failed clients *)
  for_each failed_clients remove_client.

Definition close_all (reason : string) : M State unit :=
  log (ClosingAll reason) ;;
  items <- gets (fun s => Dict.items (clients s)) ;;
  for_each items
    (fun item =>
       let '(client_id, client_info) := item in
       try_except
         (ws_close (websocket client_info) 1001 reason)
         (fun e => log (ErrorClosing client_id e))) ;;
  set_clients (fun _ => Dict.empty).

End Methods.

(** *** Vocabulary for the statements about the registry *)

(** [connected_count]: the number of registered sessions. *)
Definition connected_count (s : State) : Z := Dict.len (clients s).

(** The operations of the registry, as one type, with the arguments of
    each call and the world it runs in. *)
Inductive Op :=
| OpAddClient (wall_clock : nat -> Z) (websocket : WebSocket)
| OpRemoveClient (client_id : string)
| OpGetActiveClients
| OpGetStats
| OpBroadcast (wall_clock : nat -> Z)
              (send_result : WebSocket -> list byte -> option exn) (data : list byte)
| OpCloseAll (close_result : WebSocket -> Z -> string -> option exn) (reason : string).

(** The state an operation leaves. *)
Definition state_after (op : Op) (s : State) : State :=
  match op with
  | OpAddClient wall_clock websocket => snd (add_client wall_clock websocket s)
  | OpRemoveClient client_id => snd (remove_client client_id s)
  | OpGetActiveClients => snd (get_active_clients s)
  | OpGetStats => snd (get_stats s)
  | OpBroadcast wall_clock send_result data => snd (broadcast wall_clock send_result data s)
  | OpCloseAll close_result reason => snd (close_all close_result reason s)
  end.

(** What one sweep of [broadcast] does to the items of the registry,
    written as a function of the items: a session whose send succeeds
    gets its counter raised and the next clock reading as last activity,
    a session whose send fails is left as it is.  [n] is the number of
    clock readings taken before the sweep reaches the items. *)
Section Sweep.
Variable wall_clock : nat -> Z.
Variable send_result : WebSocket -> list byte -> option exn.
Variable data : list byte.

Fixpoint swept (items : list (string * ClientInfo)) (n : nat)
  : list (string * ClientInfo) :=
  match items with
  | [] => []
  | (client_id, c) :: rest =>
      match send_result (websocket c) data with
      | None =>
          (client_id,
           mkClientInfo (websocket c) (connected_at c) (wall_clock n)
                        (address c) (packets_sent c + 1)) :: swept rest (S n)
      | Some _ => (client_id, c) :: swept rest n
      end
  end.

(** The identities whose send fails, in registry order. *)
Fixpoint failed_of (items : list (string * ClientInfo)) : list string :=
  match items with
  | [] => []
  | (client_id, c) :: rest =>
      match send_result (websocket c) data with
      | None => failed_of rest
      | Some _ => client_id :: failed_of rest
      end
  end.
End Sweep.

End ConnectionManager.

(* ================================================================== *)
(** ** src/audio_capture.py *)
(* ================================================================== *)

Module AudioCapture.
Import Py.

(** An entry of [sd.query_devices()]. *)
Record DeviceInfo := mkDeviceInfo {
  name : string;
  max_input_channels : Z;
  max_output_channels : Z
}.

(** [sd.WasapiSettings(loopback=...)] *)
Record WasapiSettings := mkWasapiSettings { loopback : bool }.

(** The arguments of [sd.InputStream(...)]. *)
Record StreamParams := mkStreamParams {
  device : nat;
  samplerate : Z;
  stream_channels : Z;
  blocksize : Z;
  dtype : string;
  extra_settings : option WasapiSettings
}.

(** An [sd.InputStream] object: what it was opened with and whether it
    has been started. *)
Record InputStream := mkInputStream {
  params : StreamParams;
  active : bool
}.

(** The array [stream.read] returns: one row per frame, one int16 sample
    per channel. *)
Definition ndarray : Type := list (list Z).

(** The sounddevice library and the audio system behind it.  A call that
    can fail answers with the exception it raises. *)
Record SoundDevice := mkSoundDevice {
  query_devices : list DeviceInfo;            (* sd.query_devices() *)
  wasapi_settings : option exn;               (* sd.WasapiSettings(loopback=True) *)
  open_stream : StreamParams -> option exn;   (* sd.InputStream(...) *)
  start_stream : StreamParams -> option exn;  (* stream.start() *)
  query_device : nat -> exn + DeviceInfo;     (* sd.query_devices(idx) *)
  read_stream : StreamParams -> Z -> exn + (nat -> nat -> Z);
                                              (* stream.read(frames): sample of frame i, channel c *)
  stop_stream : StreamParams -> option exn;   (* stream.stop() *)
  close_stream : StreamParams -> option exn   (* stream.close() *)
}.

(** Calls made into sounddevice, in the order they are made. *)
Inductive SdCall :=
| CallQueryDevices
| CallWasapiSettings
| CallInputStream (p : StreamParams)
| CallStart (p : StreamParams)
| CallQueryDevice (idx : nat)
| CallRead (p : StreamParams) (frames : Z)
| CallStop (p : StreamParams)
| CallClose (p : StreamParams).

(** Records of [self.logger], one constructor per message template. *)
Inductive LogRecord :=
| AvailableDevices                                    (* debug "Available audio devices:" *)
| DeviceLine (i : nat) (d : DeviceInfo)               (* debug "  {i}: {name} | out: {} in: {}" *)
| TryingWasapi (idx : nat)                            (* debug "Trying WASAPI loopback on device {}" *)
| WasapiSuccess (idx : nat) (device_name : string)    (* info  "WASAPI loopback success on device {}: {}" *)
| WasapiFailed (idx : nat) (e : exn)                  (* debug "WASAPI failed on device {}: {}" *)
| TryingFallback                                      (* info  "WASAPI loopback failed, trying Stereo Mix fallback" *)
| TryingStereoMix (idx : nat)                         (* debug "Trying Stereo Mix on device {}" *)
| StereoMixSuccess (idx : nat) (device_name : string) (* info  "Stereo Mix success on device {}: {}" *)
| StereoMixFailed (idx : nat) (e : exn)               (* debug "Stereo Mix failed on device {}: {}" *)
| NoAudioSource                                       (* error "No audio source found. ..." *)
| ReadError (e : exn)                                 (* error "Error reading audio block: {}" *)
| StopError (e : exn)                                 (* warning "Error stopping audio stream: {}" *)
| Stopped                                             (* info  "Audio capture stopped" *)
| Reinitializing.                                     (* info  "Attempting to reinitialize audio capture" *)

(** The fields of an [AudioCapture] and, last, the calls it has made
    into sounddevice. *)
Record State := mkState {
  config : Config.ServerConfig;
  logger : list LogRecord;
  stream : option InputStream;
  is_running : bool;
  device_name : string;
  sd_calls : list SdCall
}.

(** [AudioCapture(config, logger)] *)
Definition __init__ (config : Config.ServerConfig) : State :=
  {| config := config; logger := []; stream := None;
     is_running := false; device_name := "Unknown"; sd_calls := [] |}.

Definition log (r : LogRecord) : M State unit :=
  modify (fun s => mkState (config s) (logger s ++ [r]) (stream s)
                           (is_running s) (device_name s) (sd_calls s)).
Definition set_stream (v : option InputStream) : M State unit :=
  modify (fun s => mkState (config s) (logger s) v
                           (is_running s) (device_name s) (sd_calls s)).
Definition set_is_running (v : bool) : M State unit :=
  modify (fun s => mkState (config s) (logger s) (stream s)
                           v (device_name s) (sd_calls s)).
Definition set_device_name (v : string) : M State unit :=
  modify (fun s => mkState (config s) (logger s) (stream s)
                           (is_running s) v (sd_calls s)).
Definition record_call (c : SdCall) : M State unit :=
  modify (fun s => mkState (config s) (logger s) (stream s)
                           (is_running s) (device_name s) (sd_calls s ++ [c])).

(** [p in s] for strings. *)
Fixpoint str_contains (p s : string) : bool :=
  String.prefix p s ||
  match s with
  | EmptyString => false
  | String _ s' => str_contains p s'
  end.

(** [enumerate(devices)] *)
Definition enumerate {A} (l : list A) : list (nat * A) :=
  combine (seq 0 (List.length l)) l.

(** The two little-endian bytes of an int16 sample. *)
Definition byte_of_Z (z : Z) : byte :=
  match Byte.of_N (Z.to_N (Z.land z 255)) with
  | Some b => b
  | None => x00
  end.
Definition int16_bytes (z : Z) : list byte :=
  [byte_of_Z z; byte_of_Z (Z.shiftr z 8)].

(** [frames.tobytes()]: the samples in row-major order. *)
Definition tobytes (frames : ndarray) : list byte :=
  flat_map (fun row => flat_map int16_bytes row) frames.

(** [get_device_info()] returns this dictionary. *)
Record DeviceSnapshot := mkDeviceSnapshot {
  info_device : string;
  info_sample_rate : Z;
  info_channels : Z;
  info_is_running : bool
}.

Section Methods.
Variable sd : SoundDevice.
(** [str.lower], left to the interpreter. *)
Variable str_lower : string -> string.

(** [sd.InputStream(...)]: a new stream object, not yet started. *)
Definition sd_InputStream (p : StreamParams) : M State InputStream :=
  record_call (CallInputStream p) ;;
  outcome (open_stream sd p) ;;
  ret (mkInputStream p false).

(** [self.stream.start()] *)
Definition stream_start : M State unit :=
  s <- get ;;
  match stream s with
  | Some st =>
      record_call (CallStart (params st)) ;;
      outcome (start_stream sd (params st)) ;;
      set_stream (Some (mkInputStream (params st) true))
  | None => raise (mk_exn AttributeError "'NoneType' object has no attribute 'start'")
  end.

(** [sd.query_devices(idx)] *)
Definition sd_query_device (idx : nat) : M State DeviceInfo :=
  record_call (CallQueryDevice idx) ;;
  match query_device sd idx with
  | inl e => raise e
  | inr d => ret d
  end.

(** [stream.read(frames)]: an array of [frames] rows and as many columns
    as the stream has channels (the overflow flag is dropped by the
    caller). *)
Definition stream_read (st : InputStream) (frames : Z) : M State ndarray :=
  record_call (CallRead (params st) frames) ;;
  match read_stream sd (params st) frames with
  | inl e => raise e
  | inr sample =>
      ret (map (fun i => map (sample i)
                             (seq 0 (Z.to_nat (stream_channels (params st)))))
               (seq 0 (Z.to_nat frames)))
  end.

Definition _list_devices : M State (list DeviceInfo) :=
  record_call CallQueryDevices ;;
  let devices := query_devices sd in
  log AvailableDevices ;;
  for_each (enumerate devices) (fun id => log (DeviceLine (fst id) (snd id))) ;;
  ret devices.

Definition _try_wasapi (idx : nat) : M State bool :=
  try_except
    (log (TryingWasapi idx) ;;
     ws <- try_except_cls AttributeError
             (record_call CallWasapiSettings ;;
              outcome (wasapi_settings sd) ;;
              ret (Some (mkWasapiSettings true)))
             (fun _ => ret None) ;;
     cfg <- gets config ;;
     st <- sd_InputStream
             {| device := idx;
                samplerate := Config.sample_rate cfg;
                stream_channels := Config.channels cfg;
                blocksize := Config.block_size cfg;
                dtype := "int16";
                extra_settings := ws |} ;;
     set_stream (Some st) ;;
     stream_start ;;
     device_info <- sd_query_device idx ;;
     set_device_name (name device_info) ;;
     log (WasapiSuccess idx (name device_info)) ;;
     ret true)
    (fun e =>
       log (WasapiFailed idx e) ;;
       ret false).

Definition _try_stereo_mix (candidates : list nat) : M State bool :=
  r <- for_return candidates
         (fun idx =>
            try_except
              (log (TryingStereoMix idx) ;;
               cfg <- gets config ;;
               st <- sd_InputStream
                       {| device := idx;
                          samplerate := Config.sample_rate cfg;
                          stream_channels := Config.channels cfg;
                          blocksize := Config.block_size cfg;
                          dtype := "int16";
                          extra_settings := None |} ;;
               set_stream (Some st) ;;
               stream_start ;;
               device_info <- sd_query_device idx ;;
               set_device_name (name device_info) ;;
               log (StereoMixSuccess idx (name device_info)) ;;
               ret (Some true))
              (fun e =>
                 log (StereoMixFailed idx e) ;;
                 ret None)) ;;
  match r with
  | Some b => ret b
  | None => ret false
  end.

Definition out_candidates (devices : list DeviceInfo) : list nat :=
  map fst (filter (fun id => 0 <? max_output_channels (snd id)) (enumerate devices)).

Definition stereo_candidates (devices : list DeviceInfo) : list nat :=
  map fst (filter (fun id => str_contains "stereo" (str_lower (name (snd id)))
                             || (0 <? max_input_channels (snd id)))
                  (enumerate devices)).

Definition initialize : M State bool :=
  devices <- _list_devices ;;
  (* Try WASAPI loopback first *)
  r <- for_return (out_candidates devices)
         (fun idx =>
            ok <- _try_wasapi idx ;;
            if ok then set_is_running true ;; ret (Some true)
            else ret None) ;;
  match r with
  | Some b => ret b
  | None =>
      (* Fall back to Stereo Mix *)
      log TryingFallback ;;
      ok <- _try_stereo_mix (stereo_candidates devices) ;;
      if ok then set_is_running true ;; ret true
      else log NoAudioSource ;; ret false
  end.

Definition read_block : M State (option (list byte)) :=
  s <- get ;;
  match stream s with
  | None => ret None
  | Some st =>
      if negb (is_running s) then ret None
      else
        try_except
          (frames <- stream_read st (Config.block_size (config s)) ;;
           ret (Some (tobytes frames)))
          (fun e =>
             log (ReadError e) ;;
             ret None)
  end.

Definition stop : M State unit :=
  s <- get ;;
  match stream s with
  | Some st =>
      try_finally
        (try_except
           (record_call (CallStop (params st)) ;;
            outcome (stop_stream sd (params st)) ;;
            record_call (CallClose (params st)) ;;
            outcome (close_stream sd (params st)))
           (fun e => log (StopError e)))
        (set_stream None ;;
         set_is_running false)
  | None => ret tt
  end ;;
  log Stopped.

Definition reinitialize : M State bool :=
  log Reinitializing ;;
  stop ;;
  initialize.

Definition get_device_info : M State DeviceSnapshot :=
  gets (fun s =>
    {| info_device := device_name s;
       info_sample_rate := Config.sample_rate (config s);
       info_channels := Config.channels (config s);
       info_is_running := is_running s |}).

End Methods.

(** *** Vocabulary for the statements about device discovery *)

(** The two ways [initialize] opens a device. *)
Inductive Strategy := Loopback | Plain.

(** A candidate: a device index under a strategy. *)
Definition Candidate : Type := (Strategy * nat)%type.

(** How the probe of one candidate ends. *)
Inductive ProbeResult :=
| FailSettings (e : exn)                     (* sd.WasapiSettings raised, and not AttributeError *)
| FailOpen (p : StreamParams) (e : exn)      (* sd.InputStream raised *)
| FailStart (p : StreamParams) (e : exn)     (* stream.start() raised *)
| FailQuery (p : StreamParams) (e : exn)     (* sd.query_devices(idx) raised *)
| ProbeOk (p : StreamParams) (d : DeviceInfo).

Section Probes.
Variable sd : SoundDevice.
Variable str_lower : string -> string.

Definition stream_params (cfg : Config.ServerConfig) (idx : nat)
           (ws : option WasapiSettings) : StreamParams :=
  {| device := idx;
     samplerate := Config.sample_rate cfg;
     stream_channels := Config.channels cfg;
     blocksize := Config.block_size cfg;
     dtype := "int16";
     extra_settings := ws |}.

Definition probe_stream (p : StreamParams) : ProbeResult :=
  match open_stream sd p with
  | Some e => FailOpen p e
  | None =>
      match start_stream sd p with
      | Some e => FailStart p e
      | None =>
          match query_device sd (device p) with
          | inl e => FailQuery p e
          | inr d => ProbeOk p d
          end
      end
  end.

Definition probe (cfg : Config.ServerConfig) (c : Candidate) : ProbeResult :=
  match fst c with
  | Loopback =>
      match wasapi_settings sd with
      | None => probe_stream (stream_params cfg (snd c) (Some (mkWasapiSettings true)))
      | Some e =>
          if exn_class_eqb (exn_cls e) AttributeError
          then probe_stream (stream_params cfg (snd c) None)
          else FailSettings e
      end
  | Plain => probe_stream (stream_params cfg (snd c) None)
  end.

(** The candidate succeeds: its probe returns [True]. *)
Definition succeeds (cfg : Config.ServerConfig) (c : Candidate) : bool :=
  match probe cfg c with
  | ProbeOk _ _ => true
  | _ => false
  end.


(** The probe fails before a stream object exists. *)
Definition fails_unopened (cfg : Config.ServerConfig) (c : Candidate) : bool :=
  match probe cfg c with
  | FailSettings _ | FailOpen _ _ => true
  | _ => false
  end.

(** The candidates of [initialize] in the order it goes through them. *)
Definition candidates : list Candidate :=
  (map (pair Loopback) (out_candidates (query_devices sd)) ++
   map (pair Plain) (stereo_candidates str_lower (query_devices sd)))%list.

(** What a probe leaves in [self.stream], given what was there. *)
Definition handle_after_probe (r : ProbeResult) (h : option InputStream)
  : option InputStream :=
  match r with
  | FailSettings _ | FailOpen _ _ => h
  | FailStart p _ => Some (mkInputStream p false)
  | FailQuery p _ | ProbeOk p _ => Some (mkInputStream p true)
  end.

Definition handle_after (cfg : Config.ServerConfig) (cs : list Candidate)
           (h : option InputStream) : option InputStream :=
  fold_left (fun h c => handle_after_probe (probe cfg c) h) cs h.

End Probes.

(** The probes a stretch of the log records, in order. *)
Definition probes_logged (l : list LogRecord) : list Candidate :=
  flat_map (fun r =>
              match r with
              | TryingWasapi idx => [(Loopback, idx)]
              | TryingStereoMix idx => [(Plain, idx)]
              | _ => []
              end) l.

(** The name a probe leaves in [self.device_name]. *)
Definition name_after_probe (r : ProbeResult) (n : string) : string :=
  match r with
  | ProbeOk _ d => name d
  | _ => n
  end.

(** What the probe of the candidate [c] makes of the state, whichever
    way it ends; [sets_running] tells whether the loop body raises the
    running flag itself on success. *)
Definition probe_effect (sd : SoundDevice) (c : Candidate) (sets_running : bool)
           (s s' : State) : Prop :=
  config s' = config s /\
  stream s' = handle_after_probe (probe sd (config s) c) (stream s) /\
  device_name s' = name_after_probe (probe sd (config s) c) (device_name s) /\
  is_running s' =
    (if succeeds sd (config s) c && sets_running then true else is_running s) /\
  exists new_log,
    logger s' = (logger s ++ new_log)%list /\ probes_logged new_log = [c].

(** A running capture holds a stream. *)
Definition consistent (s : State) : Prop :=
  is_running s = true -> stream s <> None.

(** The states an [AudioCapture] object goes through: it is constructed
    and then only its methods act on it, in whatever environment. *)
Inductive reachable : State -> Prop :=
| reach_init (cfg : Config.ServerConfig) :
    reachable (__init__ cfg)
| reach_initialize sd str_lower s :
    reachable s -> reachable (snd (initialize sd str_lower s))
| reach_read_block sd s :
    reachable s -> reachable (snd (read_block sd s))
| reach_stop sd s :
    reachable s -> reachable (snd (stop sd s))
| reach_reinitialize sd str_lower s :
    reachable s -> reachable (snd (reinitialize sd str_lower s)).

End AudioCapture.

(* ================================================================== *)
(** ** Concrete inputs used by the examples below *)
(* ================================================================== *)

Module Fixtures.
Import Py.

(** Upper and lower case on ASCII letters; other characters are kept. *)
Definition ascii_upper_char (c : ascii) : ascii :=
  let n := nat_of_ascii c in
  if ((97 <=? n) && (n <=? 122))%nat then ascii_of_nat (n - 32) else c.
Definition ascii_lower_char (c : ascii) : ascii :=
  let n := nat_of_ascii c in
  if ((65 <=? n) && (n <=? 90))%nat then ascii_of_nat (n + 32) else c.
Fixpoint map_string (f : ascii -> ascii) (s : string) : string :=
  match s with
  | EmptyString => EmptyString
  | String c s' => String (f c) (map_string f s')
  end.
Definition ascii_upper : string -> string := map_string ascii_upper_char.
Definition ascii_lower : string -> string := map_string ascii_lower_char.

(** A clock that returns 1000, 1001, ... *)
Definition clock (n : nat) : Z := 1000 + Z.of_nat n.

Definition broken_pipe : exn := mk_exn ConnectionClosed "connection closed".
Definition device_busy : exn := mk_exn PortAudioError "device unavailable".

(** Three connections from distinct peers, and a second connection that
    reports the address of the first. *)
Definition alice : ConnectionManager.WebSocket :=
  ConnectionManager.mkWebSocket 1 "192.168.1.10" 50001.
Definition bob : ConnectionManager.WebSocket :=
  ConnectionManager.mkWebSocket 2 "192.168.1.11" 50002.
Definition carol : ConnectionManager.WebSocket :=
  ConnectionManager.mkWebSocket 3 "192.168.1.12" 50003.
Definition alice_again : ConnectionManager.WebSocket :=
  ConnectionManager.mkWebSocket 4 "192.168.1.10" 50001.

(** Sends to [bob] fail, every other send succeeds. *)
Definition bob_is_gone (ws : ConnectionManager.WebSocket) (data : list byte)
  : option exn :=
  if (ConnectionManager.ws_id ws =? 2)%nat then Some broken_pipe else None.

(** Every close fails. *)
Definition no_close (ws : ConnectionManager.WebSocket) (code : Z) (reason : string)
  : option exn := Some broken_pipe.

(** The registry after [alice], [bob] and [carol] have connected. *)
Definition three_clients : ConnectionManager.State :=
  snd ((ConnectionManager.add_client clock alice ;;
        ConnectionManager.add_client clock bob ;;
        ConnectionManager.add_client clock carol)
         ConnectionManager.__init__).

(** The registry with [alice] alone. *)
Definition one_client : ConnectionManager.State :=
  snd (ConnectionManager.add_client clock alice ConnectionManager.__init__).

Definition block_1234 : list byte := [x01; x02; x03; x04].

Definition speakers : AudioCapture.DeviceInfo :=
  AudioCapture.mkDeviceInfo "Speakers (Realtek Audio)" 0 2.
Definition stereo_mix : AudioCapture.DeviceInfo :=
  AudioCapture.mkDeviceInfo "Stereo Mix (Realtek Audio)" 2 0.


Definition nth_device (l : list AudioCapture.DeviceInfo) (idx : nat)
  : exn + AudioCapture.DeviceInfo :=
  match nth_error l idx with
  | Some d => inr d
  | None => inl (mk_exn ValueError "no such device")
  end.

(** A ramp as sample data. *)
Definition ramp (i c : nat) : Z := Z.of_nat (i + c).

(** A machine whose devices all open, start and read. *)
Definition healthy (devices : list AudioCapture.DeviceInfo) : AudioCapture.SoundDevice :=
  {| AudioCapture.query_devices := devices;
     AudioCapture.wasapi_settings := None;
     AudioCapture.open_stream := fun _ => None;
     AudioCapture.start_stream := fun _ => None;
     AudioCapture.query_device := nth_device devices;
     AudioCapture.read_stream := fun _ _ => inr ramp;
     AudioCapture.stop_stream := fun _ => None;
     AudioCapture.close_stream := fun _ => None |}.

(** A machine on which every stream opens but none starts. *)
Definition never_starts (devices : list AudioCapture.DeviceInfo) : AudioCapture.SoundDevice :=
  {| AudioCapture.query_devices := devices;
     AudioCapture.wasapi_settings := None;
     AudioCapture.open_stream := fun _ => None;
     AudioCapture.start_stream := fun _ => Some device_busy;
     AudioCapture.query_device := nth_device devices;
     AudioCapture.read_stream := fun _ _ => inl device_busy;
     AudioCapture.stop_stream := fun _ => None;
     AudioCapture.close_stream := fun _ => None |}.


(** A machine on which loopback capture is refused and plain capture
    works: only streams opened without extra settings open. *)
Definition no_loopback (devices : list AudioCapture.DeviceInfo) : AudioCapture.SoundDevice :=
  {| AudioCapture.query_devices := devices;
     AudioCapture.wasapi_settings := None;
     AudioCapture.open_stream := fun p =>
       match AudioCapture.extra_settings p with
       | Some _ => Some device_busy
       | None => None
       end;
     AudioCapture.start_stream := fun _ => None;
     AudioCapture.query_device := nth_device devices;
     AudioCapture.read_stream := fun _ _ => inr ramp;
     AudioCapture.stop_stream := fun _ => None;
     AudioCapture.close_stream := fun _ => None |}.

End Fixtures.


(* ================================================================== *)
(** ** src/ws_server.py *)
(* ================================================================== *)

Module WsServer.
Import Py.

(** The object [websockets.serve] returns. *)
Record WebSocketServer := mkWebSocketServer {
  bound_host : string;
  bound_port : Z;
  closed : bool
}.

(** Records of [self.logger], one constructor per message template. *)
Inductive LogRecord :=
| HandlerError (client_id : string) (e : exn)  (* debug "Client handler error for {}: {}" *)
| StartingLoop                                 (* info  "Starting audio broadcast loop" *)
| Started (host : string) (port : Z)           (* info  "WebSocket server started on ws://{}:{}" *)
| Stopping                                     (* info  "Stopping WebSocket server" *)
| ServerStopped.                               (* info  "WebSocket server stopped" *)

(** The fields of an [AudioWebSocketServer].  [audio_capture] and
    [connection_manager] are the objects it was given, so what it does
    to them is seen here; [broadcast_task] tells whether
    [_broadcast_task] holds a task. *)
Record State := mkState {
  config : Config.ServerConfig;
  audio_capture : AudioCapture.State;
  connection_manager : ConnectionManager.State;
  logger : list LogRecord;
  server : option WebSocketServer;
  is_running : bool;
  broadcast_task : bool
}.

(** [AudioWebSocketServer(config, audio_capture, connection_manager, logger)] *)
Definition __init__ (config : Config.ServerConfig)
           (audio_capture : AudioCapture.State)
           (connection_manager : ConnectionManager.State) : State :=
  {| config := config; audio_capture := audio_capture;
     connection_manager := connection_manager; logger := [];
     server := None; is_running := false; broadcast_task := false |}.

(** A method call on [self.audio_capture]. *)
Definition on_capture {A} (m : M AudioCapture.State A) : M State A :=
  fun s => let (r, a) := m (audio_capture s) in
           (r, mkState (config s) a (connection_manager s) (logger s)
                       (server s) (is_running s) (broadcast_task s)).

(** A method call on [self.connection_manager]. *)
Definition on_registry {A} (m : M ConnectionManager.State A) : M State A :=
  fun s => let (r, c) := m (connection_manager s) in
           (r, mkState (config s) (audio_capture s) c (logger s)
                       (server s) (is_running s) (broadcast_task s)).

Definition log (r : LogRecord) : M State unit :=
  modify (fun s => mkState (config s) (audio_capture s) (connection_manager s)
                           (logger s ++ [r]) (server s) (is_running s)
                           (broadcast_task s)).
Definition set_is_running (v : bool) : M State unit :=
  modify (fun s => mkState (config s) (audio_capture s) (connection_manager s)
                           (logger s) (server s) v (broadcast_task s)).
Definition set_server (v : option WebSocketServer) : M State unit :=
  modify (fun s => mkState (config s) (audio_capture s) (connection_manager s)
                           (logger s) v (is_running s) (broadcast_task s)).
Definition set_broadcast_task (v : bool) : M State unit :=
  modify (fun s => mkState (config s) (audio_capture s) (connection_manager s)
                           (logger s) (server s) (is_running s) v).

(** What the world does during one pass of the broadcast loop: how the
    audio library answers, what the clock shows and which sends fail. *)
Record Tick := mkTick {
  tick_sd : AudioCapture.SoundDevice;
  tick_clock : nat -> Z;
  tick_send : ConnectionManager.WebSocket -> list byte -> option exn
}.

(** [if data:] on an optional bytes object: [None] and [b""] are false. *)
Definition truthy (data : option (list byte)) : option (list byte) :=
  match data with
  | Some (b :: rest) => Some (b :: rest)
  | _ => None
  end.

(** The coroutine [handler] has one suspension point,
    [await asyncio.Future()], at which the rest of the program runs.  It
    is written as its two halves.  [handler_enter] is the part before the
    suspension; it returns the [client_id] the second half holds. *)
Definition handler_enter (wall_clock : nat -> Z)
           (websocket : ConnectionManager.WebSocket) : M State string :=
  on_registry (ConnectionManager.add_client wall_clock websocket).

(** The part of [handler] after the suspension: [ending] is [None] when
    the wait ended by cancellation and [Some e] when it raised [e]. *)
Definition handler_exit (client_id : string) (ending : option exn) : M State unit :=
  try_finally
    (match ending with
     | None => ret tt
     | Some e => log (HandlerError client_id e)
     end)
    (on_registry (ConnectionManager.remove_client client_id)).

(** One pass through the body of the [while] loop of [broadcast_loop]. *)
Definition loop_iteration (t : Tick) : M State unit :=
  data <- on_capture (AudioCapture.read_block (tick_sd t)) ;;
  match truthy data with
  | Some data =>
      on_registry (ConnectionManager.broadcast (tick_clock t) (tick_send t) data)
  | None => ret tt
  end.
  (* await asyncio.sleep(0) *)

(** The passes of the [while self.is_running] loop during the given
    ticks; the loop ends early when the flag is found down. *)
Fixpoint loop_iterations (ticks : list Tick) : M State unit :=
  match ticks with
  | [] => ret tt
  | t :: ticks' =>
      running <- gets is_running ;;
      if running then loop_iteration t ;; loop_iterations ticks'
      else ret tt
  end.

Definition broadcast_loop (ticks : list Tick) : M State unit :=
  log StartingLoop ;;
  loop_iterations ticks.

Section Methods.
(** The network during [start] and [stop]. *)
Variable serve_result : string -> Z -> option exn.   (* await websockets.serve(...) *)
Variable task_result : option exn.
  (* what [await self._broadcast_task] raises after [cancel()], other
     than the cancellation itself *)
Variable close_result : ConnectionManager.WebSocket -> Z -> string -> option exn.
Variable wait_closed_result : option exn.            (* await self.server.wait_closed() *)

Definition start (host : string) : M State unit :=
  set_is_running true ;;
  port <- gets (fun s => Config.ws_port (config s)) ;;
  outcome (serve_result host port) ;;
  set_server (Some (mkWebSocketServer host port false)) ;;
  log (Started host port) ;;
  (* Start broadcast loop *)
  set_broadcast_task true.

Definition stop : M State unit :=
  log Stopping ;;
  set_is_running false ;;
  (* Cancel broadcast task *)
  has_task <- gets broadcast_task ;;
  (if has_task then outcome task_result else ret tt) ;;
  (* Close all client connections *)
  on_registry (ConnectionManager.close_all close_result "Server shutting down") ;;
  (* Close server *)
  srv <- gets server ;;
  match srv with
  | Some w =>
      set_server (Some (mkWebSocketServer (bound_host w) (bound_port w) true)) ;;
      outcome wait_closed_result
  | None => ret tt
  end ;;
  log ServerStopped.

End Methods.

End WsServer.

(* ================================================================== *)
(** ** src/http_server.py: [get_local_ip] *)
(* ================================================================== *)

Module HttpServer.
Import Py.

(** Calls made on the socket, in the order they are made. *)
Inductive SockCall :=
| SockCreate                              (* socket.socket(AF_INET, SOCK_DGRAM) *)
| SockConnect (host : string) (port : Z)  (* s.connect((host, port)) *)
| SockGetName                             (* s.getsockname() *)
| SockClose.                              (* s.close() *)

(** How the socket answers. *)
Record Socket := mkSocket {
  create_result : option exn;
  connect_result : string -> Z -> option exn;
  getsockname_result : exn + (string * Z);
  sock_close_result : option exn
}.

Section GetLocalIp.
Variable sock : Socket.

Definition call (c : SockCall) : M (list SockCall) unit :=
  modify (fun calls => calls ++ [c])%list.

Definition get_local_ip : M (list SockCall) string :=
  call SockCreate ;;
  outcome (create_result sock) ;;
  try_finally
    (try_except
       (call (SockConnect "8.8.8.8" 80) ;;
        outcome (connect_result sock "8.8.8.8" 80) ;;
        call SockGetName ;;
        match getsockname_result sock with
        | inl e => raise e
        | inr addr => ret (fst addr)
        end)
       (fun _ => ret "127.0.0.1"))
    (call SockClose ;;
     outcome (sock_close_result sock)).

End GetLocalIp.

End HttpServer.

(* ================================================================== *)
(** ** Vocabulary for further statements *)
(* ================================================================== *)

Module Sessions.
Import Py ConnectionManager.

(** The states a [ConnectionManager] goes through: it is constructed and
    then only its methods act on it, in whatever world. *)
Inductive reachable : State -> Prop :=
| reach_init : reachable __init__
| reach_step (op : Op) (s : State) : reachable s -> reachable (state_after op s).

(** What the registry keeps true of each session: it is stored under the
    identity of its transport, its [address] is that identity, and its
    counter is not negative. *)
Definition entry_ok (item : string * ClientInfo) : Prop :=
  fst item = client_id_of (websocket (snd item)) /\
  address (snd item) = fst item /\
  0 <= packets_sent (snd item).

Definition registry_ok (s : State) : Prop :=
  Dict.wf (clients s) /\
  Forall entry_ok (clients s) /\
  connected_count s <= total_served s.

(** A send on this session's transport goes through. *)
Definition delivered (send_result : WebSocket -> list byte -> option exn)
           (data : list byte) (item : string * ClientInfo) : bool :=
  match send_result (websocket (snd item)) data with
  | None => true
  | Some _ => false
  end.

End Sessions.

Module MoreFixtures.
Import Py.

(** Every send succeeds. *)
Definition all_delivered (ws : ConnectionManager.WebSocket) (data : list byte)
  : option exn := None.

(** A tick on a healthy machine with a reliable network. *)
Definition good_tick : WsServer.Tick :=
  WsServer.mkTick (Fixtures.healthy [Fixtures.speakers; Fixtures.stereo_mix])
                  Fixtures.clock all_delivered.

(** A server whose capture was initialized on a healthy machine and
    whose registry holds three clients, with the loop running. *)
Definition streaming : WsServer.State :=
  WsServer.mkState
    Config.defaults
    (snd (AudioCapture.initialize
            (Fixtures.healthy [Fixtures.speakers; Fixtures.stereo_mix])
            Fixtures.ascii_lower (AudioCapture.__init__ Config.defaults)))
    Fixtures.three_clients
    [] (Some (WsServer.mkWebSocketServer "0.0.0.0" 8765 false)) true true.

End MoreFixtures.

Module ConfigFixtures.
Import Py Config.

(** A file that sets a valid sample rate, a block size that is too
    small, and a key the dataclass does not have. *)
Definition typed_file : list (string * pyval) :=
  [("sample_rate", PInt 48000); ("block_size", PInt 100); ("theme", PStr "dark")].

(** The configuration that file describes. *)
Definition typed_file_config : ServerConfig :=
  set_block_size (set_sample_rate defaults 48000) 100.

(** A file that sets a valid sample rate and a block size of the wrong
    type. *)
Definition ill_typed_file : list (string * pyval) :=
  [("sample_rate", PInt 48000); ("block_size", PStr "big")].

(** A file system that holds one file, with the given members. *)
Definition holding (members : list (string * pyval)) : FileSystem :=
  {| path_exists := fun _ => true;
     write_text := fun _ => None;
     read_json := fun _ => inr (JObject members) |}.

Definition empty_world : World := mkWorld [] [].

End ConfigFixtures.

(* ================================================================== *)
(** ** Facts about dicts *)
(* ================================================================== *)

Section DictFacts.
Context {V : Type}.
Implicit Types (d : Dict.t V) (k : string) (v : V).

Lemma dict_contains_get d k :
  Dict.contains d k = true <-> exists v, Dict.get d k = Some v.
Proof.
  unfold Dict.contains. destruct (Dict.get d k) as [v|].
  - split; [intros _; now exists v | reflexivity].
  - split; [discriminate | intros [v H]; discriminate].
Qed.

Lemma dict_get_in_keys d k v :
  Dict.get d k = Some v -> In k (Dict.keys d).
Proof.
  induction d as [|[k' v'] d IH]; simpl; [discriminate|].
  destruct (String.eqb_spec k' k); [now left | right; auto].
Qed.

Lemma dict_get_none d k :
  ~ In k (Dict.keys d) -> Dict.get d k = None.
Proof.
  intros H. destruct (Dict.get d k) eqn:E; [|reflexivity].
  exfalso. eauto using dict_get_in_keys.
Qed.

Lemma dict_in_get d k v :
  Dict.wf d -> In (k, v) d -> Dict.get d k = Some v.
Proof.
  unfold Dict.wf.
  induction d as [|[k' v'] d IH]; simpl; [tauto|].
  intros Hnd [Heq | Hin].
  - inversion Heq; subst. now rewrite String.eqb_refl.
  - inversion Hnd as [|? ? Hni Hnd']; subst.
    destruct (String.eqb_spec k' k) as [->|_]; [|auto].
    exfalso. apply Hni. change k with (fst (k, v)). now apply in_map.
Qed.

Lemma dict_get_set_eq d k v : Dict.get (Dict.set d k v) k = Some v.
Proof.
  induction d as [|[k' v'] d IH]; simpl.
  - now rewrite String.eqb_refl.
  - destruct (String.eqb_spec k' k); simpl.
    + now rewrite String.eqb_refl.
    + destruct (String.eqb_spec k' k); [contradiction | exact IH].
Qed.

Lemma dict_get_set_ne d k k' v :
  k <> k' -> Dict.get (Dict.set d k v) k' = Dict.get d k'.
Proof.
  intros Hne. induction d as [|[k0 v0] d IH]; simpl.
  - destruct (String.eqb_spec k k'); [contradiction | reflexivity].
  - destruct (String.eqb_spec k0 k) as [->|Hk]; simpl.
    + destruct (String.eqb_spec k k'); [contradiction | reflexivity].
    + destruct (String.eqb_spec k0 k'); [reflexivity | exact IH].
Qed.

(** Assigning to a key that is present keeps the keys as they are. *)
Lemma dict_keys_set_present d k v :
  Dict.contains d k = true -> Dict.keys (Dict.set d k v) = Dict.keys d.
Proof.
  unfold Dict.contains.
  induction d as [|[k0 v0] d IH]; simpl; [discriminate|].
  destruct (String.eqb_spec k0 k) as [->|Hk]; simpl; [reflexivity|].
  intros H. now rewrite IH.
Qed.

(** Assigning to a new key appends it. *)
Lemma dict_keys_set_absent d k v :
  Dict.contains d k = false -> Dict.keys (Dict.set d k v) = (Dict.keys d ++ [k])%list.
Proof.
  unfold Dict.contains.
  induction d as [|[k0 v0] d IH]; simpl; [reflexivity|].
  destruct (String.eqb_spec k0 k) as [->|Hk]; simpl; [discriminate|].
  intros H. now rewrite IH.
Qed.

Lemma dict_len_keys d : Dict.len d = Z.of_nat (List.length (Dict.keys d)).
Proof. unfold Dict.len, Dict.keys. now rewrite length_map. Qed.

Lemma dict_len_set_present d k v :
  Dict.contains d k = true -> Dict.len (Dict.set d k v) = Dict.len d.
Proof. intros H. now rewrite !dict_len_keys, dict_keys_set_present. Qed.

Lemma dict_len_set_absent d k v :
  Dict.contains d k = false -> Dict.len (Dict.set d k v) = Dict.len d + 1.
Proof.
  intros H. rewrite !dict_len_keys, dict_keys_set_absent by assumption.
  rewrite length_app. simpl. lia.
Qed.

Lemma dict_not_contains d k :
  Dict.contains d k = false -> ~ In k (Dict.keys d).
Proof.
  unfold Dict.contains.
  induction d as [|[k0 v0] d IH]; simpl; [tauto|].
  destruct (String.eqb_spec k0 k); [discriminate|].
  intros H [Heq | Hin]; [contradiction | now apply IH].
Qed.

Lemma dict_wf_set d k v : Dict.wf d -> Dict.wf (Dict.set d k v).
Proof.
  unfold Dict.wf. intros Hwf.
  destruct (Dict.contains d k) eqn:E.
  - now rewrite dict_keys_set_present.
  - rewrite dict_keys_set_absent by assumption.
    apply NoDup_app; [assumption | repeat constructor; simpl; tauto |].
    intros x Hx [Heq | []]. subst x.
    now apply (dict_not_contains d k).
Qed.

Lemma dict_get_del_ne d k k' :
  k <> k' -> Dict.get (Dict.del d k) k' = Dict.get d k'.
Proof.
  intros Hne. induction d as [|[k0 v0] d IH]; simpl; [reflexivity|].
  destruct (String.eqb_spec k0 k) as [->|Hk]; simpl.
  - destruct (String.eqb_spec k k'); [contradiction | reflexivity].
  - destruct (String.eqb_spec k0 k'); [reflexivity | exact IH].
Qed.

Lemma dict_get_del_eq d k : Dict.wf d -> Dict.get (Dict.del d k) k = None.
Proof.
  unfold Dict.wf.
  induction d as [|[k0 v0] d IH]; simpl; [reflexivity|].
  intros Hnd. inversion Hnd as [|? ? Hni Hnd']; subst.
  destruct (String.eqb_spec k0 k) as [->|Hk]; simpl.
  - now apply dict_get_none.
  - destruct (String.eqb_spec k0 k); [contradiction | auto].
Qed.

Lemma dict_len_del d k :
  Dict.contains d k = true -> Dict.len (Dict.del d k) = Dict.len d - 1.
Proof.
  unfold Dict.contains, Dict.len.
  induction d as [|[k0 v0] d IH]; simpl List.length; simpl Dict.get; [discriminate|].
  simpl Dict.del.
  destruct (String.eqb_spec k0 k) as [->|Hk]; [lia|].
  intros H. specialize (IH H). simpl List.length. lia.
Qed.

Lemma dict_del_absent d k :
  Dict.contains d k = false -> Dict.del d k = d.
Proof.
  unfold Dict.contains.
  induction d as [|[k0 v0] d IH]; simpl; [reflexivity|].
  destruct (String.eqb_spec k0 k) as [->|Hk]; [discriminate|].
  intros H. now rewrite IH.
Qed.

Lemma dict_keys_del_subset d k x :
  In x (Dict.keys (Dict.del d k)) -> In x (Dict.keys d).
Proof.
  induction d as [|[k0 v0] d IH]; simpl; [tauto|].
  destruct (String.eqb_spec k0 k); simpl; [tauto|].
  intros [H|H]; [now left | right; auto].
Qed.

Lemma dict_wf_del d k : Dict.wf d -> Dict.wf (Dict.del d k).
Proof.
  unfold Dict.wf.
  induction d as [|[k0 v0] d IH]; simpl; [trivial|].
  intros Hnd. inversion Hnd as [|? ? Hni Hnd']; subst.
  destruct (String.eqb_spec k0 k); simpl; [assumption|].
  constructor; [|auto].
  intros Hin. apply Hni. eapply dict_keys_del_subset; eauto.
Qed.

Lemma dict_keys_update d k f : Dict.keys (Dict.update d k f) = Dict.keys d.
Proof.
  induction d as [|[k0 v0] d IH]; simpl; [reflexivity|].
  destruct (String.eqb_spec k0 k); simpl; [reflexivity | now rewrite IH].
Qed.

(** With unique keys, a mutation through the reference held for an item
    changes that item and no other. *)
Lemma dict_update_middle (done rest : Dict.t V) k v f :
  ~ In k (Dict.keys done) ->
  Dict.update (done ++ (k, v) :: rest)%list k f = (done ++ (k, f v) :: rest)%list.
Proof.
  induction done as [|[k0 v0] done IH]; simpl; intros Hni.
  - now rewrite String.eqb_refl.
  - destruct (String.eqb_spec k0 k) as [->|Hk]; [tauto|].
    rewrite IH; tauto.
Qed.

End DictFacts.

(* ================================================================== *)
(** ** The session registry *)
(* ================================================================== *)

Module Registry.
Import Py ConnectionManager.

(** *** [add_client] and [remove_client] *)

Lemma add_client_eq wall_clock ws s :
  add_client wall_clock ws s =
    (Ret (client_id_of ws),
     mkState
       (Dict.set (clients s) (client_id_of ws)
          (mkClientInfo ws (wall_clock (clock_reads s)) (wall_clock (clock_reads s))
                        (client_id_of ws) 0))
       (logger s ++ [ClientConnected (client_id_of ws)])
       (total_served s + 1)
       (S (clock_reads s))
       (wire s)).
Proof. reflexivity. Qed.

Lemma remove_client_eq client_id s :
  remove_client client_id s =
    (Ret tt,
     if Dict.contains (clients s) client_id then
       mkState (Dict.del (clients s) client_id)
               (logger s ++ [ClientDisconnected client_id])
               (total_served s) (clock_reads s) (wire s)
     else s).
Proof.
  unfold remove_client, bind, gets. simpl.
  destruct (Dict.contains (clients s) client_id); reflexivity.
Qed.

(** Both keep the identities of the registry unique. *)
Lemma add_client_wf wall_clock ws s :
  Dict.wf (clients s) -> Dict.wf (clients (snd (add_client wall_clock ws s))).
Proof. intros H. rewrite add_client_eq. now apply dict_wf_set. Qed.

Lemma remove_client_wf client_id s :
  Dict.wf (clients s) -> Dict.wf (clients (snd (remove_client client_id s))).
Proof.
  intros H. rewrite remove_client_eq. cbn [snd].
  destruct (Dict.contains (clients s) client_id); [|exact H].
  now apply dict_wf_del.
Qed.

(** C10. Adding a connection whose peer identity is already registered
    overwrites the session stored under it: the entry now holds the new
    transport with a zero counter, the set of identities and every other
    session are as before, so [connected_count] is unchanged;
    [total_served] still grows by one; no call at all is made on a
    transport (the old one is not closed) and the only log record is the
    connection notice (no removal is notified). *)
Theorem add_client_overwrites_existing :
  forall (wall_clock : nat -> Z) (s : State) (ws : WebSocket),
    Dict.contains (clients s) (client_id_of ws) = true ->
    exists s',
      add_client wall_clock ws s = (Ret (client_id_of ws), s') /\
      Dict.get (clients s') (client_id_of ws) =
        Some (mkClientInfo ws (wall_clock (clock_reads s))
                           (wall_clock (clock_reads s)) (client_id_of ws) 0) /\
      Dict.keys (clients s') = Dict.keys (clients s) /\
      (forall id, id <> client_id_of ws ->
                  Dict.get (clients s') id = Dict.get (clients s) id) /\
      connected_count s' = connected_count s /\
      total_served s' = total_served s + 1 /\
      wire s' = wire s /\
      logger s' = (logger s ++ [ClientConnected (client_id_of ws)])%list.
Proof.
  intros wall_clock s ws Hin.
  eexists. split; [apply add_client_eq|]. simpl.
  split; [apply dict_get_set_eq|].
  split; [now apply dict_keys_set_present|].
  split; [intros id Hne; apply dict_get_set_ne; congruence|].
  split; [unfold connected_count; simpl; now apply dict_len_set_present|].
  auto.
Qed.

Lemma add_client_overwrites_existing_witness :
  Dict.contains (clients Fixtures.one_client) (client_id_of Fixtures.alice_again) = true /\
  exists s',
    add_client Fixtures.clock Fixtures.alice_again Fixtures.one_client
      = (Ret "192.168.1.10:50001", s') /\
    Dict.get (clients s') "192.168.1.10:50001" =
      Some (mkClientInfo Fixtures.alice_again 1001 1001 "192.168.1.10:50001" 0) /\
    connected_count s' = 1 /\ total_served s' = 2 /\ wire s' = [].
Proof.
  split; [reflexivity|].
  destruct (add_client_overwrites_existing Fixtures.clock Fixtures.one_client
              Fixtures.alice_again eq_refl)
    as (s' & Hrun & Hget & _ & _ & Hcount & Hserved & Hwire & _).
  exists s'. repeat split; assumption.
Defined.

(** *** [close_all] *)

(** The closing loop goes through all items, whatever the closes do. *)
Lemma close_loop_completes close_result reason (items : list (string * ClientInfo)) :
  forall s, exists s',
    for_each items
      (fun item =>
         let '(client_id, client_info) := item in
         try_except (ws_close close_result (websocket client_info) 1001 reason)
                    (fun e => log (ErrorClosing client_id e))) s = (Ret tt, s') /\
    clients s' = clients s /\
    total_served s' = total_served s /\
    wire s' = (wire s ++
               map (fun item => CallClose (websocket (snd item)) 1001 reason) items)%list.
Proof.
  induction items as [|[client_id client_info] items IH]; intros s.
  - exists s. simpl. rewrite app_nil_r. auto.
  - simpl for_each.
    match goal with |- context [for_each items ?b] => set (body := b) in * end.
    unfold bind at 1.
    unfold try_except, ws_close, bind, record_call, modify, outcome, log.
    destruct (close_result (websocket client_info) 1001 reason) as [e|]; simpl;
      match goal with |- context [for_each items body ?s0] =>
        destruct (IH s0) as (s' & Hrun & Hc & Ht & Hw) end;
      exists s'; rewrite Hrun, Hc, Ht, Hw; simpl;
      rewrite <- app_assoc; auto.
Qed.

Lemma close_all_total_served close_result reason s :
  exists s',
    close_all close_result reason s = (Ret tt, s') /\
    total_served s' = total_served s.
Proof.
  unfold close_all. unfold bind at 1. unfold log at 1, modify.
  unfold bind at 1. unfold gets at 1. simpl clients.
  unfold bind at 1.
  match goal with |- context [for_each ?l ?b ?s0] =>
    destruct (close_loop_completes close_result reason l s0)
      as (s1 & Hrun & Hc & Ht & Hw) end.
  rewrite Hrun. eexists. split; [reflexivity|].
  simpl. now rewrite Ht.
Qed.

(** C2. [close_all] returns normally from every registry state, for
    every reason and whatever each close does (including when all of
    them raise); afterwards the registry is empty and
    [connected_count] is 0.  A close was attempted on every session, in
    registry order, with code 1001 and the reason. *)
Theorem close_all_empties_registry :
  forall (close_result : WebSocket -> Z -> string -> option exn)
         (reason : string) (s : State),
    exists s',
      close_all close_result reason s = (Ret tt, s') /\
      clients s' = Dict.empty /\
      connected_count s' = 0 /\
      wire s' = (wire s ++
                 map (fun item => CallClose (websocket (snd item)) 1001 reason)
                     (Dict.items (clients s)))%list.
Proof.
  intros close_result reason s.
  unfold close_all. unfold bind at 1. unfold log at 1, modify.
  unfold bind at 1. unfold gets at 1. simpl clients.
  unfold bind at 1.
  match goal with |- context [for_each ?l ?b ?s0] =>
    destruct (close_loop_completes close_result reason l s0)
      as (s1 & Hrun & Hc & Ht & Hw) end.
  rewrite Hrun. eexists. split; [reflexivity|].
  simpl. rewrite Hw. auto.
Qed.

(** *** [broadcast] *)

Section Broadcast.
Variable wall_clock : nat -> Z.
Variable send_result : WebSocket -> list byte -> option exn.
Variable data : list byte.

Lemma sweep_step failed client_id c s :
  sweep_body wall_clock send_result data failed (client_id, c) s =
    match send_result (websocket c) data with
    | None =>
        (Ret failed,
         mkState
           (Dict.update
              (Dict.update (clients s) client_id
                 (fun c => set_packets_sent c (packets_sent c + 1)))
              client_id
              (fun c => set_last_activity c (wall_clock (clock_reads s))))
           (logger s) (total_served s) (S (clock_reads s))
           (wire s ++ [CallSend (websocket c) data]))
    | Some e =>
        (Ret (failed ++ [client_id])%list,
         mkState (clients s) (logger s ++ [FailedToSend client_id e])
                 (total_served s) (clock_reads s)
                 (wire s ++ [CallSend (websocket c) data]))
    end.
Proof.
  unfold sweep_body, try_except, ws_send, bind, record_call, modify, outcome.
  destruct (send_result (websocket c) data); reflexivity.
Qed.

(** The sweep over the items that are still to come, [rest], when the
    registry holds [done ++ rest]. *)
Lemma sweep_loop (rest : list (string * ClientInfo)) :
  forall (done : list (string * ClientInfo)) (failed : list string) (s : State),
    clients s = (done ++ rest)%list ->
    NoDup (Dict.keys (done ++ rest)%list) ->
    exists s',
      for_fold rest failed (sweep_body wall_clock send_result data) s
        = (Ret (failed ++ failed_of send_result data rest)%list, s') /\
      clients s' = (done ++ swept wall_clock send_result data rest (clock_reads s))%list /\
      total_served s' = total_served s /\
      wire s' = (wire s ++
                 map (fun item => CallSend (websocket (snd item)) data) rest)%list.
Proof.
  induction rest as [|[client_id c] rest IH]; intros done failed s Hc Hnd.
  - exists s. simpl. rewrite !app_nil_r. unfold ret.
    rewrite app_nil_r in Hc. auto.
  - assert (Hni : ~ In client_id (Dict.keys done)).
    { unfold Dict.keys in *. rewrite map_app in Hnd.
      apply NoDup_remove_2 in Hnd. intros Hin. apply Hnd.
      apply in_or_app. now left. }
    cbn [for_fold]. unfold bind at 1. rewrite sweep_step.
    cbn [swept failed_of map].
    destruct (send_result (websocket c) data) as [e|].
    + match goal with |- context [for_fold rest ?f _ ?s0] =>
        destruct (IH (done ++ [(client_id, c)])%list f s0)
          as (s' & Hrun & Hc' & Ht & Hw) end.
      * simpl. rewrite Hc, <- app_assoc. reflexivity.
      * now rewrite <- app_assoc.
      * exists s'. rewrite Hrun, Hc', Ht, Hw. simpl.
        rewrite <- !app_assoc. auto.
    + match goal with |- context [for_fold rest ?f _ ?s0] =>
        destruct (IH (done ++ [(client_id,
                     mkClientInfo (websocket c) (connected_at c)
                       (wall_clock (clock_reads s)) (address c)
                       (packets_sent c + 1))])%list f s0)
          as (s' & Hrun & Hc' & Ht & Hw) end.
      * simpl. rewrite Hc, !dict_update_middle by assumption.
        rewrite <- app_assoc. reflexivity.
      * rewrite <- app_assoc. unfold Dict.keys in *.
        rewrite map_app in *. exact Hnd.
      * exists s'. rewrite Hrun, Hc', Ht, Hw. simpl.
        rewrite <- !app_assoc. auto.
Qed.

(** Without any assumption on the registry, the sweep ends normally and
    leaves the served counter alone. *)
Lemma sweep_loop_total_served (rest : list (string * ClientInfo)) :
  forall (failed : list string) (s : State),
    exists failed' s',
      for_fold rest failed (sweep_body wall_clock send_result data) s
        = (Ret failed', s') /\
      total_served s' = total_served s.
Proof.
  induction rest as [|[client_id c] rest IH]; intros failed s.
  - exists failed, s. auto.
  - cbn [for_fold]. unfold bind at 1. rewrite sweep_step.
    destruct (send_result (websocket c) data) as [e|];
      match goal with |- context [for_fold rest ?f _ ?s0] =>
        destruct (IH f s0) as (failed' & s' & Hrun & Ht) end;
      exists failed', s'; rewrite Hrun, Ht; auto.
Qed.

Lemma swept_keys items n :
  Dict.keys (swept wall_clock send_result data items n) = Dict.keys items.
Proof.
  revert n. induction items as [|[client_id c] items IH]; intros n; simpl.
  - reflexivity.
  - destruct (send_result (websocket c) data); simpl; now rewrite IH.
Qed.

Lemma swept_get_sent items client_id c :
  Dict.get items client_id = Some c ->
  send_result (websocket c) data = None ->
  forall n, exists t,
    Dict.get (swept wall_clock send_result data items n) client_id =
      Some (mkClientInfo (websocket c) (connected_at c) t (address c)
                         (packets_sent c + 1)).
Proof.
  induction items as [|[k0 c0] items IH]; simpl; [discriminate|].
  intros Hget Hok n.
  destruct (String.eqb_spec k0 client_id) as [->|Hne].
  - inversion Hget; subst c0. rewrite Hok. simpl.
    rewrite String.eqb_refl. eauto.
  - destruct (send_result (websocket c0) data); simpl;
      destruct (String.eqb_spec k0 client_id); try contradiction; auto.
Qed.

Lemma swept_get_failed items client_id c e :
  Dict.get items client_id = Some c ->
  send_result (websocket c) data = Some e ->
  forall n,
    Dict.get (swept wall_clock send_result data items n) client_id = Some c.
Proof.
  induction items as [|[k0 c0] items IH]; simpl; [discriminate|].
  intros Hget Hfail n.
  destruct (String.eqb_spec k0 client_id) as [->|Hne].
  - inversion Hget; subst c0. rewrite Hfail. simpl.
    now rewrite String.eqb_refl.
  - destruct (send_result (websocket c0) data); simpl;
      destruct (String.eqb_spec k0 client_id); try contradiction; auto.
Qed.

(** When the send fails for the session [k] and for no other, the sweep
    collects [k] alone. *)
Lemma failed_of_single items k :
  Dict.wf items ->
  (forall client_id c, In (client_id, c) items ->
     (send_result (websocket c) data <> None <-> client_id = k)) ->
  failed_of send_result data items = if in_dec string_dec k (Dict.keys items) then [k] else [].
Proof.
  unfold Dict.wf.
  induction items as [|[k0 c0] items IH]; intros Hnd Hone; [reflexivity|].
  inversion Hnd as [|? ? Hni Hnd']; subst.
  assert (Hrest : forall client_id c, In (client_id, c) items ->
            (send_result (websocket c) data <> None <-> client_id = k))
    by (intros; apply Hone; now right).
  specialize (IH Hnd' Hrest).
  assert (H0 := Hone k0 c0 (or_introl eq_refl)).
  cbn [failed_of]. rewrite IH.
  destruct (send_result (websocket c0) data) as [e|].
  - assert (k0 = k) by (apply H0; discriminate). subst k0.
    destruct (in_dec string_dec k (Dict.keys items)); [contradiction|].
    destruct (in_dec string_dec k (Dict.keys ((k, c0) :: items))) as [_|Hn];
      [reflexivity | exfalso; apply Hn; now left].
  - assert (k0 <> k) by (intros Heq; apply H0 in Heq; now apply Heq).
    destruct (in_dec string_dec k (Dict.keys items)) as [Hin|Hnin];
      destruct (in_dec string_dec k (Dict.keys ((k0, c0) :: items))) as [Hin'|Hnin'];
      try reflexivity.
    + exfalso. apply Hnin'. now right.
    + exfalso. destruct Hin'; [contradiction | contradiction].
Qed.

End Broadcast.

(** C1. In a registry (with unique identities, as every dict has) where
    during [broadcast(data)] the send fails for the session [k] and for
    no other:
    - the first loop sends to every session in registry order, collects
      exactly [k], removes nobody, and leaves the record of [k] as it was
      (counter and last activity not updated);
    - only then is [k] removed; [broadcast] returns normally;
    - afterwards every session other than [k] is registered with its
      counter one above its value before the call, [k] is absent, and
      [connected_count] is one lower. *)
Theorem broadcast_with_one_failing_session :
  forall (wall_clock : nat -> Z)
         (send_result : WebSocket -> list byte -> option exn)
         (data : list byte) (s : State) (k : string),
    Dict.wf (clients s) ->
    Dict.contains (clients s) k = true ->
    (forall client_id c, Dict.get (clients s) client_id = Some c ->
       (send_result (websocket c) data <> None <-> client_id = k)) ->
    exists s_mid s',
      broadcast_sweep wall_clock send_result data s = (Ret [k], s_mid) /\
      Dict.keys (clients s_mid) = Dict.keys (clients s) /\
      Dict.get (clients s_mid) k = Dict.get (clients s) k /\
      wire s_mid = (wire s ++ map (fun item => CallSend (websocket (snd item)) data)
                                  (Dict.items (clients s)))%list /\
      broadcast wall_clock send_result data s = (Ret tt, s') /\
      clients s' = Dict.del (clients s_mid) k /\
      wire s' = wire s_mid /\
      (forall client_id c,
          client_id <> k -> Dict.get (clients s) client_id = Some c ->
          exists c', Dict.get (clients s') client_id = Some c' /\
                     packets_sent c' = packets_sent c + 1 /\
                     websocket c' = websocket c /\
                     connected_at c' = connected_at c /\
                     address c' = address c) /\
      Dict.get (clients s') k = None /\
      connected_count s' = connected_count s - 1.
Proof.
  intros wall_clock send_result data s k Hwf Hin Hone.
  destruct (sweep_loop wall_clock send_result data (clients s) [] [] s eq_refl Hwf)
    as (s_mid & Hsweep & Hc & Ht & Hw).
  simpl in Hsweep, Hc.
  rewrite (failed_of_single send_result data (clients s) k Hwf) in Hsweep.
  2:{ intros client_id c Hi. apply Hone. now apply dict_in_get. }
  apply dict_contains_get in Hin as Hk. destruct Hk as [ck Hk].
  destruct (in_dec string_dec k (Dict.keys (clients s))) as [_|Hn];
    [|exfalso; apply Hn; eauto using dict_get_in_keys].
  assert (Hfail : send_result (websocket ck) data <> None) by (now apply (Hone k ck)).
  destruct (send_result (websocket ck) data) as [e|] eqn:Hsend; [clear Hfail|congruence].
  assert (Hkmid : Dict.get (clients s_mid) k = Some ck).
  { rewrite Hc. eapply swept_get_failed; eauto. }
  assert (Hkeys : Dict.keys (clients s_mid) = Dict.keys (clients s)).
  { rewrite Hc. apply swept_keys. }
  assert (Hcont : Dict.contains (clients s_mid) k = true).
  { apply dict_contains_get; eauto. }
  assert (Hwfmid : Dict.wf (clients s_mid)).
  { unfold Dict.wf. now rewrite Hkeys. }
  exists s_mid.
  exists (mkState (Dict.del (clients s_mid) k)
                  (logger s_mid ++ [ClientDisconnected k])
                  (total_served s_mid) (clock_reads s_mid) (wire s_mid)).
  assert (Hsweep' : broadcast_sweep wall_clock send_result data s = (Ret [k], s_mid)).
  { unfold broadcast_sweep, bind, gets. exact Hsweep. }
  split; [exact Hsweep'|].
  split; [exact Hkeys|].
  split; [congruence|].
  split; [exact Hw|].
  split.
  { unfold broadcast, bind. rewrite Hsweep'. cbn [for_each].
    unfold bind. rewrite remove_client_eq, Hcont. reflexivity. }
  cbn [clients wire].
  split; [reflexivity|]. split; [reflexivity|].
  split.
  { intros client_id c Hne Hget.
    rewrite dict_get_del_ne by congruence.
    assert (Hok : send_result (websocket c) data = None).
    { destruct (send_result (websocket c) data) eqn:E; [|reflexivity].
      exfalso. apply Hne. apply (Hone client_id c Hget). rewrite E. discriminate. }
    destruct (swept_get_sent wall_clock send_result data (clients s) client_id c
                Hget Hok (clock_reads s)) as [t Hget'].
    rewrite Hc, Hget'. eexists. split; [reflexivity|]. simpl. auto. }
  split; [now apply dict_get_del_eq|].
  unfold connected_count. cbn [clients].
  rewrite dict_len_del by assumption.
  now rewrite !dict_len_keys, Hkeys.
Qed.

Lemma broadcast_with_one_failing_session_witness :
  exists s_mid s',
    broadcast_sweep Fixtures.clock Fixtures.bob_is_gone Fixtures.block_1234
                    Fixtures.three_clients = (Ret ["192.168.1.11:50002"], s_mid) /\
    Dict.keys (clients s_mid) = Dict.keys (clients Fixtures.three_clients) /\
    broadcast Fixtures.clock Fixtures.bob_is_gone Fixtures.block_1234
              Fixtures.three_clients = (Ret tt, s') /\
    Dict.get (clients s') "192.168.1.11:50002" = None /\
    connected_count s' = 2.
Proof.
  assert (Hwf : Dict.wf (clients Fixtures.three_clients)).
  { unfold Dict.wf. simpl.
    repeat (constructor; [simpl; intuition discriminate|]). constructor. }
  assert (Hone : forall client_id c,
            Dict.get (clients Fixtures.three_clients) client_id = Some c ->
            (Fixtures.bob_is_gone (websocket c) Fixtures.block_1234 <> None
             <-> client_id = "192.168.1.11:50002")).
  { intros client_id c.
    let d := eval vm_compute in (clients Fixtures.three_clients) in
    change (clients Fixtures.three_clients) with d.
    cbn [Dict.get].
    destruct (String.eqb_spec "192.168.1.10:50001" client_id) as [<-|_].
    { intros [= <-]. split; [intros H; exfalso; now apply H | discriminate]. }
    destruct (String.eqb_spec "192.168.1.11:50002" client_id) as [<-|_].
    { intros [= <-]. split; [reflexivity | discriminate]. }
    destruct (String.eqb_spec "192.168.1.12:50003" client_id) as [<-|_].
    { intros [= <-]. split; [intros H; exfalso; now apply H | discriminate]. }
    discriminate. }
  destruct (broadcast_with_one_failing_session
              Fixtures.clock Fixtures.bob_is_gone Fixtures.block_1234
              Fixtures.three_clients "192.168.1.11:50002" Hwf eq_refl Hone)
    as (s_mid & s' & Hsweep & Hkeys & _ & _ & Hrun & _ & _ & _ & Hgone & Hcount).
  exists s_mid, s'. repeat split; assumption.
Defined.

(** *** The served counter *)

Lemma remove_loop_total_served (ids : list string) :
  forall s, exists s',
    for_each ids remove_client s = (Ret tt, s') /\
    total_served s' = total_served s.
Proof.
  induction ids as [|client_id ids IH]; intros s.
  - exists s. auto.
  - cbn [for_each]. unfold bind. rewrite remove_client_eq.
    match goal with |- context [for_each ids _ ?s0] =>
      destruct (IH s0) as (s' & Hrun & Ht) end.
    exists s'. rewrite Hrun, Ht.
    destruct (Dict.contains (clients s) client_id); auto.
Qed.

(** No operation of the registry lowers [total_served]; only
    [add_client] changes it. *)
Lemma total_served_never_decreases (op : Op) (s : State) :
  total_served s <= total_served (state_after op s).
Proof.
  destruct op as [wall_clock ws | client_id | | | wall_clock send_result data
                 | close_result reason]; cbn [state_after].
  - rewrite add_client_eq. simpl. lia.
  - rewrite remove_client_eq. simpl.
    destruct (Dict.contains (clients s) client_id); simpl; lia.
  - simpl. lia.
  - simpl. lia.
  - unfold broadcast, broadcast_sweep, bind, gets.
    destruct (sweep_loop_total_served wall_clock send_result data
                (Dict.items (clients s)) [] s) as (failed & s1 & Hrun & Ht).
    rewrite Hrun.
    destruct (remove_loop_total_served failed s1) as (s2 & Hrun2 & Ht2).
    rewrite Hrun2. simpl. lia.
  - destruct (close_all_total_served close_result reason s) as (s' & Hrun & Ht).
    rewrite Hrun. simpl. lia.
Qed.

Lemma dict_del_set_absent {V} (d : Dict.t V) k v :
  Dict.contains d k = false -> Dict.del (Dict.set d k v) k = d.
Proof.
  unfold Dict.contains.
  induction d as [|[k0 v0] d IH]; simpl.
  - now rewrite String.eqb_refl.
  - destruct (String.eqb_spec k0 k) as [->|Hne]; [discriminate|].
    intros H. simpl. destruct (String.eqb_spec k0 k); [contradiction|].
    now rewrite IH.
Qed.

(** C5, as stated, fails: when the identity is already registered, the
    add overwrites its session and the remove deletes it.  With [alice]
    registered, adding a second connection from her address and removing
    that identity leaves [connected_count] at 0, not at 1. *)
Lemma add_then_remove_counterexample :
  let s := Fixtures.one_client in
  let s1 := snd (add_client Fixtures.clock Fixtures.alice_again s) in
  let s2 := snd (remove_client (client_id_of Fixtures.alice_again) s1) in
  connected_count s = 1 /\ connected_count s1 = 1 /\ connected_count s2 = 0 /\
  connected_count s2 <> connected_count s.
Proof. simpl. repeat split; try reflexivity. discriminate. Qed.

(** C5, amended. [add_client] followed at once by [remove_client] of the
    identity it returned:
    - raises [total_served] by exactly one, in every case;
    - when the identity was not registered before, restores the registry
      (so [connected_count] is what it was before the add);
    - when the identity was already registered, leaves [connected_count]
      one below its value before the add;
    and no operation of the registry ever lowers [total_served]. *)
Theorem add_then_remove :
  forall (wall_clock : nat -> Z) (s : State) (ws : WebSocket),
    exists s1 s2,
      add_client wall_clock ws s = (Ret (client_id_of ws), s1) /\
      remove_client (client_id_of ws) s1 = (Ret tt, s2) /\
      total_served s2 = total_served s + 1 /\
      (Dict.contains (clients s) (client_id_of ws) = false ->
         clients s2 = clients s /\ connected_count s2 = connected_count s) /\
      (Dict.contains (clients s) (client_id_of ws) = true ->
         connected_count s2 = connected_count s - 1) /\
      (forall (op : Op) (s0 : State),
         total_served s0 <= total_served (state_after op s0)).
Proof.
  intros wall_clock s ws.
  eexists. eexists.
  split; [apply add_client_eq|].
  split; [apply remove_client_eq|].
  cbn [clients].
  assert (Hin : Dict.contains
                  (Dict.set (clients s) (client_id_of ws)
                     (mkClientInfo ws (wall_clock (clock_reads s))
                        (wall_clock (clock_reads s)) (client_id_of ws) 0))
                  (client_id_of ws) = true).
  { apply dict_contains_get. eexists. apply dict_get_set_eq. }
  rewrite Hin. unfold connected_count. cbn [clients total_served].
  split; [reflexivity|].
  split.
  { intros Habs. rewrite dict_del_set_absent by assumption. auto. }
  split.
  { intros Hpres. rewrite dict_len_del by assumption.
    now rewrite dict_len_set_present. }
  apply total_served_never_decreases.
Qed.

End Registry.

(* ================================================================== *)
(** ** Configuration *)
(* ================================================================== *)

Module Configuration.
Import Py Config.

(** *** Reasoning about results *)

Lemma on_return_ret {S A} (a : A) (P : A -> Prop) :
  P a -> on_return (ret a : M S A) P.
Proof. intros H s. exact H. Qed.

Lemma on_return_raise {S A} (e : exn) (P : A -> Prop) :
  on_return (raise e : M S A) P.
Proof. intros s. exact I. Qed.

Lemma on_return_bind {S A B} (m : M S A) (k : A -> M S B)
      (P : A -> Prop) (Q : B -> Prop) :
  on_return m P ->
  (forall a, P a -> on_return (k a) Q) ->
  on_return (bind m k) Q.
Proof.
  intros Hm Hk s. unfold bind. specialize (Hm s).
  destruct (m s) as [[a|e] s']; simpl in *; [|exact I].
  exact (Hk a Hm s').
Qed.

Lemma on_return_weaken {S A} (m : M S A) (P Q : A -> Prop) :
  on_return m P -> (forall a, P a -> Q a) -> on_return m Q.
Proof.
  intros Hm HPQ s. specialize (Hm s).
  destruct (fst (m s)); auto.
Qed.

Lemma on_return_any {S A} (m : M S A) : on_return m (fun _ => True).
Proof. intros s. destruct (fst (m s)); exact I. Qed.

(** *** Comparisons on unchecked values *)

Lemma py_eq_int_value x n :
  py_eq_int x n = true ->
  exists q, num_value x = Some q /\ (q == inject_Z n)%Q.
Proof.
  destruct x as [ | b | z | [ | negative | q] | s | | ]; simpl; try discriminate.
  - intros H. apply Z.eqb_eq in H. rewrite H. eexists. split; reflexivity.
  - intros H. apply Z.eqb_eq in H. rewrite H. eexists. split; reflexivity.
  - intros H. apply Qeq_bool_iff in H. eauto.
Qed.

Lemma py_in_ints_value x l :
  py_in_ints x l = true ->
  exists q r, num_value x = Some q /\ In r l /\ (q == inject_Z r)%Q.
Proof.
  unfold py_in_ints. intros H. apply existsb_exists in H.
  destruct H as (r & Hin & Heq).
  destruct (py_eq_int_value x r Heq) as (q & Hq & Hqr). eauto.
Qed.

Lemma py_between_value lo x hi :
  on_return (py_between lo x hi)
    (fun ok => ok = true ->
       exists q, num_value x = Some q /\
                 (inject_Z lo <= q)%Q /\ (q <= inject_Z hi)%Q).
Proof.
  intros w. unfold py_between, bind.
  destruct x as [ | b | z | [ | negative | q] | s | | ]; simpl; try exact I.
  - destruct (lo <=? Z.b2z b) eqn:E1; simpl; [|discriminate].
    intros E2. eexists. split; [reflexivity|].
    rewrite <- !Zle_Qle. split; now apply Z.leb_le.
  - destruct (lo <=? z) eqn:E1; simpl; [|discriminate].
    intros E2. eexists. split; [reflexivity|].
    rewrite <- !Zle_Qle. split; now apply Z.leb_le.
  - discriminate.
  - destruct negative; simpl; discriminate.
  - destruct (Qle_bool (inject_Z lo) q) eqn:E1; simpl; [|discriminate].
    intros E2. eexists. split; [reflexivity|].
    split; now apply Qle_bool_iff.
Qed.

(** *** The invariant *)

Ltac cfg_simpl :=
  cbn [negb andb fst snd
       http_port ws_port sample_rate channels block_size log_level
       set_http_port set_ws_port set_sample_rate set_block_size set_log_level
       raw_http_port raw_ws_port raw_sample_rate raw_channels raw_block_size
       raw_log_level raw_set_http_port raw_set_ws_port raw_set_sample_rate
       raw_set_block_size raw_set_log_level defaults].

Lemma defaults_invariant : raw_capture_invariant (to_raw defaults).
Proof.
  split.
  - exists (inject_Z 44100), 44100. simpl. intuition reflexivity.
  - exists (inject_Z 1024). simpl. rewrite <- !Zle_Qle.
    split; [reflexivity | lia].
Qed.

Lemma default_block_ok c :
  block_ok (raw_set_block_size c (PInt (block_size defaults))).
Proof.
  exists (inject_Z 1024). simpl. rewrite <- !Zle_Qle.
  split; [reflexivity | lia].
Qed.

Lemma default_rate_ok c :
  rate_ok (raw_set_sample_rate c (PInt (sample_rate defaults))).
Proof. exists (inject_Z 44100), 44100. simpl. intuition reflexivity. Qed.

Section Validate.
Variable str_upper : string -> string.

(** Every configuration [validate_config] returns, on whatever values,
    satisfies the invariant. *)
Lemma validate_config_raw_invariant (config : RawConfig) :
  on_return (validate_config_raw str_upper config) raw_capture_invariant.
Proof.
  unfold validate_config_raw.
  (* sample_rate *)
  eapply on_return_bind with (P := rate_ok).
  { destruct (py_in_ints (raw_sample_rate config) valid_sample_rates) eqn:E; simpl.
    - apply on_return_ret. now apply py_in_ints_value.
    - eapply on_return_bind; [apply on_return_any|].
      intros _ _. apply on_return_ret. apply default_rate_ok. }
  clear config. intros config Hrate.
  (* block_size *)
  eapply on_return_bind; [apply py_between_value|].
  intros ok Hok.
  eapply on_return_bind with (P := fun c => rate_ok c /\ block_ok c).
  { destruct ok; simpl.
    - apply on_return_ret. split; [assumption|]. now apply Hok.
    - eapply on_return_bind; [apply on_return_any|].
      intros _ _. apply on_return_ret.
      split; [exact Hrate | apply default_block_ok]. }
  clear config Hrate ok Hok. intros config Hinv.
  (* log_level *)
  eapply on_return_bind; [apply on_return_any|]. intros up _.
  eapply on_return_bind with (P := fun c => rate_ok c /\ block_ok c).
  { destruct (str_in up valid_levels); simpl.
    - eapply on_return_bind; [apply on_return_any|].
      intros up' _. apply on_return_ret. exact Hinv.
    - eapply on_return_bind; [apply on_return_any|].
      intros _ _. apply on_return_ret. exact Hinv. }
  clear config Hinv up. intros config Hinv.
  (* ports *)
  eapply on_return_bind; [apply on_return_any|]. intros ok _.
  eapply on_return_bind with (P := fun c => rate_ok c /\ block_ok c).
  { destruct ok; simpl; apply on_return_ret; exact Hinv. }
  clear config Hinv ok. intros config Hinv.
  eapply on_return_bind; [apply on_return_any|]. intros ok _.
  eapply on_return_bind with (P := fun c => rate_ok c /\ block_ok c).
  { destruct ok; simpl; apply on_return_ret; exact Hinv. }
  clear config Hinv ok. intros config Hinv.
  apply on_return_ret. exact Hinv.
Qed.

(** On a configuration with the declared field types, [validate_config]
    never raises, keeps a valid field and puts the default in place of an
    invalid one. *)
Lemma validate_config_typed (config : ServerConfig) (w : World) :
  exists config' w',
    validate_config str_upper config w = (Ret config', w') /\
    sample_rate config' =
      (if int_in (sample_rate config) valid_sample_rates
       then sample_rate config else sample_rate defaults) /\
    block_size config' =
      (if (512 <=? block_size config) && (block_size config <=? 4096)
       then block_size config else block_size defaults) /\
    channels config' = channels config.
Proof.
  unfold validate_config, bind, ret, warning, modify.
  destruct (int_in (sample_rate config) valid_sample_rates); cfg_simpl;
    destruct ((512 <=? block_size config) && (block_size config <=? 4096)); cfg_simpl;
    destruct (str_in (str_upper (log_level config)) valid_levels); cfg_simpl;
    destruct ((1 <=? http_port config) && (http_port config <=? 65535)); cfg_simpl;
    destruct ((1 <=? ws_port config) && (ws_port config <=? 65535)); cfg_simpl;
    eexists; eexists; (split; [reflexivity|]); cfg_simpl; auto.
Qed.

Lemma int_in_In z l : int_in z l = true <-> In z l.
Proof.
  unfold int_in. rewrite existsb_exists. split.
  - intros (x & Hin & Heq). apply Z.eqb_eq in Heq. now subst.
  - intros H. exists z. split; [assumption | apply Z.eqb_refl].
Qed.

(** The two readings of [validate_config] agree on typed values. *)
Lemma validate_config_raw_typed (config : ServerConfig) (w : World) :
  validate_config_raw str_upper (to_raw config) w =
    match validate_config str_upper config w with
    | (Ret config', w') => (Ret (to_raw config'), w')
    | (Raise e, w') => (Raise e, w')
    end.
Proof.
  unfold validate_config_raw, validate_config, bind, ret, warning, modify,
    py_between, py_int_le, py_le_int, py_upper, to_raw, bind, ret.
  cfg_simpl.
  change (py_in_ints (PInt (sample_rate config)) valid_sample_rates)
    with (int_in (sample_rate config) valid_sample_rates).
  destruct (int_in (sample_rate config) valid_sample_rates); cfg_simpl;
    destruct (512 <=? block_size config);
    destruct (block_size config <=? 4096); cfg_simpl;
    destruct (str_in (str_upper (log_level config)) valid_levels); cfg_simpl;
    destruct (1 <=? http_port config);
    destruct (http_port config <=? 65535); cfg_simpl;
    destruct (1 <=? ws_port config);
    destruct (ws_port config <=? 65535); cfg_simpl;
    reflexivity.
Qed.

Variable fs : FileSystem.

(** [load_config] raises only when the template cannot be written; every
    configuration it returns satisfies the invariant. *)
Lemma load_config_invariant (path : string) (w : World) :
  match load_config str_upper fs path w with
  | (Ret config, _) => raw_capture_invariant config
  | (Raise e, _) => path_exists fs path = false /\ write_text fs path = Some e
  end.
Proof.
  unfold load_config.
  destruct (path_exists fs path); cbn [negb].
  - unfold try_except.
    match goal with |- context [match ?body w with _ => _ end] =>
      assert (Hbody : on_return body raw_capture_invariant);
      [|specialize (Hbody w); destruct (body w) as [[config|e] w']] end.
    + eapply on_return_bind; [apply on_return_any|]. intros data _.
      eapply on_return_bind; [apply on_return_any|]. intros members _.
      apply validate_config_raw_invariant.
    + exact Hbody.
    + unfold bind, warning, modify, ret.
      destruct (exn_class_eqb (exn_cls e) JSONDecodeError); simpl;
        apply defaults_invariant.
  - unfold bind, outcome, modify, ret, raise.
    destruct (write_text fs path) as [e|]; simpl.
    + auto.
    + apply defaults_invariant.
Qed.

End Validate.

(** C9. The configuration produced by validation satisfies the
    CaptureConfig invariant, and a field that violates it is replaced by
    its default instead of being rejected:
    - on a configuration with the declared field types, [validate_config]
      returns normally; the result has its sample rate among 22050, 44100
      and 48000 and its block size within 512..4096; a valid field is
      kept, an invalid one becomes 44100, respectively 1024;
    - on the values a JSON file can hold the function computes the same
      thing, and
    - [load_config] returns, in every case in which it returns, a
      configuration whose sample rate and block size satisfy the
      invariant; it raises only when the file is missing and the template
      cannot be written. *)
Theorem validated_config_satisfies_invariant :
  forall (str_upper : string -> string) (fs : FileSystem),
    (forall (config : ServerConfig) (w : World),
        exists config' w',
          validate_config str_upper config w = (Ret config', w') /\
          validate_config_raw str_upper (to_raw config) w = (Ret (to_raw config'), w') /\
          capture_invariant config' /\
          (In (sample_rate config) valid_sample_rates ->
             sample_rate config' = sample_rate config) /\
          (~ In (sample_rate config) valid_sample_rates ->
             sample_rate config' = sample_rate defaults) /\
          (512 <= block_size config <= 4096 ->
             block_size config' = block_size config) /\
          (~ 512 <= block_size config <= 4096 ->
             block_size config' = block_size defaults)) /\
    (forall (path : string) (w : World),
        match load_config str_upper fs path w with
        | (Ret config, _) => raw_capture_invariant config
        | (Raise e, _) =>
            path_exists fs path = false /\ write_text fs path = Some e
        end).
Proof.
  intros str_upper fs. split; [|apply load_config_invariant].
  intros config w.
  destruct (validate_config_typed str_upper config w)
    as (config' & w' & Hrun & Hrate & Hblock & _).
  exists config', w'.
  split; [exact Hrun|].
  split; [now rewrite validate_config_raw_typed, Hrun|].
  assert (Hr := int_in_In (sample_rate config) valid_sample_rates).
  assert (Hb : (512 <=? block_size config) && (block_size config <=? 4096) = true
               <-> 512 <= block_size config <= 4096).
  { rewrite andb_true_iff, !Z.leb_le. tauto. }
  unfold capture_invariant. rewrite Hrate, Hblock.
  destruct (int_in (sample_rate config) valid_sample_rates);
    destruct ((512 <=? block_size config) && (block_size config <=? 4096));
    change (block_size defaults) with 1024;
    change (sample_rate defaults) with 44100;
    change valid_sample_rates with [22050; 44100; 48000] in *;
    cbn [In] in *;
    intuition (try discriminate; try lia; auto).
Qed.

End Configuration.

(* ================================================================== *)
(** ** The device source *)
(* ================================================================== *)

Module Capture.
Import Py AudioCapture.

Lemma probes_logged_app l1 l2 :
  probes_logged (l1 ++ l2) = (probes_logged l1 ++ probes_logged l2)%list.
Proof. unfold probes_logged. apply flat_map_app. Qed.

Lemma state_eta (s : State) :
  mkState (config s) (logger s) (stream s) (is_running s) (device_name s) (sd_calls s) = s.
Proof. now destruct s. Qed.

(** *** One probe *)

Section Probing.
Variable sd : SoundDevice.
Variable str_lower : string -> string.

Ltac run_probe :=
  unfold _try_wasapi, try_except, try_except_cls, bind, log, modify, record_call,
    outcome, gets, ret, raise, sd_InputStream, set_stream, stream_start, get,
    sd_query_device, set_device_name, set_is_running,
    probe_effect, succeeds, probe, probe_stream, stream_params.

Ltac finish_probe :=
  eexists; split; [reflexivity|]; cbn;
  repeat (split; [reflexivity|]);
  eexists; split; [rewrite <- ?app_assoc; reflexivity | reflexivity].

(** The body of the loopback loop of [initialize]. *)
Lemma loopback_probe idx s :
  exists s',
    (ok <- _try_wasapi sd idx ;;
     if ok then set_is_running true ;; ret (Some true) else ret None) s
      = (Ret (if succeeds sd (config s) (Loopback, idx) then Some true else None), s') /\
    probe_effect sd (Loopback, idx) true s s'.
Proof.
  run_probe. cbn.
  destruct (wasapi_settings sd) as [e|]; cbn.
  - destruct (exn_class_eqb (exn_cls e) AttributeError); cbn; [|finish_probe].
    destruct (open_stream sd _) as [e1|]; cbn; [finish_probe|].
    destruct (start_stream sd _) as [e2|]; cbn; [finish_probe|].
    destruct (query_device sd idx) as [e3|d]; cbn; finish_probe.
  - destruct (open_stream sd _) as [e1|]; cbn; [finish_probe|].
    destruct (start_stream sd _) as [e2|]; cbn; [finish_probe|].
    destruct (query_device sd idx) as [e3|d]; cbn; finish_probe.
Qed.

(** The body of the loop of [_try_stereo_mix]. *)
Lemma plain_probe idx s :
  exists s',
    try_except
      (log (TryingStereoMix idx) ;;
       cfg <- gets config ;;
       st <- sd_InputStream sd
               {| device := idx;
                  samplerate := Config.sample_rate cfg;
                  stream_channels := Config.channels cfg;
                  blocksize := Config.block_size cfg;
                  dtype := "int16";
                  extra_settings := None |} ;;
       set_stream (Some st) ;;
       stream_start sd ;;
       device_info <- sd_query_device sd idx ;;
       set_device_name (name device_info) ;;
       log (StereoMixSuccess idx (name device_info)) ;;
       ret (Some true))
      (fun e => log (StereoMixFailed idx e) ;; ret None) s
      = (Ret (if succeeds sd (config s) (Plain, idx) then Some true else None), s') /\
    probe_effect sd (Plain, idx) false s s'.
Proof.
  run_probe. cbn.
  destruct (open_stream sd _) as [e1|]; cbn; [finish_probe|].
  destruct (start_stream sd _) as [e2|]; cbn; [finish_probe|].
  destruct (query_device sd idx) as [e3|d]; cbn; finish_probe.
Qed.

(** *** A loop of probes

    Both loops of the discovery go through their candidates with a body
    that probes one candidate and leaves the loop when the probe
    succeeds. *)
Section Loop.
Variable strategy : Strategy.
Variable sets_running : bool.
Variable body : nat -> M State (option bool).
Hypothesis body_spec :
  forall idx s, exists s',
    body idx s
      = (Ret (if succeeds sd (config s) (strategy, idx) then Some true else None), s') /\
    probe_effect sd (strategy, idx) sets_running s s'.

Lemma probe_loop (cands : list nat) :
  forall s, exists r s' new_log,
    for_return cands body s = (Ret r, s') /\
    config s' = config s /\
    logger s' = (logger s ++ new_log)%list /\
    match r with
    | Some b =>
        b = true /\
        exists tried idx rest p d,
          cands = (tried ++ idx :: rest)%list /\
          probes_logged new_log = map (pair strategy) (tried ++ [idx]) /\
          (forall i, In i tried -> succeeds sd (config s) (strategy, i) = false) /\
          probe sd (config s) (strategy, idx) = ProbeOk p d /\
          stream s' = Some (mkInputStream p true) /\
          device_name s' = name d /\
          is_running s' = (if sets_running then true else is_running s)
    | None =>
        probes_logged new_log = map (pair strategy) cands /\
        (forall i, In i cands -> succeeds sd (config s) (strategy, i) = false) /\
        stream s' = handle_after sd (config s) (map (pair strategy) cands) (stream s) /\
        device_name s' = device_name s /\
        is_running s' = is_running s
    end.
Proof.
  induction cands as [|idx cands IH]; intros s.
  - exists None, s, []. cbn. rewrite app_nil_r. repeat split; auto.
    intros i [].
  - cbn [for_return]. unfold bind at 1.
    destruct (body_spec idx s)
      as (s1 & Hrun & Hcfg & Hstream & Hname & Hflag & log1 & Hlog1 & Hp1).
    rewrite Hrun.
    unfold succeeds in *.
    destruct (probe sd (config s) (strategy, idx)) as [e|p e|p e|p e|p d] eqn:Hprobe;
      cbn in Hstream, Hname, Hflag |- *.
    5:{ (* the probe succeeds: the loop ends here *)
      exists (Some true), s1, log1. unfold ret.
      repeat split; auto.
      exists [], idx, cands, p, d. cbn.
      repeat split; auto.
      intros i []. }
    all: destruct (IH s1) as (r & s' & log2 & Hloop & Hcfg2 & Hlog2 & Hres);
      rewrite Hloop;
      exists r, s', (log1 ++ log2)%list;
      (split; [reflexivity|]);
      (split; [congruence|]);
      (split; [rewrite Hlog2, Hlog1, app_assoc; reflexivity|]);
      rewrite Hcfg in Hres;
      destruct r as [b|].
    all: try (destruct Hres as (Hb & tried & w & rest & p' & d' & Hc & Hp & Hf & Hok
                                & Hst & Hnm & Hfl);
              split; [exact Hb|];
              exists (idx :: tried), w, rest, p', d';
              rewrite probes_logged_app, Hp1, Hp; cbn;
              repeat split; auto; try congruence;
              [intros i [<-|Hi]; [now rewrite Hprobe | now apply Hf]
              | rewrite Hfl, Hflag; reflexivity]).
    all: destruct Hres as (Hp & Hf & Hst & Hnm & Hfl);
      rewrite probes_logged_app, Hp1, Hp; cbn;
      repeat split; auto; try congruence;
      [intros i [<-|Hi]; [now rewrite Hprobe | now apply Hf]
      | rewrite Hst, Hstream, Hprobe; reflexivity].
Qed.

End Loop.

(** *** [initialize] *)

Lemma log_lines {A} (f : A -> LogRecord) (l : list A) :
  forall s,
    for_each l (fun x => log (f x)) s =
      (Ret tt, mkState (config s) (logger s ++ map f l) (stream s)
                       (is_running s) (device_name s) (sd_calls s)).
Proof.
  induction l as [|x l IH]; intros s; cbn [for_each map].
  - unfold ret. now rewrite app_nil_r, state_eta.
  - unfold bind, log at 1, modify. rewrite IH. cbn.
    now rewrite <- app_assoc.
Qed.

Lemma list_devices_eq s :
  _list_devices sd s =
    (Ret (query_devices sd),
     mkState (config s)
             (logger s ++ AvailableDevices ::
                map (fun id => DeviceLine (fst id) (snd id))
                    (enumerate (query_devices sd)))
             (stream s) (is_running s) (device_name s)
             (sd_calls s ++ [CallQueryDevices])).
Proof.
  unfold _list_devices, bind, record_call, log at 1, modify.
  rewrite log_lines. cbn. now rewrite <- app_assoc.
Qed.

Lemma listing_no_probe (l : list (nat * DeviceInfo)) :
  probes_logged
    (AvailableDevices :: map (fun id => DeviceLine (fst id) (snd id)) l) = [].
Proof. cbn. induction l; cbn; auto. Qed.

Lemma handle_after_app cfg (l1 l2 : list Candidate) h :
  handle_after sd cfg (l1 ++ l2) h = handle_after sd cfg l2 (handle_after sd cfg l1 h).
Proof. unfold handle_after. apply fold_left_app. Qed.

(** What [initialize] does, in every environment and from every state:
    it returns normally; on [True] the running flag is set and the
    probes made are the candidates up to the first one that succeeds,
    which is the one the stream is open on; on [False] all candidates
    were probed, all failed, and the running flag and the device name
    are as before. *)
Lemma initialize_spec s :
  exists ok s' new_log,
    initialize sd str_lower s = (Ret ok, s') /\
    config s' = config s /\
    logger s' = (logger s ++ new_log)%list /\
    if ok then
      is_running s' = true /\
      exists tried c rest p d,
        candidates sd str_lower = (tried ++ c :: rest)%list /\
        probes_logged new_log = (tried ++ [c])%list /\
        (forall c', In c' tried -> succeeds sd (config s) c' = false) /\
        probe sd (config s) c = ProbeOk p d /\
        stream s' = Some (mkInputStream p true) /\
        device_name s' = name d
    else
      is_running s' = is_running s /\
      probes_logged new_log = candidates sd str_lower /\
      (forall c, In c (candidates sd str_lower) -> succeeds sd (config s) c = false) /\
      stream s' = handle_after sd (config s) (candidates sd str_lower) (stream s) /\
      device_name s' = device_name s.
Proof.
  unfold initialize. unfold bind at 1. rewrite list_devices_eq.
  unfold bind at 1.
  match goal with |- context [for_return ?cands ?b ?s1] =>
    destruct (probe_loop Loopback true b loopback_probe cands s1)
      as (r & s2 & log1 & Hloop & Hcfg & Hlog & Hres) end.
  rewrite Hloop. cbn [config logger stream is_running device_name] in *.
  destruct r as [b|].
  - (* a loopback candidate succeeded *)
    destruct Hres as (-> & tried & idx & rest & p & d & Hc & Hp & Hf & Hok
                      & Hst & Hnm & Hfl).
    exists true, s2. eexists. unfold ret.
    split; [reflexivity|]. split; [exact Hcfg|].
    split; [rewrite Hlog, <- app_assoc; reflexivity|].
    split; [exact Hfl|].
    exists (map (pair Loopback) tried), (Loopback, idx),
      (map (pair Loopback) rest ++
       map (pair Plain) (stereo_candidates str_lower (query_devices sd)))%list, p, d.
    split.
    { unfold candidates. rewrite Hc, map_app, <- app_assoc. reflexivity. }
    split.
    { rewrite probes_logged_app, listing_no_probe, Hp, map_app.
      reflexivity. }
    split.
    { intros c' Hin. apply in_map_iff in Hin. destruct Hin as (i & <- & Hi).
      now apply Hf. }
    auto.
  - (* fall back to Stereo Mix *)
    destruct Hres as (Hp & Hf & Hst & Hnm & Hfl).
    unfold bind at 1. unfold log at 1, modify.
    unfold _try_stereo_mix. unfold bind at 1. unfold bind at 1.
    match goal with |- context [for_return ?cands ?b ?s3] =>
      destruct (probe_loop Plain false b plain_probe cands s3)
        as (r & s4 & log2 & Hloop2 & Hcfg2 & Hlog2 & Hres2) end.
    rewrite Hloop2. cbn [config logger stream is_running device_name] in *.
    rewrite Hcfg in *.
    destruct r as [b|].
    + destruct Hres2 as (-> & tried & idx & rest & p & d & Hc2 & Hp2 & Hf2 & Hok2
                         & Hst2 & Hnm2 & Hfl2).
      unfold ret, set_is_running, bind, modify. cbn.
      eexists true, _, _.
      split; [reflexivity|]. cbn.
      split; [exact Hcfg2|].
      split; [rewrite Hlog2, Hlog, <- !app_assoc; reflexivity|].
      split; [reflexivity|].
      exists (map (pair Loopback) (out_candidates (query_devices sd)) ++
              map (pair Plain) tried)%list, (Plain, idx), (map (pair Plain) rest), p, d.
      split.
      { unfold candidates. rewrite Hc2, map_app, <- app_assoc. reflexivity. }
      split.
      { rewrite !probes_logged_app, listing_no_probe, Hp, Hp2, map_app.
        cbn. rewrite <- app_assoc. reflexivity. }
      split.
      { intros c' Hin. apply in_app_or in Hin. destruct Hin as [Hin|Hin];
          apply in_map_iff in Hin; destruct Hin as (i & <- & Hi); auto. }
      auto.
    + destruct Hres2 as (Hp2 & Hf2 & Hst2 & Hnm2 & Hfl2).
      unfold ret, bind, log, modify. cbn.
      eexists false, _, _.
      split; [reflexivity|]. cbn.
      split; [exact Hcfg2|].
      split; [rewrite Hlog2, Hlog, <- !app_assoc; reflexivity|].
      split; [congruence|].
      split.
      { rewrite !probes_logged_app, listing_no_probe, Hp, Hp2.
        cbn. rewrite app_nil_r. reflexivity. }
      split.
      { intros c' Hin. apply in_app_or in Hin. destruct Hin as [Hin|Hin];
          apply in_map_iff in Hin; destruct Hin as (i & <- & Hi); auto. }
      split.
      { unfold candidates. rewrite handle_after_app, Hst2, Hst. reflexivity. }
      congruence.
Qed.

Lemma handle_after_unopened cfg (cs : list Candidate) h :
  (forall c, In c cs -> fails_unopened sd cfg c = true) ->
  handle_after sd cfg cs h = h.
Proof.
  unfold handle_after, fails_unopened.
  revert h. induction cs as [|c cs IH]; intros h Hall; [reflexivity|].
  cbn [fold_left]. assert (Hc := Hall c (or_introl eq_refl)).
  destruct (probe sd cfg c); try discriminate; cbn;
    apply IH; intros c' Hin; apply Hall; now right.
Qed.

Lemma handle_after_keeps cfg (cs : list Candidate) h :
  h <> None -> handle_after sd cfg cs h <> None.
Proof.
  unfold handle_after. revert h.
  induction cs as [|c cs IH]; intros h Hh; [exact Hh|].
  cbn [fold_left]. apply IH.
  destruct (probe sd cfg c); cbn; congruence.
Qed.


Lemma initialize_consistent s :
  consistent s -> consistent (snd (initialize sd str_lower s)).
Proof.
  intros Hs.
  destruct (initialize_spec s) as (ok & s' & new_log & Hrun & _ & _ & Hres).
  rewrite Hrun. cbn [snd]. unfold consistent in *.
  destruct ok.
  - destruct Hres as (_ & tried & c & rest & p & d & _ & _ & _ & _ & Hst & _).
    rewrite Hst. discriminate.
  - destruct Hres as (Hfl & _ & _ & Hst & _).
    rewrite Hfl, Hst. intros H. now apply handle_after_keeps, Hs.
Qed.

End Probing.




(** C3, as stated, fails: a probe that raises after its stream object
    was constructed leaves that stream in [self.stream].  On a machine
    where every stream opens but none starts, no candidate succeeds and
    [initialize] returns [False], yet the stream opened last is kept
    (constructed, not started). *)
Lemma failed_initialize_keeps_handle_counterexample :
  let sd := Fixtures.never_starts [Fixtures.speakers; Fixtures.stereo_mix] in
  let s := __init__ Config.defaults in
  let s' := snd (initialize sd Fixtures.ascii_lower s) in
  forallb (fun c => negb (succeeds sd (config s) c))
          (candidates sd Fixtures.ascii_lower) = true /\
  fst (initialize sd Fixtures.ascii_lower s) = Ret false /\
  is_running s' = false /\
  stream s' =
    Some (mkInputStream (stream_params Config.defaults 1%nat None) false) /\
  stream s' <> None.
Proof. vm_compute. repeat split; discriminate. Qed.

(** C3, amended. In every environment in which no candidate succeeds
    under either strategy, [initialize] on a device source that is not
    running returns [False] after probing every candidate; the running
    flag is still false and the device name and configuration are
    unchanged.  The handle field holds what the probes left there: it is
    as before the call (empty, if it was empty) when every probe failed
    before its stream object existed, and otherwise it holds the stream
    constructed last. *)
Theorem failed_initialize_leaves_source_stopped :
  forall (sd : SoundDevice) (str_lower : string -> string) (s : State),
    is_running s = false ->
    (forall c, In c (candidates sd str_lower) -> succeeds sd (config s) c = false) ->
    exists s' new_log,
      initialize sd str_lower s = (Ret false, s') /\
      is_running s' = false /\
      device_name s' = device_name s /\
      config s' = config s /\
      logger s' = (logger s ++ new_log)%list /\
      probes_logged new_log = candidates sd str_lower /\
      stream s' = handle_after sd (config s) (candidates sd str_lower) (stream s) /\
      ((forall c, In c (candidates sd str_lower) ->
                  fails_unopened sd (config s) c = true) ->
       stream s' = stream s).
Proof.
  intros sd str_lower s Hoff Hnone.
  destruct (initialize_spec sd str_lower s)
    as (ok & s' & new_log & Hrun & Hcfg & Hlog & Hres).
  destruct ok.
  - destruct Hres as (_ & tried & c & rest & p & d & Hc & _ & _ & Hpr & _).
    assert (Hin : In c (candidates sd str_lower)).
    { rewrite Hc. apply in_or_app. right. now left. }
    specialize (Hnone c Hin). unfold succeeds in Hnone.
    rewrite Hpr in Hnone. discriminate.
  - destruct Hres as (Hfl & Hp & _ & Hst & Hnm).
    exists s', new_log.
    repeat split; try assumption; try congruence.
    intros Hunopened. rewrite Hst. now apply handle_after_unopened.
Qed.

Lemma failed_initialize_leaves_source_stopped_witness :
  exists s',
    initialize (Fixtures.no_loopback [Fixtures.speakers]) Fixtures.ascii_lower
               (__init__ Config.defaults) = (Ret false, s') /\
    is_running s' = false /\
    device_name s' = "Unknown" /\
    stream s' = None.
Proof.
  destruct (failed_initialize_leaves_source_stopped
              (Fixtures.no_loopback [Fixtures.speakers]) Fixtures.ascii_lower
              (__init__ Config.defaults))
    as (s' & new_log & Hrun & Hfl & Hnm & _ & _ & _ & _ & Hst).
  - reflexivity.
  - intros c [<-|[]]. reflexivity.
  - exists s'. repeat split; try assumption.
    apply Hst. intros c [<-|[]]. reflexivity.
Defined.

(** C8. When the enumeration yields no candidate for either strategy (in
    particular when it yields no device), [initialize] on a device
    source that is not running returns [False], and the snapshot
    [get_device_info()] taken afterwards reports [is_running] false.  No
    device was probed and the handle field is as before. *)
Theorem initialize_without_candidates :
  forall (sd : SoundDevice) (str_lower : string -> string) (s : State),
    is_running s = false ->
    candidates sd str_lower = [] ->
    exists s' info new_log,
      initialize sd str_lower s = (Ret false, s') /\
      get_device_info s' = (Ret info, s') /\
      info_is_running info = false /\
      stream s' = stream s /\
      logger s' = (logger s ++ new_log)%list /\
      probes_logged new_log = [].
Proof.
  intros sd str_lower s Hoff Hnone.
  destruct (initialize_spec sd str_lower s)
    as (ok & s' & new_log & Hrun & Hcfg & Hlog & Hres).
  destruct ok.
  - destruct Hres as (_ & tried & c & rest & p & d & Hc & _).
    rewrite Hnone in Hc. destruct tried; discriminate.
  - destruct Hres as (Hfl & Hp & _ & Hst & _).
    rewrite Hnone in Hp, Hst.
    eexists s', _, new_log.
    split; [exact Hrun|].
    split; [reflexivity|]. cbn.
    repeat split; try assumption; congruence.
Qed.

Lemma initialize_without_candidates_witness :
  exists s' info,
    initialize (Fixtures.healthy []) Fixtures.ascii_lower
               (__init__ Config.defaults) = (Ret false, s') /\
    get_device_info s' = (Ret info, s') /\
    info_is_running info = false.
Proof.
  destruct (initialize_without_candidates (Fixtures.healthy [])
              Fixtures.ascii_lower (__init__ Config.defaults) eq_refl eq_refl)
    as (s' & info & new_log & Hrun & Hinfo & Hoff & _).
  exists s', info. repeat split; assumption.
Defined.

(** *** [stop] *)

(** [stop] returns normally whatever the stream does; afterwards no
    stream is held, and the running flag is down if one was held. *)
Lemma stop_spec (sd : SoundDevice) (s : State) :
  exists s' new_log,
    stop sd s = (Ret tt, s') /\
    stream s' = None /\
    is_running s' = (match stream s with Some _ => false | None => is_running s end) /\
    config s' = config s /\
    device_name s' = device_name s /\
    logger s' = (logger s ++ new_log ++ [Stopped])%list.
Proof.
  unfold stop, bind, get, try_finally, try_except, record_call, outcome,
    modify, log, set_stream, set_is_running, ret, raise.
  destruct (stream s) as [st|] eqn:Hst; cbn.
  - destruct (stop_stream sd (params st)) as [e|]; cbn.
    + eexists _, [StopError e]. split; [reflexivity|]. cbn.
      rewrite <- app_assoc. auto.
    + destruct (close_stream sd (params st)) as [e|]; cbn.
      * eexists _, [StopError e]. split; [reflexivity|]. cbn.
        rewrite <- app_assoc. auto.
      * eexists _, []. split; [reflexivity|]. cbn. auto.
  - eexists _, []. split; [reflexivity|]. cbn. auto.
Qed.

(** With no stream held, [stop] only writes its log line. *)
Lemma stop_idle (sd : SoundDevice) (s : State) :
  stream s = None ->
  stop sd s =
    (Ret tt, mkState (config s) (logger s ++ [Stopped]) None
                     (is_running s) (device_name s) (sd_calls s)).
Proof.
  intros Hst. unfold stop, bind, get, log, modify, ret.
  rewrite Hst. cbn. now rewrite Hst.
Qed.

Lemma stop_consistent (sd : SoundDevice) (s : State) :
  consistent s -> consistent (snd (stop sd s)).
Proof.
  intros Hs.
  destruct (stop_spec sd s) as (s' & new_log & Hrun & Hst & Hfl & _).
  rewrite Hrun. cbn [snd]. unfold consistent in *. rewrite Hfl.
  destruct (stream s); [discriminate|].
  intros H. exfalso. now apply Hs.
Qed.

(** *** [read_block] *)

Lemma read_block_eq (sd : SoundDevice) (s : State) :
  read_block sd s =
    match stream s with
    | None => (Ret None, s)
    | Some st =>
        if is_running s then
          match read_stream sd (params st) (Config.block_size (config s)) with
          | inl e =>
              (Ret None,
               mkState (config s) (logger s ++ [ReadError e]) (stream s)
                       (is_running s) (device_name s)
                       (sd_calls s ++ [CallRead (params st) (Config.block_size (config s))]))
          | inr sample =>
              (Ret (Some (tobytes
                       (map (fun i => map (sample i)
                               (seq 0 (Z.to_nat (stream_channels (params st)))))
                            (seq 0 (Z.to_nat (Config.block_size (config s))))))),
               mkState (config s) (logger s) (stream s)
                       (is_running s) (device_name s)
                       (sd_calls s ++ [CallRead (params st) (Config.block_size (config s))]))
          end
        else (Ret None, s)
    end.
Proof.
  unfold read_block, bind, get, try_except, stream_read, record_call, modify,
    log, ret, raise.
  destruct (stream s) as [st|] eqn:Hst; [|reflexivity].
  destruct (is_running s) eqn:Hfl; cbn; [|reflexivity].
  destruct (read_stream sd (params st) (Config.block_size (config s))); cbn;
    rewrite ?Hst, ?Hfl; reflexivity.
Qed.

Lemma read_block_keeps_handle (sd : SoundDevice) (s : State) :
  stream (snd (read_block sd s)) = stream s /\
  is_running (snd (read_block sd s)) = is_running s.
Proof.
  rewrite read_block_eq.
  destruct (stream s) as [st|] eqn:Hst;
    [destruct (is_running s) eqn:Hfl;
     [destruct (read_stream sd (params st) (Config.block_size (config s)))|]|];
    cbn; rewrite ?Hst, ?Hfl; auto.
Qed.

Lemma read_block_consistent (sd : SoundDevice) (s : State) :
  consistent s -> consistent (snd (read_block sd s)).
Proof.
  unfold consistent. destruct (read_block_keeps_handle sd s) as [-> ->]. auto.
Qed.

(** Every state an [AudioCapture] goes through is consistent. *)
Lemma reachable_consistent (s : State) : reachable s -> consistent s.
Proof.
  induction 1.
  - unfold consistent. cbn. discriminate.
  - now apply initialize_consistent.
  - now apply read_block_consistent.
  - now apply stop_consistent.
  - unfold reinitialize, bind. unfold log at 1, modify.
    match goal with |- context [stop sd ?s0] =>
      assert (Hs0 : consistent s0) by exact IHreachable;
      assert (Hstop := stop_consistent sd s0 Hs0);
      destruct (stop_spec sd s0) as (s1 & new_log & Hrun & _) end.
    rewrite Hrun in *. cbn [snd] in Hstop.
    now apply initialize_consistent.
Qed.

(** C7. From every state a device source can be in (a freshly
    constructed one included), [stop] returns normally, and so does a
    second [stop] right after it.  After the first call the source is
    not running and holds no stream; the second call changes neither
    that nor the device name, the configuration or the snapshot of
    [get_device_info()], makes no call into the audio library, and only
    writes its log line again. *)
Theorem stop_is_idempotent :
  forall (sd sd' : SoundDevice) (s : State),
    reachable s ->
    exists s1 s2,
      stop sd s = (Ret tt, s1) /\
      stop sd' s1 = (Ret tt, s2) /\
      stream s1 = None /\ is_running s1 = false /\
      stream s2 = None /\ is_running s2 = false /\
      device_name s2 = device_name s1 /\
      config s2 = config s1 /\
      sd_calls s2 = sd_calls s1 /\
      logger s2 = (logger s1 ++ [Stopped])%list /\
      fst (get_device_info s2) = fst (get_device_info s1).
Proof.
  intros sd sd' s Hreach.
  assert (Hs := reachable_consistent s Hreach).
  destruct (stop_spec sd s) as (s1 & new_log & Hrun & Hst & Hfl & _).
  assert (Hoff : is_running s1 = false).
  { rewrite Hfl. destruct (stream s) eqn:E; [reflexivity|].
    destruct (is_running s) eqn:F; [|reflexivity].
    exfalso. now apply Hs. }
  exists s1. eexists.
  split; [exact Hrun|].
  split; [now apply stop_idle|].
  cbn. unfold get_device_info, gets. cbn.
  rewrite Hoff. repeat split; auto.
Qed.

Lemma stop_is_idempotent_witness :
  exists s s1 s2,
    initialize (Fixtures.healthy [Fixtures.speakers; Fixtures.stereo_mix])
               Fixtures.ascii_lower (__init__ Config.defaults) = (Ret true, s) /\
    stream s =
      Some (mkInputStream
              (stream_params Config.defaults 0%nat (Some (mkWasapiSettings true)))
              true) /\
    is_running s = true /\
    stop (Fixtures.healthy [Fixtures.speakers; Fixtures.stereo_mix]) s = (Ret tt, s1) /\
    stop (Fixtures.healthy [Fixtures.speakers; Fixtures.stereo_mix]) s1 = (Ret tt, s2) /\
    stream s1 = None /\ is_running s1 = false /\
    stream s2 = None /\ is_running s2 = false /\
    sd_calls s2 = sd_calls s1 /\
    logger s2 = (logger s1 ++ [Stopped])%list.
Proof.
  pose (sd := Fixtures.healthy [Fixtures.speakers; Fixtures.stereo_mix]).
  pose (s := snd (initialize sd Fixtures.ascii_lower (__init__ Config.defaults))).
  assert (Hinit : initialize sd Fixtures.ascii_lower (__init__ Config.defaults)
                  = (Ret true, s)) by (vm_compute; reflexivity).
  assert (Hst : stream s =
                Some (mkInputStream
                        (stream_params Config.defaults 0%nat
                           (Some (mkWasapiSettings true))) true))
    by (vm_compute; reflexivity).
  assert (Hon : is_running s = true) by (vm_compute; reflexivity).
  destruct (stop_is_idempotent sd sd s
              (reach_initialize sd Fixtures.ascii_lower _
                 (reach_init Config.defaults)))
    as (s1 & s2 & H1 & H2 & Hst1 & Hfl1 & Hst2 & Hfl2 & _ & _ & Hcalls & Hlog & _).
  exists s, s1, s2.
  split; [exact Hinit|]. split; [exact Hst|]. split; [exact Hon|].
  split; [exact H1|]. split; [exact H2|].
  repeat split; assumption.
Defined.

(** *** The size of a block *)

Lemma int16_bytes_length z : List.length (int16_bytes z) = 2%nat.
Proof. reflexivity. Qed.

Lemma row_bytes_length (row : list Z) :
  List.length (flat_map int16_bytes row) = (2 * List.length row)%nat.
Proof.
  induction row as [|z row IH]; [reflexivity|].
  cbn [flat_map]. rewrite length_app, IH, int16_bytes_length. cbn. lia.
Qed.

Lemma tobytes_length (frames : ndarray) (ch : nat) :
  Forall (fun row => List.length row = ch) frames ->
  List.length (tobytes frames) = (List.length frames * ch * 2)%nat.
Proof.
  unfold tobytes. induction 1 as [|row frames Hrow _ IH]; [reflexivity|].
  cbn [flat_map]. rewrite length_app, IH, row_bytes_length, Hrow. cbn. lia.
Qed.

Lemma read_array_bytes (sample : nat -> nat -> Z) (n ch : nat) :
  List.length (tobytes (map (fun i => map (sample i) (seq 0 ch)) (seq 0 n)))
    = (n * ch * 2)%nat.
Proof.
  rewrite (tobytes_length _ ch).
  - now rewrite length_map, length_seq.
  - apply Forall_forall. intros row Hin. apply in_map_iff in Hin.
    destruct Hin as (i & <- & _). now rewrite length_map, length_seq.
Qed.

(** C4. [read_block] never raises.  It returns nothing exactly when no
    stream is held, or the source is not running, or the read on the
    stream raises.  After a successful [initialize] under a valid
    configuration (sample rate among 22050, 44100, 48000; block size
    within 512..4096; a channel count that is not negative) the stream
    is held and running, so a read that succeeds yields a buffer of
    exactly block_size * channels * 2 bytes, and a read that raises
    yields nothing. *)
Theorem read_block_returns_full_block_or_nothing :
  forall (sd sd' : SoundDevice) (str_lower : string -> string) (s s1 : State),
    Config.capture_invariant (config s) ->
    0 <= Config.channels (config s) ->
    initialize sd str_lower s = (Ret true, s1) ->
    (exists st r s2,
        stream s1 = Some st /\ is_running s1 = true /\
        read_block sd' s1 = (Ret r, s2) /\
        match read_stream sd' (params st) (Config.block_size (config s1)) with
        | inr _ =>
            exists block,
              r = Some block /\
              Z.of_nat (List.length block) =
                Config.block_size (config s1) * Config.channels (config s1) * 2
        | inl _ => r = None
        end) /\
    (forall s0 : State,
        exists r s',
          read_block sd' s0 = (Ret r, s') /\
          (r = None <->
           stream s0 = None \/ is_running s0 = false \/
           exists st e,
             stream s0 = Some st /\
             read_stream sd' (params st) (Config.block_size (config s0)) = inl e)).
Proof.
  intros sd sd' str_lower s s1 [_ Hblock] Hch Hinit. split.
  - destruct (initialize_spec sd str_lower s)
      as (ok & s1' & new_log & Hrun & Hcfg & _ & Hres).
    rewrite Hinit in Hrun. injection Hrun as <- <-.
    destruct Hres as (Hfl & tried & c & rest & p & d & _ & _ & _ & Hpr & Hst & _).
    assert (Hp : stream_channels p = Config.channels (config s)).
    { unfold probe, probe_stream in Hpr.
      repeat match type of Hpr with
             | match ?x with _ => _ end = _ => destruct x
             | (if ?x then _ else _) = _ => destruct x
             end; try discriminate; injection Hpr as <- _; reflexivity. }
    exists (mkInputStream p true).
    rewrite read_block_eq, Hst, Hfl, Hcfg. cbn [params].
    destruct (read_stream sd' p (Config.block_size (config s))) as [e|sample].
    + eexists _, _. repeat split; reflexivity.
    + eexists _, _. split; [reflexivity|]. split; [reflexivity|].
      split; [reflexivity|].
      eexists. split; [reflexivity|].
      rewrite read_array_bytes, Hp. lia.
  - intros s0. rewrite read_block_eq.
    destruct (stream s0) as [st|] eqn:Hst.
    2:{ eexists _, _. split; [reflexivity|]. split; auto. }
    destruct (is_running s0) eqn:Hfl.
    2:{ eexists _, _. split; [reflexivity|]. split; auto. }
    destruct (read_stream sd' (params st) (Config.block_size (config s0)))
      as [e|sample] eqn:Hread.
    + eexists _, _. split; [reflexivity|]. split; [|reflexivity].
      intros _. right. right. exists st, e. auto.
    + eexists _, _. split; [reflexivity|]. split; [discriminate|].
      intros [H|[H|(st' & e & Hst' & He)]]; try discriminate.
      injection Hst' as <-. congruence.
Qed.

Lemma read_block_returns_full_block_or_nothing_witness :
  exists s1 block s2,
    initialize (Fixtures.healthy [Fixtures.speakers; Fixtures.stereo_mix])
               Fixtures.ascii_lower (__init__ Config.defaults) = (Ret true, s1) /\
    read_block (Fixtures.healthy [Fixtures.speakers; Fixtures.stereo_mix]) s1
      = (Ret (Some block), s2) /\
    Z.of_nat (List.length block) = 1024 * 2 * 2.
Proof.
  pose (sd := Fixtures.healthy [Fixtures.speakers; Fixtures.stereo_mix]).
  pose (s1 := snd (initialize sd Fixtures.ascii_lower (__init__ Config.defaults))).
  assert (Hinit : initialize sd Fixtures.ascii_lower (__init__ Config.defaults)
                  = (Ret true, s1)) by (vm_compute; reflexivity).
  assert (Hvalid : Config.capture_invariant (config (__init__ Config.defaults))).
  { split; [right; left; reflexivity | cbn; lia]. }
  assert (Hch : 0 <= Config.channels (config (__init__ Config.defaults)))
    by (cbn; lia).
  destruct (read_block_returns_full_block_or_nothing sd sd Fixtures.ascii_lower
              (__init__ Config.defaults) s1 Hvalid Hch Hinit)
    as [(st & r & s2 & Hst & Hfl & Hread & Hres) _].
  change (read_stream sd (params st) (Config.block_size (config s1)))
    with (@inr exn _ Fixtures.ramp) in Hres.
  destruct Hres as (block & -> & Hlen).
  change (Config.block_size (config s1)) with 1024 in Hlen.
  change (Config.channels (config s1)) with 2 in Hlen.
  exists s1, block, s2.
  split; [exact Hinit|]. split; [exact Hread|]. exact Hlen.
Defined.

End Capture.

(* ================================================================== *)
(** ** More facts about dicts *)
(* ================================================================== *)

Section DictFilter.
Context {V : Type}.
Implicit Types (d : Dict.t V) (k : string) (v : V).

Lemma dict_set_absent d k v :
  Dict.contains d k = false -> Dict.set d k v = (d ++ [(k, v)])%list.
Proof.
  unfold Dict.contains.
  induction d as [|[k0 v0] d IH]; simpl; [reflexivity|].
  destruct (String.eqb_spec k0 k); [discriminate|].
  intros H. now rewrite IH.
Qed.

Lemma dict_keys_filter_subset (p : string * V -> bool) d x :
  In x (Dict.keys (filter p d)) -> In x (Dict.keys d).
Proof.
  unfold Dict.keys. intros H. apply in_map_iff in H.
  destruct H as (item & <- & Hin). apply filter_In in Hin.
  apply in_map. tauto.
Qed.

Lemma dict_wf_filter (p : string * V -> bool) d :
  Dict.wf d -> Dict.wf (filter p d).
Proof.
  unfold Dict.wf.
  induction d as [|[k0 v0] d IH]; simpl; [trivial|].
  intros Hnd. inversion Hnd as [|? ? Hni Hnd']; subst.
  destruct (p (k0, v0)); simpl; [|auto].
  constructor; [|auto].
  intros Hin. apply Hni. eapply dict_keys_filter_subset; eauto.
Qed.

(** With unique keys, deleting a key is filtering it out. *)
Lemma dict_del_filter d k :
  Dict.wf d ->
  Dict.del d k = filter (fun item => negb (fst item =? k)%string) d.
Proof.
  unfold Dict.wf.
  induction d as [|[k0 v0] d IH]; simpl; [reflexivity|].
  intros Hnd. inversion Hnd as [|? ? Hni Hnd']; subst.
  destruct (String.eqb_spec k0 k) as [->|Hne]; simpl.
  - symmetry. apply forallb_filter_id. apply forallb_forall.
    intros [k1 v1] Hin. simpl.
    destruct (String.eqb_spec k1 k) as [->|]; [|reflexivity].
    exfalso. apply Hni. change k with (fst (k, v1)). now apply in_map.
  - now rewrite IH.
Qed.

Lemma dict_del_all_filter (ids : list string) :
  forall d, Dict.wf d ->
    fold_left Dict.del ids d =
      filter (fun item => negb (existsb (String.eqb (fst item)) ids)) d.
Proof.
  induction ids as [|k ids IH]; intros d Hwf; simpl.
  - symmetry. apply forallb_filter_id. apply forallb_forall. reflexivity.
  - rewrite IH by now apply dict_wf_del.
    rewrite dict_del_filter by assumption.
    clear. induction d as [|[k0 v0] d IHd]; simpl; [reflexivity|].
    destruct (String.eqb_spec k0 k); simpl; [exact IHd|].
    destruct (existsb (String.eqb k0) ids); simpl; [exact IHd|].
    now rewrite IHd.
Qed.

Lemma dict_get_filter (p : string * V -> bool) d k :
  Dict.wf d ->
  Dict.get (filter p d) k =
    match Dict.get d k with
    | Some v => if p (k, v) then Some v else None
    | None => None
    end.
Proof.
  unfold Dict.wf.
  induction d as [|[k0 v0] d IH]; simpl; [reflexivity|].
  intros Hnd. inversion Hnd as [|? ? Hni Hnd']; subst.
  destruct (String.eqb_spec k0 k) as [->|Hne].
  - destruct (p (k, v0)) eqn:Hp; simpl.
    + now rewrite String.eqb_refl.
    + apply dict_get_none. intros Hin. apply Hni.
      eapply dict_keys_filter_subset; eauto.
  - destruct (p (k0, v0)); simpl; [|auto].
    destruct (String.eqb_spec k0 k); [contradiction | auto].
Qed.

Lemma dict_in_unique d k v v' :
  Dict.wf d -> In (k, v) d -> In (k, v') d -> v = v'.
Proof.
  intros Hwf H1 H2.
  apply (dict_in_get d k v Hwf) in H1. apply (dict_in_get d k v' Hwf) in H2.
  congruence.
Qed.

Lemma dict_get_in d k v : Dict.get d k = Some v -> In (k, v) d.
Proof.
  induction d as [|[k0 v0] d IH]; simpl; [discriminate|].
  destruct (String.eqb_spec k0 k) as [->|Hne].
  - intros [= ->]. now left.
  - intros H. right. auto.
Qed.

Lemma dict_forall_set (P : string * V -> Prop) d k v :
  Forall P d -> P (k, v) -> Forall P (Dict.set d k v).
Proof.
  induction 1 as [|[k0 v0] d H0 Hd IH]; intros Hkv; simpl.
  - constructor; [assumption | constructor].
  - destruct (String.eqb_spec k0 k); constructor; auto.
Qed.

Lemma dict_forall_del (P : string * V -> Prop) d k :
  Forall P d -> Forall P (Dict.del d k).
Proof.
  induction 1 as [|[k0 v0] d H0 Hd IH]; simpl; [constructor|].
  destruct (String.eqb_spec k0 k); [assumption | constructor; auto].
Qed.

End DictFilter.

(* ================================================================== *)
(** ** More about the session registry *)
(* ================================================================== *)

Module RegistryMore.
Import Py ConnectionManager Sessions.

(** *** Removing sessions *)

Lemma remove_loop_spec (ids : list string) :
  forall s, exists s',
    for_each ids remove_client s = (Ret tt, s') /\
    clients s' = fold_left Dict.del ids (clients s) /\
    total_served s' = total_served s /\
    clock_reads s' = clock_reads s /\
    wire s' = wire s.
Proof.
  induction ids as [|client_id ids IH]; intros s.
  - exists s. cbn. auto.
  - cbn [for_each fold_left]. unfold bind. rewrite Registry.remove_client_eq.
    match goal with |- context [for_each ids _ ?s0] =>
      destruct (IH s0) as (s' & Hrun & Hc & Ht & Hk & Hw) end.
    exists s'. rewrite Hrun, Hc, Ht, Hk, Hw.
    destruct (Dict.contains (clients s) client_id) eqn:E; cbn.
    + auto.
    + rewrite dict_del_absent by assumption. auto.
Qed.

(** X1. Removing an identity twice is removing it once: after the first
    [remove_client] the identity is not registered and a second call
    changes nothing, not even the log; removing an identity that is not
    registered changes nothing at all. *)
Theorem remove_client_is_idempotent :
  forall (client_id : string) (s : State),
    Dict.wf (clients s) ->
    exists s1,
      remove_client client_id s = (Ret tt, s1) /\
      Dict.get (clients s1) client_id = None /\
      remove_client client_id s1 = (Ret tt, s1) /\
      (Dict.contains (clients s) client_id = false -> s1 = s) /\
      (forall other, other <> client_id ->
                     Dict.get (clients s1) other = Dict.get (clients s) other).
Proof.
  intros client_id s Hwf.
  eexists. split; [apply Registry.remove_client_eq|].
  destruct (Dict.contains (clients s) client_id) eqn:E.
  - assert (Hgone : Dict.get (Dict.del (clients s) client_id) client_id = None)
      by now apply dict_get_del_eq.
    cbn [clients]. split; [exact Hgone|].
    split.
    { rewrite Registry.remove_client_eq. cbn [clients].
      unfold Dict.contains. now rewrite Hgone. }
    split; [discriminate|].
    intros other Hne. apply dict_get_del_ne. congruence.
  - split.
    { unfold Dict.contains in E. now destruct (Dict.get (clients s) client_id). }
    split; [rewrite Registry.remove_client_eq, E; reflexivity|].
    auto.
Qed.

Lemma remove_client_is_idempotent_witness :
  exists s1,
    remove_client "192.168.1.11:50002" Fixtures.three_clients = (Ret tt, s1) /\
    Dict.get (clients s1) "192.168.1.11:50002" = None /\
    remove_client "192.168.1.11:50002" s1 = (Ret tt, s1).
Proof.
  assert (Hwf : Dict.wf (clients Fixtures.three_clients)).
  { unfold Dict.wf. simpl.
    repeat (constructor; [simpl; intuition discriminate|]). constructor. }
  destruct (remove_client_is_idempotent "192.168.1.11:50002"
              Fixtures.three_clients Hwf) as (s1 & H1 & H2 & H3 & _).
  exists s1. repeat split; assumption.
Defined.

(** X2. Adding a connection whose identity is not registered appends a
    fresh session (zero counter, both timestamps the same clock reading)
    at the end of the registry and leaves every other session as it was;
    [connected_count] and [total_served] both grow by one and no call is
    made on any transport. *)
Theorem add_client_registers_new_identity :
  forall (wall_clock : nat -> Z) (s : State) (ws : WebSocket),
    Dict.contains (clients s) (client_id_of ws) = false ->
    exists s',
      add_client wall_clock ws s = (Ret (client_id_of ws), s') /\
      clients s' =
        (clients s ++
         [(client_id_of ws,
           mkClientInfo ws (wall_clock (clock_reads s))
                        (wall_clock (clock_reads s)) (client_id_of ws) 0)])%list /\
      connected_count s' = connected_count s + 1 /\
      total_served s' = total_served s + 1 /\
      wire s' = wire s.
Proof.
  intros wall_clock s ws Habs.
  eexists. split; [apply Registry.add_client_eq|].
  cbn [clients total_served wire]. unfold connected_count. cbn [clients].
  rewrite dict_len_set_absent by assumption.
  rewrite dict_set_absent by assumption. auto.
Qed.

Lemma add_client_registers_new_identity_witness :
  exists s',
    add_client Fixtures.clock Fixtures.bob Fixtures.one_client
      = (Ret "192.168.1.11:50002", s') /\
    connected_count s' = 2 /\ total_served s' = 2.
Proof.
  destruct (add_client_registers_new_identity Fixtures.clock Fixtures.one_client
              Fixtures.bob eq_refl) as (s' & Hrun & _ & Hc & Ht & _).
  exists s'. repeat split; assumption.
Defined.

(** *** [broadcast], whatever fails *)

Section Broadcast.
Variable wall_clock : nat -> Z.
Variable send_result : WebSocket -> list byte -> option exn.
Variable data : list byte.

Lemma in_failed_of (items : list (string * ClientInfo)) (id : string) :
  In id (failed_of send_result data items) <->
  exists c, In (id, c) items /\ send_result (websocket c) data <> None.
Proof.
  induction items as [|[k0 c0] items IH]; cbn [failed_of].
  - split; [intros [] | intros (c & [] & _)].
  - destruct (send_result (websocket c0) data) as [e|] eqn:E.
    + split.
      * intros [<-|Hin].
        -- exists c0. split; [now left | now rewrite E].
        -- apply IH in Hin. destruct Hin as (c & Hin & Hf).
           exists c. split; [now right | assumption].
      * intros (c & [Heq|Hin] & Hf).
        -- inversion Heq; subst. now left.
        -- right. apply IH. eauto.
    + rewrite IH. split.
      * intros (c & Hin & Hf). exists c. split; [now right | assumption].
      * intros (c & [Heq|Hin] & Hf).
        -- inversion Heq; subst. congruence.
        -- eauto.
Qed.

Lemma in_swept (items : list (string * ClientInfo)) :
  forall n id c',
    In (id, c') (swept wall_clock send_result data items n) ->
    exists c, In (id, c) items /\ websocket c' = websocket c /\
              address c' = address c /\ packets_sent c <= packets_sent c'.
Proof.
  induction items as [|[k0 c0] items IH]; intros n id c'; cbn [swept]; [intros []|].
  destruct (send_result (websocket c0) data); intros [Heq|Hin].
  - inversion Heq; subst. exists c'. repeat split; [now left | lia].
  - destruct (IH _ _ _ Hin) as (c & Hc & Hw). exists c. split; [now right | assumption].
  - inversion Heq; subst. exists c0. cbn. repeat split; [now left | lia].
  - destruct (IH _ _ _ Hin) as (c & Hc & Hw). exists c. split; [now right | assumption].
Qed.

Lemma swept_filter_keys (items : list (string * ClientInfo)) :
  forall n,
    Dict.keys (filter (delivered send_result data)
                      (swept wall_clock send_result data items n)) =
    Dict.keys (filter (delivered send_result data) items).
Proof.
  unfold Dict.keys.
  induction items as [|[k0 c0] items IH]; intros n; [reflexivity|].
  cbn [swept].
  destruct (send_result (websocket c0) data) as [e|] eqn:E.
  - assert (H0 : delivered send_result data (k0, c0) = false)
      by (unfold delivered; cbn; now rewrite E).
    cbn [filter]. rewrite H0. apply IH.
  - assert (H0 : delivered send_result data (k0, c0) = true)
      by (unfold delivered; cbn; now rewrite E).
    assert (H1 : delivered send_result data
                   (k0, mkClientInfo (websocket c0) (connected_at c0) (wall_clock n)
                                     (address c0) (packets_sent c0 + 1)) = true)
      by (unfold delivered; cbn; now rewrite E).
    cbn [filter]. rewrite H0, H1. cbn [map fst]. now rewrite IH.
Qed.

(** What [broadcast] leaves in the registry: the sessions as the sweep
    left them, without those whose send failed. *)
Lemma broadcast_spec (s : State) :
  Dict.wf (clients s) ->
  exists s',
    broadcast wall_clock send_result data s = (Ret tt, s') /\
    clients s' =
      filter (delivered send_result data)
             (swept wall_clock send_result data (clients s) (clock_reads s)) /\
    total_served s' = total_served s /\
    wire s' = (wire s ++ map (fun item => CallSend (websocket (snd item)) data)
                             (Dict.items (clients s)))%list.
Proof.
  intros Hwf.
  destruct (Registry.sweep_loop wall_clock send_result data (clients s) [] [] s
              eq_refl Hwf) as (s_mid & Hsweep & Hc & Ht & Hw).
  cbn in Hsweep, Hc.
  destruct (remove_loop_spec (failed_of send_result data (clients s)) s_mid)
    as (s' & Hrem & Hc' & Ht' & _ & Hw').
  exists s'. split.
  { assert (Hsweep' : broadcast_sweep wall_clock send_result data s
                      = (Ret (failed_of send_result data (clients s)), s_mid))
      by (unfold broadcast_sweep, bind, gets; exact Hsweep).
    unfold broadcast, bind. rewrite Hsweep'. exact Hrem. }
  split; [|split; [congruence | rewrite Hw', Hw; reflexivity]].
  assert (Hwfmid : Dict.wf (clients s_mid)).
  { unfold Dict.wf. rewrite Hc, Registry.swept_keys. exact Hwf. }
  rewrite Hc', dict_del_all_filter by assumption. rewrite Hc.
  apply filter_ext_in. intros [id c'] Hin. cbn [fst].
  destruct (in_swept _ _ _ _ Hin) as (c & Hc0 & Hws & _).
  unfold delivered. cbn [snd]. rewrite Hws.
  destruct (send_result (websocket c) data) as [e|] eqn:E.
  - assert (Hf : In id (failed_of send_result data (clients s))).
    { apply in_failed_of. exists c. split; [assumption | now rewrite E]. }
    assert (Hex : existsb (String.eqb id) (failed_of send_result data (clients s)) = true).
    { apply existsb_exists. exists id. split; [assumption | apply String.eqb_refl]. }
    now rewrite Hex.
  - destruct (existsb (String.eqb id) (failed_of send_result data (clients s))) eqn:Hex;
      [|reflexivity].
    exfalso. apply existsb_exists in Hex. destruct Hex as (x & Hx & Heq).
    apply String.eqb_eq in Heq. subst x.
    apply in_failed_of in Hx. destruct Hx as (c2 & Hc2 & Hf).
    rewrite (dict_in_unique (clients s) id c2 c Hwf Hc2 Hc0) in Hf. congruence.
Qed.

Lemma swept_get_absent (items : list (string * ClientInfo)) (id : string) (n : nat) :
  Dict.get items id = None ->
  Dict.get (swept wall_clock send_result data items n) id = None.
Proof.
  intros Hnone. apply dict_get_none.
  rewrite Registry.swept_keys. intros Hin.
  apply (dict_not_contains items id); [|assumption].
  unfold Dict.contains. now rewrite Hnone.
Qed.

End Broadcast.

(** X3. Whatever fails during [broadcast(data)], the call returns
    normally after one send to every registered session, in registry
    order.  Afterwards the registry holds exactly the sessions whose
    send went through, in their old order, each with its counter raised
    by one and its transport, connection time and address unchanged;
    every session whose send failed is gone, no session appears, and
    [total_served] is unchanged. *)
Theorem broadcast_removes_exactly_the_failed :
  forall (wall_clock : nat -> Z)
         (send_result : WebSocket -> list byte -> option exn)
         (data : list byte) (s : State),
    Dict.wf (clients s) ->
    exists s',
      broadcast wall_clock send_result data s = (Ret tt, s') /\
      wire s' = (wire s ++ map (fun item => CallSend (websocket (snd item)) data)
                               (Dict.items (clients s)))%list /\
      Dict.keys (clients s') =
        Dict.keys (filter (delivered send_result data) (clients s)) /\
      (forall id c,
          Dict.get (clients s) id = Some c ->
          match send_result (websocket c) data with
          | None =>
              exists c', Dict.get (clients s') id = Some c' /\
                         packets_sent c' = packets_sent c + 1 /\
                         websocket c' = websocket c /\
                         connected_at c' = connected_at c /\
                         address c' = address c
          | Some _ => Dict.get (clients s') id = None
          end) /\
      (forall id, Dict.get (clients s) id = None ->
                  Dict.get (clients s') id = None) /\
      total_served s' = total_served s.
Proof.
  intros wall_clock send_result data s Hwf.
  destruct (broadcast_spec wall_clock send_result data s Hwf)
    as (s' & Hrun & Hc & Ht & Hw).
  assert (Hwfsw : Dict.wf (swept wall_clock send_result data (clients s)
                                 (clock_reads s))).
  { unfold Dict.wf. now rewrite Registry.swept_keys. }
  exists s'. split; [exact Hrun|]. split; [exact Hw|].
  split; [rewrite Hc; apply swept_filter_keys|].
  split; [|split; [|exact Ht]].
  - intros id c Hget. rewrite Hc, dict_get_filter by assumption.
    destruct (send_result (websocket c) data) as [e|] eqn:E.
    + rewrite (Registry.swept_get_failed wall_clock send_result data _ _ _ e Hget E).
      unfold delivered. cbn. now rewrite E.
    + destruct (Registry.swept_get_sent wall_clock send_result data _ _ _ Hget E
                  (clock_reads s)) as (t & Hsw).
      rewrite Hsw. unfold delivered. cbn. rewrite E.
      eexists. split; [reflexivity|]. cbn. auto.
  - intros id Hnone. rewrite Hc, dict_get_filter by assumption.
    now rewrite swept_get_absent.
Qed.

Lemma broadcast_removes_exactly_the_failed_witness :
  exists s',
    broadcast Fixtures.clock Fixtures.bob_is_gone Fixtures.block_1234
              Fixtures.three_clients = (Ret tt, s') /\
    Dict.keys (clients s') = ["192.168.1.10:50001"; "192.168.1.12:50003"].
Proof.
  assert (Hwf : Dict.wf (clients Fixtures.three_clients)).
  { unfold Dict.wf. simpl.
    repeat (constructor; [simpl; intuition discriminate|]). constructor. }
  destruct (broadcast_removes_exactly_the_failed Fixtures.clock Fixtures.bob_is_gone
              Fixtures.block_1234 Fixtures.three_clients Hwf)
    as (s' & Hrun & _ & Hkeys & _).
  exists s'. split; [exact Hrun | exact Hkeys].
Defined.

(** *** [close_all] and what follows it *)

Lemma close_all_spec close_result reason s :
  exists s',
    close_all close_result reason s = (Ret tt, s') /\
    clients s' = Dict.empty /\
    total_served s' = total_served s /\
    wire s' = (wire s ++
               map (fun item => CallClose (websocket (snd item)) 1001 reason)
                   (Dict.items (clients s)))%list.
Proof.
  unfold close_all. unfold bind at 1. unfold log at 1, modify.
  unfold bind at 1. unfold gets at 1. simpl clients.
  unfold bind at 1.
  match goal with |- context [for_each ?l ?b ?s0] =>
    destruct (Registry.close_loop_completes close_result reason l s0)
      as (s1 & Hrun & Hc & Ht & Hw) end.
  rewrite Hrun. eexists. split; [reflexivity|].
  simpl. rewrite Hw, Ht. auto.
Qed.

(** X4. Once [close_all] has run, the registry stays silent until a
    client is added: a [broadcast] that follows sends nothing, and a
    second [close_all] closes nothing; both return normally and leave
    the registry empty. *)
Theorem nothing_is_sent_after_close_all :
  forall (close_result close_result' : WebSocket -> Z -> string -> option exn)
         (wall_clock : nat -> Z)
         (send_result : WebSocket -> list byte -> option exn)
         (reason reason' : string) (data : list byte) (s : State),
    exists s1 s2 s3,
      close_all close_result reason s = (Ret tt, s1) /\
      broadcast wall_clock send_result data s1 = (Ret tt, s2) /\
      close_all close_result' reason' s1 = (Ret tt, s3) /\
      wire s2 = wire s1 /\ clients s2 = Dict.empty /\
      wire s3 = wire s1 /\ clients s3 = Dict.empty /\
      connected_count s2 = 0 /\ connected_count s3 = 0.
Proof.
  intros close_result close_result' wall_clock send_result reason reason' data s.
  destruct (close_all_spec close_result reason s) as (s1 & H1 & Hc1 & _ & _).
  assert (Hwf1 : Dict.wf (clients s1)) by (rewrite Hc1; constructor).
  destruct (broadcast_spec wall_clock send_result data s1 Hwf1)
    as (s2 & H2 & Hc2 & _ & Hw2).
  destruct (close_all_spec close_result' reason' s1) as (s3 & H3 & Hc3 & _ & Hw3).
  rewrite Hc1 in Hc2, Hw2, Hw3. cbn in Hc2, Hw2, Hw3.
  rewrite app_nil_r in Hw2, Hw3.
  exists s1, s2, s3. unfold connected_count. rewrite Hc2, Hc3.
  repeat split; auto.
Qed.

(** *** The invariant of the registry *)

Lemma add_client_ok wall_clock ws s :
  registry_ok s -> registry_ok (snd (add_client wall_clock ws s)).
Proof.
  intros (Hwf & Hall & Hcount).
  rewrite Registry.add_client_eq. cbn [snd].
  unfold registry_ok, connected_count in *. cbn [clients total_served].
  split; [now apply dict_wf_set|].
  split.
  { apply dict_forall_set; [assumption|].
    unfold entry_ok. cbn. repeat split; lia. }
  destruct (Dict.contains (clients s) (client_id_of ws)) eqn:E.
  - rewrite dict_len_set_present by assumption. lia.
  - rewrite dict_len_set_absent by assumption. lia.
Qed.

Lemma remove_client_ok client_id s :
  registry_ok s -> registry_ok (snd (remove_client client_id s)).
Proof.
  intros (Hwf & Hall & Hcount).
  rewrite Registry.remove_client_eq. cbn [snd].
  destruct (Dict.contains (clients s) client_id) eqn:E; [|now repeat split].
  unfold registry_ok, connected_count in *. cbn [clients total_served].
  split; [now apply dict_wf_del|].
  split; [now apply dict_forall_del|].
  rewrite dict_len_del by assumption. lia.
Qed.

Lemma broadcast_ok wall_clock send_result data s :
  registry_ok s -> registry_ok (snd (broadcast wall_clock send_result data s)).
Proof.
  intros (Hwf & Hall & Hcount).
  destruct (broadcast_spec wall_clock send_result data s Hwf)
    as (s' & Hrun & Hc & Ht & _).
  rewrite Hrun. cbn [snd].
  unfold registry_ok, connected_count in *. rewrite Hc, Ht.
  split.
  { apply dict_wf_filter. unfold Dict.wf. now rewrite Registry.swept_keys. }
  split.
  { apply Forall_forall. intros [id c'] Hin. apply filter_In in Hin.
    destruct Hin as [Hin _].
    destruct (in_swept _ _ _ _ _ _ _ Hin) as (c & Hc0 & Hws & Had & Hps).
    rewrite Forall_forall in Hall. specialize (Hall _ Hc0).
    unfold entry_ok in *. cbn [fst snd] in *.
    rewrite Hws, Had. intuition lia. }
  assert (Hlen : (List.length (filter (delivered send_result data)
                    (swept wall_clock send_result data (clients s) (clock_reads s)))
                  <= List.length (clients s))%nat).
  { etransitivity; [apply filter_length_le|].
    rewrite <- (length_map fst (swept _ _ _ _ _)).
    change (map fst (swept wall_clock send_result data (clients s) (clock_reads s)))
      with (Dict.keys (swept wall_clock send_result data (clients s) (clock_reads s))).
    rewrite Registry.swept_keys. unfold Dict.keys. now rewrite length_map. }
  unfold Dict.len in *. lia.
Qed.

Lemma close_all_ok close_result reason s :
  registry_ok s -> registry_ok (snd (close_all close_result reason s)).
Proof.
  intros (Hwf & Hall & Hcount).
  destruct (close_all_spec close_result reason s) as (s' & Hrun & Hc & Ht & _).
  rewrite Hrun. cbn [snd].
  unfold registry_ok, connected_count, Dict.len in *. rewrite Hc, Ht.
  repeat split; [constructor | constructor | cbn; lia].
Qed.

Lemma registry_invariant_aux (s : State) : reachable s -> registry_ok s.
Proof.
  induction 1 as [|op s Hreach IH].
  - unfold registry_ok, connected_count. cbn.
    repeat split; [constructor | constructor | lia].
  - destruct op; cbn [state_after].
    + now apply add_client_ok.
    + now apply remove_client_ok.
    + exact IH.
    + exact IH.
    + now apply broadcast_ok.
    + now apply close_all_ok.
Qed.

(** X5. In every state a registry goes through, identities are unique,
    every session is stored under the identity of its own transport and
    carries that identity as its address, no counter is negative, and
    [connected_count] never exceeds [total_served]. *)
Theorem registry_invariant :
  forall s : State,
    reachable s ->
    NoDup (Dict.keys (clients s)) /\
    (forall id c,
        Dict.get (clients s) id = Some c ->
        id = client_id_of (websocket c) /\ address c = id /\ 0 <= packets_sent c) /\
    0 <= connected_count s <= total_served s.
Proof.
  intros s Hreach.
  destruct (registry_invariant_aux s Hreach) as (Hwf & Hall & Hcount).
  split; [exact Hwf|]. split.
  - intros id c Hget. apply dict_get_in in Hget.
    rewrite Forall_forall in Hall. exact (Hall _ Hget).
  - unfold connected_count, Dict.len in *. lia.
Qed.

Lemma registry_invariant_witness :
  NoDup (Dict.keys (clients Fixtures.three_clients)) /\
  0 <= connected_count Fixtures.three_clients <= total_served Fixtures.three_clients.
Proof.
  assert (Hreach : reachable Fixtures.three_clients).
  { assert (Heq : state_after (OpAddClient Fixtures.clock Fixtures.carol)
                    (state_after (OpAddClient Fixtures.clock Fixtures.bob)
                      (state_after (OpAddClient Fixtures.clock Fixtures.alice)
                         __init__)) = Fixtures.three_clients)
      by (vm_compute; reflexivity).
    rewrite <- Heq. do 3 apply reach_step. apply reach_init. }
  destruct (registry_invariant Fixtures.three_clients Hreach) as (Hnd & _ & Hc).
  split; assumption.
Defined.

(** X6. [get_stats] changes nothing.  In every state a registry goes
    through, its report lists one entry per registered session, in
    registry order, whose addresses are the registered identities (so
    they are distinct); [connected] is the number of entries and never
    exceeds [total_served]. *)
Theorem get_stats_reports_the_registry :
  forall s : State,
    reachable s ->
    exists stats,
      get_stats s = (Ret stats, s) /\
      connected stats = Z.of_nat (List.length (stats_clients stats)) /\
      map stat_address (stats_clients stats) = Dict.keys (clients s) /\
      map stat_packets_sent (stats_clients stats)
        = map packets_sent (Dict.values (clients s)) /\
      NoDup (map stat_address (stats_clients stats)) /\
      0 <= connected stats <= stats_total_served stats.
Proof.
  intros s Hreach.
  destruct (registry_invariant_aux s Hreach) as (Hwf & Hall & Hcount).
  eexists. split; [reflexivity|]. cbn.
  assert (Haddr : map stat_address
                    (map (fun c => mkClientStats (address c) (connected_at c)
                                                 (packets_sent c))
                         (Dict.values (clients s))) = Dict.keys (clients s)).
  { unfold Dict.values, Dict.keys. rewrite !map_map.
    apply map_ext_in. intros [id c] Hin. cbn.
    rewrite Forall_forall in Hall. destruct (Hall _ Hin) as (_ & Ha & _).
    exact Ha. }
  split.
  { unfold Dict.len, Dict.values. now rewrite !length_map. }
  split; [exact Haddr|].
  split; [now rewrite map_map|].
  split; [rewrite Haddr; exact Hwf|].
  unfold connected_count, Dict.len in *. lia.
Qed.

Lemma get_stats_reports_the_registry_witness :
  exists stats,
    get_stats Fixtures.three_clients = (Ret stats, Fixtures.three_clients) /\
    connected stats = 3 /\
    map stat_address (stats_clients stats) =
      ["192.168.1.10:50001"; "192.168.1.11:50002"; "192.168.1.12:50003"].
Proof.
  assert (Hreach : reachable Fixtures.three_clients).
  { assert (Heq : state_after (OpAddClient Fixtures.clock Fixtures.carol)
                    (state_after (OpAddClient Fixtures.clock Fixtures.bob)
                      (state_after (OpAddClient Fixtures.clock Fixtures.alice)
                         __init__)) = Fixtures.three_clients)
      by (vm_compute; reflexivity).
    rewrite <- Heq. do 3 apply reach_step. apply reach_init. }
  destruct (get_stats_reports_the_registry Fixtures.three_clients Hreach)
    as (stats & Hrun & _ & Haddr & _).
  exists stats. injection Hrun as <-.
  repeat split; reflexivity.
Defined.

End RegistryMore.

(* ================================================================== *)
(** ** More about the device source *)
(* ================================================================== *)

Module CaptureMore.
Import Py AudioCapture.

(** X7. [stop] returns normally whatever the stream does and always
    drops the handle.  When a stream is held it calls [stream.stop()]
    and then [stream.close()]; when [stream.stop()] raises,
    [stream.close()] is not called at all, and the failure is only
    logged.  When no stream is held it makes no call into the audio
    library. *)
Theorem stop_releases_the_stream :
  forall (sd : SoundDevice) (s : State),
    exists s',
      stop sd s = (Ret tt, s') /\
      stream s' = None /\
      config s' = config s /\
      device_name s' = device_name s /\
      sd_calls s' =
        (sd_calls s ++
         match stream s with
         | None => []
         | Some st =>
             match stop_stream sd (params st) with
             | Some _ => [CallStop (params st)]
             | None => [CallStop (params st); CallClose (params st)]
             end
         end)%list /\
      logger s' =
        (logger s ++
         match stream s with
         | None => []
         | Some st =>
             match stop_stream sd (params st), close_stream sd (params st) with
             | Some e, _ => [StopError e]
             | None, Some e => [StopError e]
             | None, None => []
             end
         end ++ [Stopped])%list.
Proof.
  intros sd s.
  unfold stop, bind, get, try_finally, try_except, record_call, outcome,
    modify, log, set_stream, set_is_running, ret, raise.
  destruct (stream s) as [st|] eqn:Hst; cbn.
  - destruct (stop_stream sd (params st)) as [e|]; cbn.
    + eexists. split; [reflexivity|]. cbn. rewrite <- ?app_assoc. cbn.
      repeat split; reflexivity.
    + destruct (close_stream sd (params st)) as [e|]; cbn;
        eexists; (split; [reflexivity|]); cbn; rewrite <- ?app_assoc; cbn;
        repeat split; reflexivity.
  - eexists. split; [reflexivity|]. cbn. rewrite ?app_nil_r.
    repeat split; try reflexivity. exact Hst.
Qed.

(** X8. After [stop], [read_block] returns nothing and touches nothing:
    no call is made into the audio library and nothing is logged. *)
Theorem read_block_after_stop_is_silent :
  forall (sd sd' : SoundDevice) (s : State),
    exists s1,
      stop sd s = (Ret tt, s1) /\
      read_block sd' s1 = (Ret None, s1).
Proof.
  intros sd sd' s.
  destruct (Capture.stop_spec sd s) as (s1 & new_log & Hrun & Hst & _).
  exists s1. split; [exact Hrun|].
  rewrite Capture.read_block_eq, Hst. reflexivity.
Qed.

(** X9. [initialize] returns [True] exactly when the probe of some
    candidate succeeds.  In every case the probes it makes follow the
    order of the candidate list without skipping or repeating one (they
    are an initial part of it, and all of it when it returns [False]),
    and the running flag is raised on [True] and left alone on [False]. *)
Theorem initialize_succeeds_iff_a_candidate_does :
  forall (sd : SoundDevice) (str_lower : string -> string) (s : State),
    exists ok s' new_log rest,
      initialize sd str_lower s = (Ret ok, s') /\
      logger s' = (logger s ++ new_log)%list /\
      candidates sd str_lower = (probes_logged new_log ++ rest)%list /\
      (ok = true <->
       exists c, In c (candidates sd str_lower) /\ succeeds sd (config s) c = true) /\
      (ok = false -> rest = []) /\
      is_running s' = (if ok then true else is_running s) /\
      config s' = config s.
Proof.
  intros sd str_lower s.
  destruct (Capture.initialize_spec sd str_lower s)
    as (ok & s' & new_log & Hrun & Hcfg & Hlog & Hres).
  destruct ok.
  - destruct Hres as (Hfl & tried & c & rest & p & d & Hc & Hp & Hf & Hpr & _).
    exists true, s', new_log, rest.
    split; [exact Hrun|]. split; [exact Hlog|].
    split; [rewrite Hp, Hc, <- app_assoc; reflexivity|].
    split.
    { split; [|reflexivity]. intros _. exists c. split.
      - rewrite Hc. apply in_or_app. right. now left.
      - unfold succeeds. now rewrite Hpr. }
    split; [discriminate|]. auto.
  - destruct Hres as (Hfl & Hp & Hall & _).
    exists false, s', new_log, [].
    split; [exact Hrun|]. split; [exact Hlog|].
    split; [rewrite Hp, app_nil_r; reflexivity|].
    split.
    { split; [discriminate|]. intros (c & Hin & Hok).
      rewrite (Hall c Hin) in Hok. discriminate. }
    auto.
Qed.

(** X10. [reinitialize] stops before it probes, so from every state a
    device source goes through its result and the running flag agree:
    it returns [True] exactly when some candidate succeeds, and the
    source is running afterwards exactly when it returned [True]. *)
Theorem reinitialize_result_is_the_running_flag :
  forall (sd : SoundDevice) (str_lower : string -> string) (s : State),
    reachable s ->
    exists ok s',
      reinitialize sd str_lower s = (Ret ok, s') /\
      is_running s' = ok /\
      config s' = config s /\
      (ok = true <->
       exists c, In c (candidates sd str_lower) /\ succeeds sd (config s) c = true) /\
      (ok = true -> exists p, stream s' = Some (mkInputStream p true)).
Proof.
  intros sd str_lower s Hreach.
  assert (Hs := Capture.reachable_consistent s Hreach).
  unfold reinitialize, bind. unfold log at 1, modify.
  match goal with |- context [stop sd ?s0] =>
    destruct (Capture.stop_spec sd s0) as (s1 & log1 & Hstop & Hst & Hfl & Hcfg1 & _)
  end.
  rewrite Hstop. cbn [stream is_running config] in Hfl, Hcfg1.
  assert (Hoff : is_running s1 = false).
  { rewrite Hfl. destruct (stream s) eqn:E; [reflexivity|].
    destruct (is_running s) eqn:F; [|reflexivity].
    exfalso. now apply Hs. }
  destruct (Capture.initialize_spec sd str_lower s1)
    as (ok & s' & new_log & Hrun & Hcfg & _ & Hres).
  rewrite Hrun, Hcfg1 in *.
  exists ok, s'. split; [reflexivity|].
  destruct ok.
  - destruct Hres as (Hon & tried & c & rest & p & d & Hc & _ & _ & Hpr & Hstream & _).
    split; [exact Hon|]. split; [congruence|].
    split.
    { split; [|reflexivity]. intros _. exists c. split.
      - rewrite Hc. apply in_or_app. right. now left.
      - unfold succeeds. now rewrite Hpr. }
    intros _. eauto.
  - destruct Hres as (Hfl' & _ & Hall & _).
    split; [congruence|]. split; [congruence|].
    split; [|discriminate].
    split; [discriminate|]. intros (c & Hin & Hok).
    rewrite (Hall c Hin) in Hok. discriminate.
Qed.

Lemma reinitialize_result_is_the_running_flag_witness :
  exists s',
    reinitialize (Fixtures.never_starts [Fixtures.speakers]) Fixtures.ascii_lower
                 (snd (initialize (Fixtures.healthy [Fixtures.speakers])
                                  Fixtures.ascii_lower (__init__ Config.defaults)))
      = (Ret false, s') /\
    is_running s' = false.
Proof.
  destruct (reinitialize_result_is_the_running_flag
              (Fixtures.never_starts [Fixtures.speakers]) Fixtures.ascii_lower
              (snd (initialize (Fixtures.healthy [Fixtures.speakers])
                               Fixtures.ascii_lower (__init__ Config.defaults))))
    as (ok & s' & Hrun & Hfl & _ & Hiff & _).
  - apply reach_initialize. apply reach_init.
  - exists s'. destruct ok.
    + exfalso. destruct Hiff as [Hiff _].
      destruct (Hiff eq_refl) as (c & Hin & Hok).
      destruct Hin as [<-|[]]. vm_compute in Hok. discriminate.
    + split; assumption.
Defined.

(** *** The candidates *)

Lemma in_enumerate_from {A} (l : list A) :
  forall a i (x : A),
    In (i, x) (combine (seq a (List.length l)) l) <->
    (a <= i)%nat /\ nth_error l (i - a) = Some x.
Proof.
  induction l as [|y l IH]; intros a i x; cbn [List.length seq combine].
  - split; [intros [] | intros [_ H]; destruct (i - a)%nat; discriminate].
  - split.
    + intros [Heq|Hin].
      * inversion Heq; subst. rewrite Nat.sub_diag. auto.
      * apply IH in Hin. destruct Hin as [Hle Hnth].
        split; [lia|].
        replace (i - a)%nat with (S (i - S a)) by lia. exact Hnth.
    + intros [Hle Hnth].
      destruct (Nat.eq_dec i a) as [->|Hne].
      * rewrite Nat.sub_diag in Hnth. inversion Hnth. now left.
      * right. apply IH. split; [lia|].
        replace (i - a)%nat with (S (i - S a)) in Hnth by lia. exact Hnth.
Qed.

Lemma in_enumerate {A} (l : list A) i (x : A) :
  In (i, x) (enumerate l) <-> nth_error l i = Some x.
Proof.
  unfold enumerate. rewrite in_enumerate_from, Nat.sub_0_r.
  split; [tauto | intros H; split; [lia | exact H]].
Qed.

Lemma enumerate_indices {A} (l : list A) :
  forall a, map fst (combine (seq a (List.length l)) l) = seq a (List.length l).
Proof.
  induction l as [|y l IH]; intros a; cbn; [reflexivity|]. now rewrite IH.
Qed.

Lemma nodup_filter_fst {A} (p : nat * A -> bool) (l : list (nat * A)) :
  NoDup (map fst l) -> NoDup (map fst (filter p l)).
Proof.
  induction l as [|[i x] l IH]; cbn; [trivial|].
  intros Hnd. inversion Hnd as [|? ? Hni Hnd']; subst.
  destruct (p (i, x)); cbn; [|auto].
  constructor; [|auto].
  intros Hin. apply Hni. apply in_map_iff in Hin.
  destruct Hin as (item & <- & Hitem). apply filter_In in Hitem.
  apply in_map. tauto.
Qed.

Lemma in_filtered_indices {A} (p : nat * A -> bool) (l : list A) i :
  In i (map fst (filter p (enumerate l))) <->
  exists x, nth_error l i = Some x /\ p (i, x) = true.
Proof.
  rewrite in_map_iff. split.
  - intros ([j x] & <- & Hin). apply filter_In in Hin.
    destruct Hin as [Hin Hp]. apply in_enumerate in Hin. eauto.
  - intros (x & Hnth & Hp). exists (i, x). split; [reflexivity|].
    apply filter_In. split; [now apply in_enumerate | exact Hp].
Qed.

Lemma nodup_map_pair (strategy : Strategy) (l : list nat) :
  NoDup l -> NoDup (map (pair strategy) l).
Proof.
  induction 1 as [|i l Hni Hnd IH]; cbn; constructor; [|assumption].
  intros Hin. apply Hni. apply in_map_iff in Hin.
  destruct Hin as (j & [= ->] & Hj). exact Hj.
Qed.

(** X11. The candidates of [initialize] are read off the device list: a
    device index is a loopback candidate exactly when that device has
    output channels, and a fallback candidate exactly when its name,
    in lower case, contains "stereo" or it has input channels.  No
    candidate occurs twice, so no device is probed twice under one
    strategy; a device with both kinds of channels is a candidate of
    both. *)
Theorem candidates_are_the_capable_devices :
  forall (sd : SoundDevice) (str_lower : string -> string),
    (forall i,
        In (Loopback, i) (candidates sd str_lower) <->
        exists d, nth_error (query_devices sd) i = Some d /\
                  0 < max_output_channels d) /\
    (forall i,
        In (Plain, i) (candidates sd str_lower) <->
        exists d, nth_error (query_devices sd) i = Some d /\
                  (str_contains "stereo" (str_lower (name d)) = true \/
                   0 < max_input_channels d)) /\
    NoDup (candidates sd str_lower).
Proof.
  intros sd str_lower. unfold candidates, out_candidates, stereo_candidates.
  split; [|split].
  - intros i. rewrite in_app_iff, !in_map_iff. split.
    + intros [(j & Heq & Hin) | (j & Heq & _)]; [|discriminate].
      injection Heq as ->. apply in_filtered_indices in Hin.
      destruct Hin as (d & Hnth & Hp). cbn in Hp. apply Z.ltb_lt in Hp. eauto.
    + intros (d & Hnth & Hout). left. exists i. split; [reflexivity|].
      apply in_filtered_indices. exists d. split; [exact Hnth|].
      cbn. now apply Z.ltb_lt.
  - intros i. rewrite in_app_iff, !in_map_iff. split.
    + intros [(j & Heq & _) | (j & Heq & Hin)]; [discriminate|].
      injection Heq as ->. apply in_filtered_indices in Hin.
      destruct Hin as (d & Hnth & Hp). cbn in Hp.
      apply orb_true_iff in Hp. rewrite Z.ltb_lt in Hp. eauto.
    + intros (d & Hnth & Hcap). right. exists i. split; [reflexivity|].
      apply in_filtered_indices. exists d. split; [exact Hnth|].
      cbn. apply orb_true_iff. now rewrite Z.ltb_lt.
  - apply NoDup_app.
    + apply nodup_map_pair.
      apply nodup_filter_fst. unfold enumerate.
      rewrite enumerate_indices. apply seq_NoDup.
    + apply nodup_map_pair.
      apply nodup_filter_fst. unfold enumerate.
      rewrite enumerate_indices. apply seq_NoDup.
    + intros c H1 H2. apply in_map_iff in H1. apply in_map_iff in H2.
      destruct H1 as (i & <- & _). destruct H2 as (j & Heq & _). discriminate.
Qed.

End CaptureMore.

(* ================================================================== *)
(** ** More about the configuration *)
(* ================================================================== *)

Module ConfigurationMore.
Import Py Config.

Ltac cfg_simpl :=
  cbn [negb andb fst snd
       http_port ws_port sample_rate channels block_size log_level
       max_reconnect_attempts client_timeout_seconds
       set_http_port set_ws_port set_sample_rate set_block_size set_log_level
       defaults root_logger written].

Lemma str_in_In s l : str_in s l = true <-> In s l.
Proof.
  unfold str_in. rewrite existsb_exists. split.
  - intros (x & Hin & Heq). apply String.eqb_eq in Heq. now subst.
  - intros H. exists s. split; [assumption | apply String.eqb_refl].
Qed.

Section Validate.
Variable str_upper : string -> string.

(** What [validate_config] computes, field by field. *)
Lemma validate_config_eq (config : ServerConfig) (w : World) :
  validate_config str_upper config w =
    (Ret
       (mkServerConfig
          (if (1 <=? http_port config) && (http_port config <=? 65535)
           then http_port config else 5000)
          (if (1 <=? ws_port config) && (ws_port config <=? 65535)
           then ws_port config else 8765)
          (if int_in (sample_rate config) valid_sample_rates
           then sample_rate config else 44100)
          (channels config)
          (if (512 <=? block_size config) && (block_size config <=? 4096)
           then block_size config else 1024)
          (if str_in (str_upper (log_level config)) valid_levels
           then str_upper (log_level config) else "INFO")
          (max_reconnect_attempts config)
          (client_timeout_seconds config)),
     mkWorld
       (root_logger w ++
        (if int_in (sample_rate config) valid_sample_rates then []
         else [InvalidSampleRate (PInt (sample_rate config)) (PInt 44100)]) ++
        (if (512 <=? block_size config) && (block_size config <=? 4096) then []
         else [InvalidBlockSize (PInt (block_size config)) (PInt 1024)]) ++
        (if str_in (str_upper (log_level config)) valid_levels then []
         else [InvalidLogLevel (PStr (log_level config)) (PStr "INFO")]))
       (written w)).
Proof.
  unfold validate_config, bind, ret, warning, modify.
  destruct w as [lg wr].
  destruct (int_in (sample_rate config) valid_sample_rates); cfg_simpl;
    destruct ((512 <=? block_size config) && (block_size config <=? 4096)); cfg_simpl;
    destruct (str_in (str_upper (log_level config)) valid_levels); cfg_simpl;
    destruct ((1 <=? http_port config) && (http_port config <=? 65535)); cfg_simpl;
    destruct ((1 <=? ws_port config) && (ws_port config <=? 65535)); cfg_simpl;
    rewrite <- ?app_assoc, ?app_nil_r; reflexivity.
Qed.

End Validate.

(** X12. Besides sample rate and block size, [validate_config] brings
    both ports into 1..65535 and the log level into DEBUG, INFO,
    WARNING, ERROR.  It never looks at the channel count, the reconnect
    limit or the client timeout: they come out as they went in, whatever
    their value.  Nothing is written to disk. *)
Theorem validate_config_checks_ports_and_level_only :
  forall (str_upper : string -> string) (config : ServerConfig) (w : World),
    exists config' w',
      validate_config str_upper config w = (Ret config', w') /\
      1 <= http_port config' <= 65535 /\
      1 <= ws_port config' <= 65535 /\
      In (log_level config') valid_levels /\
      channels config' = channels config /\
      max_reconnect_attempts config' = max_reconnect_attempts config /\
      client_timeout_seconds config' = client_timeout_seconds config /\
      written w' = written w.
Proof.
  intros str_upper config w.
  eexists. eexists. split; [apply validate_config_eq|]. cfg_simpl.
  split.
  { destruct ((1 <=? http_port config) && (http_port config <=? 65535)) eqn:E; [|lia].
    apply andb_true_iff in E. rewrite !Z.leb_le in E. exact E. }
  split.
  { destruct ((1 <=? ws_port config) && (ws_port config <=? 65535)) eqn:E; [|lia].
    apply andb_true_iff in E. rewrite !Z.leb_le in E. exact E. }
  split.
  { destruct (str_in (str_upper (log_level config)) valid_levels) eqn:E.
    - now apply str_in_In.
    - cbn. auto. }
  auto.
Qed.

(** X13. [validate_config] warns exactly about an invalid sample rate,
    an invalid block size and an invalid log level, in this order and
    each with the value found and the default put in its place.  An
    invalid port is replaced without any record. *)
Theorem validate_config_warns_about_three_fields :
  forall (str_upper : string -> string) (config : ServerConfig) (w : World),
    exists config' w',
      validate_config str_upper config w = (Ret config', w') /\
      root_logger w' =
        (root_logger w ++
         (if int_in (sample_rate config) valid_sample_rates then []
          else [InvalidSampleRate (PInt (sample_rate config)) (PInt 44100)]) ++
         (if (512 <=? block_size config) && (block_size config <=? 4096) then []
          else [InvalidBlockSize (PInt (block_size config)) (PInt 1024)]) ++
         (if str_in (str_upper (log_level config)) valid_levels then []
          else [InvalidLogLevel (PStr (log_level config)) (PStr "INFO")]))%list /\
      (int_in (sample_rate config) valid_sample_rates = true ->
       (512 <=? block_size config) && (block_size config <=? 4096) = true ->
       str_in (str_upper (log_level config)) valid_levels = true ->
       root_logger w' = root_logger w).
Proof.
  intros str_upper config w.
  eexists. eexists. split; [apply validate_config_eq|]. cfg_simpl.
  split; [reflexivity|].
  intros -> -> ->. cbn. now rewrite app_nil_r.
Qed.

(** When all five tests of [validate_config] pass and the level is in
    upper case already, nothing changes. *)
Lemma validate_config_fixed (str_upper : string -> string)
      (config : ServerConfig) (w : World) :
  int_in (sample_rate config) valid_sample_rates = true ->
  (512 <=? block_size config) && (block_size config <=? 4096) = true ->
  str_in (str_upper (log_level config)) valid_levels = true ->
  (1 <=? http_port config) && (http_port config <=? 65535) = true ->
  (1 <=? ws_port config) && (ws_port config <=? 65535) = true ->
  str_upper (log_level config) = log_level config ->
  validate_config str_upper config w = (Ret config, w).
Proof.
  intros E1 E2 E3 E4 E5 Hupper.
  rewrite validate_config_eq, E1, E2, E3, E4, E5, Hupper. cbn.
  rewrite app_nil_r. destruct config, w. reflexivity.
Qed.

(** X14. A configuration that is already valid (rate and block size
    within the invariant, ports within 1..65535, a log level among the
    four names and already in upper case) passes [validate_config]
    unchanged and without a warning. *)
Theorem validate_config_keeps_a_valid_config :
  forall (str_upper : string -> string) (config : ServerConfig) (w : World),
    capture_invariant config ->
    1 <= http_port config <= 65535 ->
    1 <= ws_port config <= 65535 ->
    In (log_level config) valid_levels ->
    str_upper (log_level config) = log_level config ->
    validate_config str_upper config w = (Ret config, w).
Proof.
  intros str_upper config w [Hrate Hblock] Hhttp Hws Hlevel Hupper.
  apply validate_config_fixed.
  - now apply Configuration.int_in_In.
  - apply andb_true_iff; rewrite !Z.leb_le; lia.
  - rewrite Hupper. now apply str_in_In.
  - apply andb_true_iff; rewrite !Z.leb_le; lia.
  - apply andb_true_iff; rewrite !Z.leb_le; lia.
  - exact Hupper.
Qed.

Lemma validate_config_keeps_a_valid_config_witness :
  validate_config Fixtures.ascii_upper defaults ConfigFixtures.empty_world
    = (Ret defaults, ConfigFixtures.empty_world).
Proof.
  apply validate_config_keeps_a_valid_config.
  - split; [right; left; reflexivity | cbn; lia].
  - cbn; lia.
  - cbn; lia.
  - right. left. reflexivity.
  - reflexivity.
Defined.

(** X15. [validate_config] is idempotent, given that upper-casing
    leaves the four level names as they are: validating its own result
    returns that result again and logs nothing more. *)
Theorem validate_config_is_idempotent :
  forall (str_upper : string -> string) (config : ServerConfig) (w : World),
    (forall level, In level valid_levels -> str_upper level = level) ->
    exists config' w',
      validate_config str_upper config w = (Ret config', w') /\
      validate_config str_upper config' w' = (Ret config', w').
Proof.
  intros str_upper config w Hupper.
  eexists. eexists. split; [apply validate_config_eq|].
  assert (Hlevel :
            In (if str_in (str_upper (log_level config)) valid_levels
                then str_upper (log_level config) else "INFO") valid_levels).
  { destruct (str_in (str_upper (log_level config)) valid_levels) eqn:E.
    - apply str_in_In. exact E.
    - cbn. auto. }
  assert (Hfixed : str_upper
                     (if str_in (str_upper (log_level config)) valid_levels
                      then str_upper (log_level config) else "INFO") =
                   (if str_in (str_upper (log_level config)) valid_levels
                    then str_upper (log_level config) else "INFO"))
    by (apply Hupper; exact Hlevel).
  apply validate_config_fixed; cfg_simpl.
  - destruct (int_in (sample_rate config) valid_sample_rates) eqn:E;
      [exact E | reflexivity].
  - destruct ((512 <=? block_size config) && (block_size config <=? 4096)) eqn:E;
      [exact E | reflexivity].
  - rewrite Hfixed. apply str_in_In. exact Hlevel.
  - destruct ((1 <=? http_port config) && (http_port config <=? 65535)) eqn:E;
      [exact E | reflexivity].
  - destruct ((1 <=? ws_port config) && (ws_port config <=? 65535)) eqn:E;
      [exact E | reflexivity].
  - exact Hfixed.
Qed.

Lemma validate_config_is_idempotent_witness :
  exists config' w',
    validate_config Fixtures.ascii_upper ConfigFixtures.typed_file_config
                    ConfigFixtures.empty_world = (Ret config', w') /\
    validate_config Fixtures.ascii_upper config' w' = (Ret config', w').
Proof.
  apply validate_config_is_idempotent.
  intros level [<-|[<-|[<-|[<-|[]]]]]; reflexivity.
Defined.

(** *** [load_config] *)

Section Load.
Variable str_upper : string -> string.
Variable fs : FileSystem.

Lemma written_bind {A B} (m : M World A) (k : A -> M World B) :
  (forall w, written (snd (m w)) = written w) ->
  (forall a w, written (snd (k a w)) = written w) ->
  forall w, written (snd (bind m k w)) = written w.
Proof.
  intros Hm Hk w. unfold bind. specialize (Hm w).
  destruct (m w) as [[a|e] w1]; cbn in *; [|exact Hm].
  now rewrite Hk.
Qed.

Lemma written_py_between lo x hi w :
  written (snd (py_between lo x hi w)) = written w.
Proof.
  unfold py_between, bind, py_int_le, py_le_int, ret, raise.
  destruct x as [ | b | z | [ | negative | q] | s | | ]; cbn; try reflexivity.
  - destruct (lo <=? Z.b2z b); reflexivity.
  - destruct (lo <=? z); reflexivity.
  - destruct (negb negative); reflexivity.
  - destruct (Qle_bool (inject_Z lo) q); reflexivity.
Qed.

Lemma written_py_upper x w : written (snd (py_upper str_upper x w)) = written w.
Proof. destruct x; reflexivity. Qed.

(** Validation touches no file, also when it raises. *)
Lemma written_validate_config_raw config w :
  written (snd (validate_config_raw str_upper config w)) = written w.
Proof.
  revert w. unfold validate_config_raw.
  apply written_bind.
  { intros w. destruct (negb _); reflexivity. }
  intros c1. apply written_bind; [apply written_py_between|].
  intros ok1. apply written_bind.
  { intros w. destruct (negb ok1); reflexivity. }
  intros c2. apply written_bind; [apply written_py_upper|].
  intros up. apply written_bind.
  { intros w. destruct (negb _); [reflexivity|].
    revert w. apply written_bind; [apply written_py_upper | reflexivity]. }
  intros c3. apply written_bind; [apply written_py_between|].
  intros ok2. apply written_bind.
  { intros w. destruct (negb ok2); reflexivity. }
  intros c4. apply written_bind; [apply written_py_between|].
  intros ok3. apply written_bind.
  { intros w. destruct (negb ok3); reflexivity. }
  reflexivity.
Qed.

End Load.

(** X16. [load_config] writes to disk only when the file is missing,
    and then exactly once: the template with all defaults, after which
    it returns the defaults without a warning.  When the file exists
    nothing is written, whatever the file holds. *)
Theorem load_config_writes_only_a_missing_file :
  forall (str_upper : string -> string) (fs : FileSystem) (path : string) (w : World),
    written (snd (load_config str_upper fs path w)) =
      (written w ++
       (if path_exists fs path then []
        else match write_text fs path with
             | None => [(path, defaults)]
             | Some _ => []
             end))%list /\
    (path_exists fs path = false ->
     load_config str_upper fs path w =
       match write_text fs path with
       | None =>
           (Ret (to_raw defaults),
            mkWorld (root_logger w) (written w ++ [(path, defaults)]))
       | Some e => (Raise e, w)
       end).
Proof.
  intros str_upper fs path w. unfold load_config.
  destruct (path_exists fs path); cbn [negb].
  - split; [|discriminate]. rewrite app_nil_r.
    unfold try_except.
    match goal with |- context [match ?body w with _ => _ end] =>
      assert (Hbody : written (snd (body w)) = written w) end.
    { revert w. apply written_bind.
      - intros w. destruct (read_json fs path); reflexivity.
      - intros data. apply written_bind.
        + intros w. destruct data; reflexivity.
        + intros members w. apply written_validate_config_raw. }
    match goal with |- context [match ?body w with _ => _ end] =>
      destruct (body w) as [[config|e] w1] end; cbn in Hbody |- *.
    + exact Hbody.
    + destruct (exn_class_eqb (exn_cls e) JSONDecodeError); cbn; exact Hbody.
  - unfold bind, outcome, modify, ret, raise.
    destruct (write_text fs path) as [e|]; cbn.
    + rewrite app_nil_r. auto.
    + auto.
Qed.

(** X17. One value of the wrong type costs the whole file: when the
    block size in the file is not a number, the comparison in
    [validate_config] raises a [TypeError]; [load_config] logs it as a
    loading error, after at most the warning about the sample rate, and
    returns the defaults for every field, also for those the file set
    validly.  Nothing is written. *)
Theorem load_config_resets_everything_on_a_type_error :
  forall (str_upper : string -> string) (fs : FileSystem) (path : string)
         (w : World) (members : list (string * pyval)),
    path_exists fs path = true ->
    read_json fs path = inr (JObject members) ->
    match raw_block_size (from_members members) with
    | PNone | PStr _ | PList | PDict => True
    | _ => False
    end ->
    exists w' earlier e,
      load_config str_upper fs path w = (Ret (to_raw defaults), w') /\
      root_logger w' = (root_logger w ++ earlier ++ [LoadError e])%list /\
      exn_cls e = TypeError /\
      written w' = written w /\
      (forall r, In r earlier -> exists got dflt, r = InvalidSampleRate got dflt).
Proof.
  intros str_upper fs path w members Hex Hread Hbad.
  unfold load_config. rewrite Hex. cbn [negb].
  unfold try_except, bind at 1. rewrite Hread.
  unfold ret at 1, bind at 1, ret at 1.
  unfold validate_config_raw. unfold bind at 1.
  destruct w as [lg wr].
  destruct (py_in_ints (raw_sample_rate (from_members members)) valid_sample_rates);
    cbn [negb]; unfold bind, warning, modify, ret, py_between, py_int_le, raise;
    cbn [raw_block_size raw_set_sample_rate root_logger written];
    destruct (raw_block_size (from_members members)) as [ | b | z | f | sv | | ];
    try contradiction; cbn.
  all: try (eexists (mkWorld _ wr), [], _;
            split; [reflexivity|]; split; [reflexivity|];
            split; [reflexivity|]; split; [reflexivity|]; intros r []).
  all: eexists (mkWorld _ wr), [_], _; split; [reflexivity|]; cbn;
    rewrite <- app_assoc; split; [reflexivity|];
    split; [reflexivity|]; split; [reflexivity|];
    intros r [<-|[]]; eauto.
Qed.

Lemma load_config_resets_everything_on_a_type_error_witness :
  exists w' earlier e,
    load_config Fixtures.ascii_upper
                (ConfigFixtures.holding ConfigFixtures.ill_typed_file)
                "config.json" ConfigFixtures.empty_world
      = (Ret (to_raw defaults), w') /\
    root_logger w' = (earlier ++ [LoadError e])%list /\
    exn_cls e = TypeError /\
    raw_sample_rate (from_members ConfigFixtures.ill_typed_file) = PInt 48000.
Proof.
  destruct (load_config_resets_everything_on_a_type_error
              Fixtures.ascii_upper
              (ConfigFixtures.holding ConfigFixtures.ill_typed_file)
              "config.json" ConfigFixtures.empty_world
              ConfigFixtures.ill_typed_file eq_refl eq_refl I)
    as (w' & earlier & e & Hrun & Hlog & Hcls & _).
  exists w', earlier, e.
  split; [exact Hrun|]. split; [exact Hlog|]. split; [exact Hcls | reflexivity].
Defined.

(** X18. On a file whose members all have the declared types,
    [load_config] returns what [validate_config] makes of the
    configuration the file describes (fields the file does not set at
    their defaults, keys the dataclass does not have ignored), with the
    same warnings. *)
Theorem load_config_validates_a_typed_file :
  forall (str_upper : string -> string) (fs : FileSystem) (path : string)
         (w : World) (members : list (string * pyval)) (config : ServerConfig),
    path_exists fs path = true ->
    read_json fs path = inr (JObject members) ->
    from_members members = to_raw config ->
    exists config' w',
      validate_config str_upper config w = (Ret config', w') /\
      load_config str_upper fs path w = (Ret (to_raw config'), w').
Proof.
  intros str_upper fs path w members config Hex Hread Hmembers.
  destruct (Configuration.validate_config_typed str_upper config w)
    as (config' & w' & Hrun & _).
  exists config', w'. split; [exact Hrun|].
  unfold load_config. rewrite Hex. cbn [negb].
  unfold try_except, bind at 1. rewrite Hread.
  unfold ret at 1, bind at 1, ret at 1.
  rewrite Hmembers, Configuration.validate_config_raw_typed, Hrun.
  reflexivity.
Qed.

Lemma load_config_validates_a_typed_file_witness :
  exists config' w',
    load_config Fixtures.ascii_upper
                (ConfigFixtures.holding ConfigFixtures.typed_file)
                "config.json" ConfigFixtures.empty_world
      = (Ret (to_raw config'), w') /\
    sample_rate config' = 48000 /\ block_size config' = 1024.
Proof.
  destruct (load_config_validates_a_typed_file
              Fixtures.ascii_upper
              (ConfigFixtures.holding ConfigFixtures.typed_file)
              "config.json" ConfigFixtures.empty_world
              ConfigFixtures.typed_file ConfigFixtures.typed_file_config
              eq_refl eq_refl eq_refl)
    as (config' & w' & Hval & Hrun).
  exists config', w'. split; [exact Hrun|].
  vm_compute in Hval. injection Hval as <- _. split; reflexivity.
Defined.

End ConfigurationMore.

(* ================================================================== *)
(** ** The broadcast loop, the connection handler and shutdown *)
(* ================================================================== *)

Module Streaming.
Import Py WsServer.

(** *** [broadcast] when every send goes through *)

Lemma broadcast_all_delivered wall_clock send_result data
      (c : ConnectionManager.State) :
  Dict.wf (ConnectionManager.clients c) ->
  (forall ws, send_result ws data = None) ->
  exists c',
    ConnectionManager.broadcast wall_clock send_result data c = (Ret tt, c') /\
    Dict.keys (ConnectionManager.clients c') = Dict.keys (ConnectionManager.clients c) /\
    (forall id info,
        Dict.get (ConnectionManager.clients c) id = Some info ->
        exists info',
          Dict.get (ConnectionManager.clients c') id = Some info' /\
          ConnectionManager.packets_sent info' = ConnectionManager.packets_sent info + 1 /\
          ConnectionManager.websocket info' = ConnectionManager.websocket info) /\
    ConnectionManager.wire c' =
      (ConnectionManager.wire c ++
       map (fun item => ConnectionManager.CallSend
                          (ConnectionManager.websocket (snd item)) data)
           (ConnectionManager.clients c))%list.
Proof.
  intros Hwf Hall.
  destruct (RegistryMore.broadcast_spec wall_clock send_result data c Hwf)
    as (c' & Hrun & Hc & _ & Hw).
  assert (Hid : ConnectionManager.clients c' =
                ConnectionManager.swept wall_clock send_result data
                  (ConnectionManager.clients c) (ConnectionManager.clock_reads c)).
  { rewrite Hc. apply forallb_filter_id. apply forallb_forall.
    intros item _. unfold Sessions.delivered. now rewrite Hall. }
  exists c'. split; [exact Hrun|].
  split; [rewrite Hid; apply Registry.swept_keys|].
  split; [|exact Hw].
  intros id info Hget.
  destruct (Registry.swept_get_sent wall_clock send_result data _ _ _ Hget
              (Hall _) (ConnectionManager.clock_reads c)) as (t & Hsw).
  rewrite Hid, Hsw. eexists. split; [reflexivity|]. cbn. auto.
Qed.

(** *** One pass of the loop *)

(** X19. One pass of the broadcast loop over a registry with unique
    identities never raises and never changes the loop flag, the
    listening server or the handle and running flag of the device
    source.  When [read_block] yields nothing, or an empty block, no
    transport is called and the registry is left exactly as it was;
    otherwise every registered session is sent the block just read, once
    and in registry order. *)
Theorem loop_pass_sends_the_block_or_nothing :
  forall (t : Tick) (s : State),
    Dict.wf (ConnectionManager.clients (connection_manager s)) ->
    exists block a' s',
      AudioCapture.read_block (tick_sd t) (audio_capture s) = (Ret block, a') /\
      loop_iteration t s = (Ret tt, s') /\
      audio_capture s' = a' /\
      is_running s' = is_running s /\
      server s' = server s /\
      AudioCapture.stream a' = AudioCapture.stream (audio_capture s) /\
      AudioCapture.is_running a' = AudioCapture.is_running (audio_capture s) /\
      match truthy block with
      | None => connection_manager s' = connection_manager s
      | Some data =>
          ConnectionManager.wire (connection_manager s') =
            (ConnectionManager.wire (connection_manager s) ++
             map (fun item => ConnectionManager.CallSend
                                (ConnectionManager.websocket (snd item)) data)
                 (ConnectionManager.clients (connection_manager s)))%list
      end.
Proof.
  intros t s Hwf.
  destruct (Capture.read_block_keeps_handle (tick_sd t) (audio_capture s))
    as [Hst Hfl].
  assert (Hret : exists block,
             fst (AudioCapture.read_block (tick_sd t) (audio_capture s)) = Ret block).
  { rewrite Capture.read_block_eq.
    destruct (AudioCapture.stream (audio_capture s));
      [|eexists; reflexivity].
    destruct (AudioCapture.is_running (audio_capture s));
      [|eexists; reflexivity].
    match goal with |- context [AudioCapture.read_stream ?a ?b ?c] =>
      destruct (AudioCapture.read_stream a b c) end; eexists; reflexivity. }
  destruct Hret as [block Hblock].
  destruct (AudioCapture.read_block (tick_sd t) (audio_capture s)) as [r a'] eqn:Hread.
  cbn [fst snd] in *. subst r.
  exists block, a'.
  unfold loop_iteration, bind, on_capture. rewrite Hread.
  destruct (truthy block) as [data|] eqn:Htruthy.
  - unfold on_registry. cbn [connection_manager].
    destruct (RegistryMore.broadcast_spec (tick_clock t) (tick_send t) data
                (connection_manager s) Hwf) as (c' & Hrun & _ & _ & Hw).
    rewrite Hrun. eexists. split; [reflexivity|]. split; [reflexivity|].
    cbn. repeat split; auto.
  - eexists. split; [reflexivity|]. split; [reflexivity|].
    cbn. repeat split; auto.
Qed.

Lemma loop_pass_sends_the_block_or_nothing_witness :
  exists data s',
    loop_iteration MoreFixtures.good_tick MoreFixtures.streaming = (Ret tt, s') /\
    Z.of_nat (List.length data) = 1024 * 2 * 2 /\
    ConnectionManager.wire (connection_manager s') =
      [ConnectionManager.CallSend Fixtures.alice data;
       ConnectionManager.CallSend Fixtures.bob data;
       ConnectionManager.CallSend Fixtures.carol data] /\
    is_running s' = true.
Proof.
  assert (Hwf : Dict.wf (ConnectionManager.clients
                           (connection_manager MoreFixtures.streaming))).
  { unfold Dict.wf. simpl.
    repeat (constructor; [simpl; intuition discriminate|]). constructor. }
  assert (Hst : AudioCapture.stream (audio_capture MoreFixtures.streaming) =
                Some (AudioCapture.mkInputStream
                        (AudioCapture.stream_params Config.defaults 0%nat
                           (Some (AudioCapture.mkWasapiSettings true))) true))
    by (vm_compute; reflexivity).
  assert (Hon : AudioCapture.is_running (audio_capture MoreFixtures.streaming) = true)
    by (vm_compute; reflexivity).
  assert (Hbs : Config.block_size
                  (AudioCapture.config (audio_capture MoreFixtures.streaming)) = 1024)
    by (vm_compute; reflexivity).
  assert (Hw0 : ConnectionManager.wire (connection_manager MoreFixtures.streaming) = [])
    by (vm_compute; reflexivity).
  assert (Hcl : forall data : list byte,
             map (fun item => ConnectionManager.CallSend
                                (ConnectionManager.websocket (snd item)) data)
                 (ConnectionManager.clients (connection_manager MoreFixtures.streaming)) =
               [ConnectionManager.CallSend Fixtures.alice data;
                ConnectionManager.CallSend Fixtures.bob data;
                ConnectionManager.CallSend Fixtures.carol data])
    by (intros data; vm_compute; reflexivity).
  assert (Hup : is_running MoreFixtures.streaming = true) by reflexivity.
  destruct (loop_pass_sends_the_block_or_nothing MoreFixtures.good_tick
              MoreFixtures.streaming Hwf)
    as (block & a' & s' & Hread & Hrun & _ & Hfl & _ & _ & _ & Hsend).
  assert (Hrd : forall st frames,
             AudioCapture.read_stream (tick_sd MoreFixtures.good_tick)
               (AudioCapture.params st) frames = inr Fixtures.ramp)
    by reflexivity.
  rewrite Capture.read_block_eq, Hst, Hon, Hbs, Hrd in Hread.
  match type of Hread with context [AudioCapture.tobytes ?x] =>
    remember (AudioCapture.tobytes x) as data eqn:Hdata end.
  assert (Hblock : block = Some data) by congruence.
  rewrite Hblock in Hsend.
  assert (Hlen : Z.of_nat (List.length data) = 1024 * 2 * 2).
  { rewrite Hdata, Capture.read_array_bytes. vm_compute. reflexivity. }
  destruct data as [|b rest]; [discriminate Hlen|].
  cbn [truthy] in Hsend.
  exists (b :: rest), s'.
  split; [exact Hrun|]. split; [exact Hlen|].
  split; [|now rewrite Hfl].
  rewrite Hsend, Hw0, Hcl. reflexivity.
Defined.

(** *** Passes that deliver *)

Lemma truthy_nonempty (data : list byte) :
  (0 < List.length data)%nat -> truthy (Some data) = Some data.
Proof. destruct data; cbn; [lia | reflexivity]. Qed.

(** A pass in which the read succeeds and every send goes through. *)
Lemma good_pass (t : Tick) (s : State) (st : AudioCapture.InputStream) :
  AudioCapture.stream (audio_capture s) = Some st ->
  AudioCapture.is_running (audio_capture s) = true ->
  0 < Config.block_size (AudioCapture.config (audio_capture s)) ->
  0 < AudioCapture.stream_channels (AudioCapture.params st) ->
  Dict.wf (ConnectionManager.clients (connection_manager s)) ->
  (exists sample,
      AudioCapture.read_stream (tick_sd t) (AudioCapture.params st)
        (Config.block_size (AudioCapture.config (audio_capture s))) = inr sample) ->
  (forall ws data, tick_send t ws data = None) ->
  exists s1,
    loop_iteration t s = (Ret tt, s1) /\
    is_running s1 = is_running s /\
    AudioCapture.stream (audio_capture s1) = Some st /\
    AudioCapture.is_running (audio_capture s1) = true /\
    AudioCapture.config (audio_capture s1) = AudioCapture.config (audio_capture s) /\
    Dict.keys (ConnectionManager.clients (connection_manager s1)) =
      Dict.keys (ConnectionManager.clients (connection_manager s)) /\
    (forall id info,
        Dict.get (ConnectionManager.clients (connection_manager s)) id = Some info ->
        exists info',
          Dict.get (ConnectionManager.clients (connection_manager s1)) id = Some info' /\
          ConnectionManager.packets_sent info' = ConnectionManager.packets_sent info + 1 /\
          ConnectionManager.websocket info' = ConnectionManager.websocket info) /\
    List.length (ConnectionManager.wire (connection_manager s1)) =
      (List.length (ConnectionManager.wire (connection_manager s)) +
       List.length (ConnectionManager.clients (connection_manager s)))%nat.
Proof.
  intros Hst Hon Hbs Hch Hwf [sample Hread] Hsend.
  unfold loop_iteration, bind, on_capture.
  rewrite Capture.read_block_eq, Hst, Hon. cbn [AudioCapture.params] in *.
  rewrite Hread.
  rewrite truthy_nonempty.
  2:{ rewrite Capture.read_array_bytes.
      assert (0 < Z.to_nat (Config.block_size
                              (AudioCapture.config (audio_capture s))))%nat by lia.
      assert (0 < Z.to_nat (AudioCapture.stream_channels
                              (AudioCapture.params st)))%nat by lia.
      nia. }
  unfold on_registry. cbn [connection_manager].
  match goal with |- context [ConnectionManager.broadcast _ _ ?data _] =>
    destruct (broadcast_all_delivered (tick_clock t) (tick_send t) data
                (connection_manager s) Hwf (fun ws => Hsend ws data))
      as (c' & Hrun & Hkeys & Hget & Hw) end.
  rewrite Hrun. eexists. split; [reflexivity|]. cbn.
  rewrite Hw, length_app, length_map.
  repeat split; auto.
Qed.

Lemma good_passes (ticks : list Tick) (st : AudioCapture.InputStream) :
  forall s : State,
    is_running s = true ->
    AudioCapture.stream (audio_capture s) = Some st ->
    AudioCapture.is_running (audio_capture s) = true ->
    0 < Config.block_size (AudioCapture.config (audio_capture s)) ->
    0 < AudioCapture.stream_channels (AudioCapture.params st) ->
    Dict.wf (ConnectionManager.clients (connection_manager s)) ->
    (forall t, In t ticks ->
       (exists sample,
           AudioCapture.read_stream (tick_sd t) (AudioCapture.params st)
             (Config.block_size (AudioCapture.config (audio_capture s))) = inr sample) /\
       (forall ws data, tick_send t ws data = None)) ->
    exists s',
      loop_iterations ticks s = (Ret tt, s') /\
      Dict.keys (ConnectionManager.clients (connection_manager s')) =
        Dict.keys (ConnectionManager.clients (connection_manager s)) /\
      (forall id info,
          Dict.get (ConnectionManager.clients (connection_manager s)) id = Some info ->
          exists info',
            Dict.get (ConnectionManager.clients (connection_manager s')) id = Some info' /\
            ConnectionManager.packets_sent info' =
              ConnectionManager.packets_sent info + Z.of_nat (List.length ticks) /\
            ConnectionManager.websocket info' = ConnectionManager.websocket info) /\
      List.length (ConnectionManager.wire (connection_manager s')) =
        (List.length (ConnectionManager.wire (connection_manager s)) +
         List.length ticks *
         List.length (ConnectionManager.clients (connection_manager s)))%nat.
Proof.
  induction ticks as [|t ticks IH]; intros s Hrun Hst Hon Hbs Hch Hwf Hgood.
  - exists s. cbn. repeat split; auto.
    intros id info Hget. exists info. repeat split; auto; lia.
  - destruct (Hgood t (or_introl eq_refl)) as [Hread Hsend].
    destruct (good_pass t s st Hst Hon Hbs Hch Hwf Hread Hsend)
      as (s1 & Hpass & Hrun1 & Hst1 & Hon1 & Hcfg1 & Hkeys1 & Hget1 & Hw1).
    assert (Hwf1 : Dict.wf (ConnectionManager.clients (connection_manager s1))).
    { unfold Dict.wf. now rewrite Hkeys1. }
    destruct (IH s1) as (s' & Hloop & Hkeys & Hget & Hw); try assumption.
    { congruence. }
    { now rewrite Hcfg1. }
    { intros t' Hin. rewrite Hcfg1. apply Hgood. now right. }
    exists s'. split.
    { cbn [loop_iterations]. unfold bind at 1, gets. rewrite Hrun.
      unfold bind. rewrite Hpass. exact Hloop. }
    split; [congruence|].
    split.
    { intros id info Hinfo.
      destruct (Hget1 id info Hinfo) as (info1 & Hinfo1 & Hp1 & Hws1).
      destruct (Hget id info1 Hinfo1) as (info' & Hinfo' & Hp' & Hws').
      exists info'. split; [exact Hinfo'|].
      split; [|congruence].
      rewrite Hp', Hp1. cbn [List.length]. lia. }
    rewrite Hw, Hw1. cbn [List.length].
    assert (Hlen : List.length (ConnectionManager.clients (connection_manager s1)) =
                   List.length (ConnectionManager.clients (connection_manager s))).
    { rewrite <- (length_map fst (ConnectionManager.clients (connection_manager s1))).
      rewrite <- (length_map fst (ConnectionManager.clients (connection_manager s))).
      unfold Dict.keys in Hkeys1. now rewrite Hkeys1. }
    rewrite Hlen. lia.
Qed.

(** X20. The counters count delivered blocks.  While the loop flag is
    up, the device source holds a running stream with a positive block
    size and channel count, and during the given ticks every read
    succeeds and every send goes through, the loop makes one pass per
    tick; afterwards the same identities are registered, every session
    has its counter raised by the number of passes, and each pass made
    one send per session. *)
Theorem counters_count_delivered_blocks :
  forall (ticks : list Tick) (s : State) (st : AudioCapture.InputStream),
    is_running s = true ->
    AudioCapture.stream (audio_capture s) = Some st ->
    AudioCapture.is_running (audio_capture s) = true ->
    0 < Config.block_size (AudioCapture.config (audio_capture s)) ->
    0 < AudioCapture.stream_channels (AudioCapture.params st) ->
    Dict.wf (ConnectionManager.clients (connection_manager s)) ->
    (forall t, In t ticks ->
       (exists sample,
           AudioCapture.read_stream (tick_sd t) (AudioCapture.params st)
             (Config.block_size (AudioCapture.config (audio_capture s))) = inr sample) /\
       (forall ws data, tick_send t ws data = None)) ->
    exists s',
      broadcast_loop ticks s = (Ret tt, s') /\
      Dict.keys (ConnectionManager.clients (connection_manager s')) =
        Dict.keys (ConnectionManager.clients (connection_manager s)) /\
      (forall id info,
          Dict.get (ConnectionManager.clients (connection_manager s)) id = Some info ->
          exists info',
            Dict.get (ConnectionManager.clients (connection_manager s')) id = Some info' /\
            ConnectionManager.packets_sent info' =
              ConnectionManager.packets_sent info + Z.of_nat (List.length ticks) /\
            ConnectionManager.websocket info' = ConnectionManager.websocket info) /\
      List.length (ConnectionManager.wire (connection_manager s')) =
        (List.length (ConnectionManager.wire (connection_manager s)) +
         List.length ticks *
         List.length (ConnectionManager.clients (connection_manager s)))%nat.
Proof.
  intros ticks s st Hrun Hst Hon Hbs Hch Hwf Hgood.
  unfold broadcast_loop, bind. unfold log at 1, modify.
  match goal with |- context [loop_iterations ticks ?s0] =>
    destruct (good_passes ticks st s0) as (s' & Hloop & Hrest) end;
    try assumption.
  exists s'. split; [exact Hloop | exact Hrest].
Qed.

Lemma counters_count_delivered_blocks_witness :
  exists s',
    broadcast_loop [MoreFixtures.good_tick; MoreFixtures.good_tick]
                   MoreFixtures.streaming = (Ret tt, s') /\
    Dict.keys (ConnectionManager.clients (connection_manager s')) =
      Dict.keys (ConnectionManager.clients (connection_manager MoreFixtures.streaming)).
Proof.
  assert (Hwf : Dict.wf (ConnectionManager.clients
                           (connection_manager MoreFixtures.streaming))).
  { unfold Dict.wf. simpl.
    repeat (constructor; [simpl; intuition discriminate|]). constructor. }
  assert (Hst : AudioCapture.stream (audio_capture MoreFixtures.streaming) =
                Some (AudioCapture.mkInputStream
                        (AudioCapture.stream_params Config.defaults 0%nat
                           (Some (AudioCapture.mkWasapiSettings true))) true))
    by (vm_compute; reflexivity).
  assert (Hon : AudioCapture.is_running (audio_capture MoreFixtures.streaming) = true)
    by (vm_compute; reflexivity).
  assert (Hbs : 0 < Config.block_size
                      (AudioCapture.config (audio_capture MoreFixtures.streaming)))
    by (vm_compute; reflexivity).
  destruct (counters_count_delivered_blocks
              [MoreFixtures.good_tick; MoreFixtures.good_tick]
              MoreFixtures.streaming _ eq_refl Hst Hon Hbs)
    as (s' & Hrun & Hkeys & _).
  - vm_compute. reflexivity.
  - exact Hwf.
  - intros t [<-|[<-|[]]]; (split; [eexists; reflexivity | reflexivity]).
  - exists s'. split; assumption.
Defined.

(** *** The connection handler *)

Lemma handler_enter_eq wall_clock ws s :
  handler_enter wall_clock ws s =
    (Ret (ConnectionManager.client_id_of ws),
     mkState (config s) (audio_capture s)
             (snd (ConnectionManager.add_client wall_clock ws (connection_manager s)))
             (logger s) (server s) (is_running s) (broadcast_task s)).
Proof.
  unfold handler_enter, on_registry. now rewrite Registry.add_client_eq.
Qed.

Lemma handler_exit_eq client_id ending s :
  handler_exit client_id ending s =
    (Ret tt,
     mkState (config s) (audio_capture s)
             (snd (ConnectionManager.remove_client client_id (connection_manager s)))
             (logger s ++ match ending with
                          | None => []
                          | Some e => [HandlerError client_id e]
                          end)
             (server s) (is_running s) (broadcast_task s)).
Proof.
  unfold handler_exit, try_finally, on_registry, log, modify, ret.
  destruct ending as [e|];
    cbn [connection_manager config audio_capture logger server is_running
         broadcast_task];
    rewrite Registry.remove_client_eq; cbn [snd]; rewrite ?app_nil_r;
    reflexivity.
Qed.

Lemma added_session_is_registered wall_clock ws (c : ConnectionManager.State) :
  Dict.get (ConnectionManager.clients (snd (ConnectionManager.add_client wall_clock ws c)))
           (ConnectionManager.client_id_of ws) =
    Some (ConnectionManager.mkClientInfo ws
            (wall_clock (ConnectionManager.clock_reads c))
            (wall_clock (ConnectionManager.clock_reads c))
            (ConnectionManager.client_id_of ws) 0).
Proof. rewrite Registry.add_client_eq. apply dict_get_set_eq. Qed.

Lemma add_client_wire wall_clock ws (c : ConnectionManager.State) :
  ConnectionManager.wire (snd (ConnectionManager.add_client wall_clock ws c)) =
    ConnectionManager.wire c.
Proof. now rewrite Registry.add_client_eq. Qed.

Lemma remove_client_wire client_id (c : ConnectionManager.State) :
  ConnectionManager.wire (snd (ConnectionManager.remove_client client_id c)) =
    ConnectionManager.wire c.
Proof.
  rewrite Registry.remove_client_eq. cbn [snd].
  now destruct (Dict.contains (ConnectionManager.clients c) client_id).
Qed.

Lemma removed_session_is_gone client_id (c : ConnectionManager.State) :
  Dict.wf (ConnectionManager.clients c) ->
  Dict.get (ConnectionManager.clients
              (snd (ConnectionManager.remove_client client_id c))) client_id = None.
Proof.
  intros Hwf. rewrite Registry.remove_client_eq. cbn [snd].
  destruct (Dict.contains (ConnectionManager.clients c) client_id) eqn:E.
  - now apply dict_get_del_eq.
  - unfold Dict.contains in E.
    now destruct (Dict.get (ConnectionManager.clients c) client_id).
Qed.

(** X21. A session belongs to an address, not to a connection.  When a
    second connection arrives from the address of one whose handler is
    still waiting, it takes over the session; when the first handler
    then ends (by cancellation or by an error) it removes the session
    stored under its identity, which is the second connection's: that
    connection is no longer registered, although nothing was closed. *)
Theorem ending_handler_removes_the_newer_session :
  forall (clock1 clock2 : nat -> Z) (s : State)
         (ws1 ws2 : ConnectionManager.WebSocket) (ending : option exn),
    ConnectionManager.client_id_of ws1 = ConnectionManager.client_id_of ws2 ->
    Dict.wf (ConnectionManager.clients (connection_manager s)) ->
    exists s1 s2 s3 info,
      handler_enter clock1 ws1 s = (Ret (ConnectionManager.client_id_of ws1), s1) /\
      handler_enter clock2 ws2 s1 = (Ret (ConnectionManager.client_id_of ws1), s2) /\
      Dict.get (ConnectionManager.clients (connection_manager s2))
               (ConnectionManager.client_id_of ws2) = Some info /\
      ConnectionManager.websocket info = ws2 /\
      handler_exit (ConnectionManager.client_id_of ws1) ending s2 = (Ret tt, s3) /\
      Dict.get (ConnectionManager.clients (connection_manager s3))
               (ConnectionManager.client_id_of ws2) = None /\
      ConnectionManager.wire (connection_manager s3) =
        ConnectionManager.wire (connection_manager s).
Proof.
  intros clock1 clock2 s ws1 ws2 ending Hsame Hwf.
  eexists. eexists. eexists. eexists.
  split; [apply handler_enter_eq|].
  split; [rewrite handler_enter_eq, Hsame; reflexivity|].
  cbn [connection_manager].
  split; [apply added_session_is_registered|].
  split; [reflexivity|].
  split; [apply handler_exit_eq|].
  cbn [connection_manager]. rewrite Hsame. split.
  - apply removed_session_is_gone. now do 2 apply Registry.add_client_wf.
  - now rewrite remove_client_wire, !add_client_wire.
Qed.

Lemma ending_handler_removes_the_newer_session_witness :
  exists s3,
    (id1 <- handler_enter Fixtures.clock Fixtures.alice ;;
     handler_enter Fixtures.clock Fixtures.alice_again ;;
     handler_exit id1 None)
      (WsServer.__init__ Config.defaults (AudioCapture.__init__ Config.defaults)
                         ConnectionManager.__init__) = (Ret tt, s3) /\
    Dict.get (ConnectionManager.clients (connection_manager s3))
             "192.168.1.10:50001" = None.
Proof.
  destruct (ending_handler_removes_the_newer_session
              Fixtures.clock Fixtures.clock
              (WsServer.__init__ Config.defaults (AudioCapture.__init__ Config.defaults)
                                 ConnectionManager.__init__)
              Fixtures.alice Fixtures.alice_again None eq_refl)
    as (s1 & s2 & s3 & info & H1 & H2 & _ & _ & H3 & Hgone & _).
  - constructor.
  - exists s3. split; [|exact Hgone].
    unfold bind. rewrite H1, H2. exact H3.
Defined.

(** *** [stop] *)

Lemma on_registry_close_all close_result reason s :
  exists c',
    on_registry (ConnectionManager.close_all close_result reason) s =
      (Ret tt, mkState (config s) (audio_capture s) c' (logger s) (server s)
                       (is_running s) (broadcast_task s)) /\
    ConnectionManager.clients c' = Dict.empty /\
    ConnectionManager.wire c' =
      (ConnectionManager.wire (connection_manager s) ++
       map (fun item => ConnectionManager.CallClose
                          (ConnectionManager.websocket (snd item)) 1001 reason)
           (ConnectionManager.clients (connection_manager s)))%list.
Proof.
  destruct (RegistryMore.close_all_spec close_result reason (connection_manager s))
    as (c' & Hrun & Hc & _ & Hw).
  exists c'. unfold on_registry. rewrite Hrun. auto.
Qed.

(** X22. [stop] always lowers the loop flag.  If awaiting the cancelled
    broadcast task raises, that exception leaves [stop] at once: no
    client is closed and the listening server stays open.  Otherwise
    every registered client is sent a close with code 1001 and the
    reason "Server shutting down", the registry ends empty whatever the
    closes do, and the listening server, if there is one, is closed;
    [stop] then raises only if waiting for that server to close does. *)
Theorem stop_closes_clients_unless_the_task_failed :
  forall (task_result : option exn)
         (close_result : ConnectionManager.WebSocket -> Z -> string -> option exn)
         (wait_closed_result : option exn) (s : State),
    exists r s',
      stop task_result close_result wait_closed_result s = (r, s') /\
      is_running s' = false /\
      match (if broadcast_task s then task_result else None) with
      | Some e =>
          r = Raise e /\
          connection_manager s' = connection_manager s /\
          server s' = server s
      | None =>
          ConnectionManager.clients (connection_manager s') = Dict.empty /\
          ConnectionManager.wire (connection_manager s') =
            (ConnectionManager.wire (connection_manager s) ++
             map (fun item => ConnectionManager.CallClose
                                (ConnectionManager.websocket (snd item)) 1001
                                "Server shutting down")
                 (ConnectionManager.clients (connection_manager s)))%list /\
          server s' =
            match server s with
            | Some w => Some (mkWebSocketServer (bound_host w) (bound_port w) true)
            | None => None
            end /\
          r = match server s, wait_closed_result with
              | Some _, Some e => Raise e
              | _, _ => Ret tt
              end
      end.
Proof.
  intros task_result close_result wait_closed_result s.
  unfold stop. unfold bind at 1. unfold log at 1, modify.
  unfold bind at 1. unfold set_is_running at 1, modify.
  unfold bind at 1. unfold gets at 1. cbn [broadcast_task].
  unfold bind at 1.
  destruct (broadcast_task s) eqn:Htask.
  - destruct task_result as [e|]; unfold outcome, raise, ret.
    + eexists. eexists. split; [reflexivity|]. cbn. auto.
    + unfold bind at 1.
      match goal with |- context [on_registry ?m ?s0] =>
        destruct (on_registry_close_all close_result "Server shutting down" s0)
          as (c' & Hrun & Hc & Hw) end.
      rewrite Hrun. cbn [connection_manager] in Hw.
      unfold bind at 1. unfold bind at 1. unfold gets at 1. cbn [server].
      destruct (server s) as [w|];
        [destruct wait_closed_result as [e|]|];
        eexists; eexists; (split; [reflexivity|]); cbn; auto.
  - unfold ret at 1. unfold bind at 1.
    match goal with |- context [on_registry ?m ?s0] =>
      destruct (on_registry_close_all close_result "Server shutting down" s0)
        as (c' & Hrun & Hc & Hw) end.
    rewrite Hrun. cbn [connection_manager] in Hw.
    unfold bind at 1. unfold bind at 1. unfold gets at 1. cbn [server].
    destruct (server s) as [w|];
      [destruct wait_closed_result as [e|]|];
      eexists; eexists; (split; [reflexivity|]); cbn; auto.
Qed.

End Streaming.

(* ================================================================== *)
(** ** The local address *)
(* ================================================================== *)

Module LocalAddress.
Import Py HttpServer.

(** X23. [get_local_ip] raises at once if the socket cannot be created.
    Once the socket exists it is closed exactly once, as the last call,
    on every path.  The result is the address the socket reports when
    both the connect and the query succeed and "127.0.0.1" otherwise;
    an exception of [close] replaces that result. *)
Theorem get_local_ip_always_closes_its_socket :
  forall (sock : Socket) (calls : list SockCall),
    exists r made,
      get_local_ip sock calls = (r, (calls ++ made)%list) /\
      match create_result sock with
      | Some e => r = Raise e /\ made = [SockCreate]
      | None =>
          exists between,
            made = (SockCreate :: between ++ [SockClose])%list /\
            ~ In SockClose between /\
            r = match sock_close_result sock with
                | Some e => Raise e
                | None =>
                    Ret (match connect_result sock "8.8.8.8" 80,
                               getsockname_result sock with
                         | None, inr addr => fst addr
                         | _, _ => "127.0.0.1"
                         end)
                end
      end.
Proof.
  intros sock calls.
  unfold get_local_ip, bind, call, modify, outcome, try_finally, try_except,
    ret, raise.
  destruct (create_result sock) as [e0|]; cbn.
  { exists (Raise e0), [SockCreate]. auto. }
  destruct (connect_result sock "8.8.8.8" 80) as [e1|]; cbn.
  - destruct (sock_close_result sock) as [e3|]; cbn;
      eexists; exists [SockCreate; SockConnect "8.8.8.8" 80; SockClose];
      (split; [rewrite <- !app_assoc; reflexivity|]);
      exists [SockConnect "8.8.8.8" 80];
      (split; [reflexivity|]); (split; [|reflexivity]);
      intros [H|[]]; discriminate.
  - destruct (getsockname_result sock) as [e2|addr]; cbn;
      destruct (sock_close_result sock) as [e3|]; cbn;
      eexists; exists [SockCreate; SockConnect "8.8.8.8" 80; SockGetName; SockClose];
      (split; [rewrite <- !app_assoc; reflexivity|]);
      exists [SockConnect "8.8.8.8" 80; SockGetName];
      (split; [reflexivity|]); (split; [|reflexivity]);
      intros [H|[H|[]]]; discriminate.
Qed.

End LocalAddress.
